(** * GenNews: the question pool, its validators, the output repairer and
      the diversity selector of [src/api/ollama_client.py]

    A shallow embedding of the Python functions
    [validate_single_question], [validate_question_for_pool],
    [generate_questions_pool], [select_diverse_category_questions],
    [select_diverse_questions], [calculate_question_diversity],
    [clean_json_content] and [repair_json], together with the parts of the
    Python runtime they rest on ([str] methods, [re], [json.loads],
    [float], [datetime.strptime]).

    Conventions of the embedding.
    - A Python [str] is a Rocq [string]; the embedding covers ASCII text
      (characters above 127 are neither space, digit, letter nor word
      characters here).
    - A Python [int] is a rational ([Q]) and a [float] is the rational of
      a double: [float] and [json.loads] round a decimal literal to the
      nearest double.  The float [-0.0] is the zero [neg_zero], and the
      infinity a literal overflows to is kept as [2 ^ 1024].  NaN and the
      literals [inf] and [nan] are outside the embedding, and the
      arithmetic on floats is exact.  [str(float(v))] inside a uniqueness
      key is the double of [v]: two keys agree there when [str] writes both
      floats alike.
    - A [dict] is an association list in insertion order, since the code
      iterates over [dict.items()].
    - A loop that Python may run for ever takes a fuel argument and answers
      [OutOfFuel] when the fuel is spent. *)

From Stdlib Require Import String Ascii List Bool Arith ZArith QArith Lia.
Import ListNotations.
Local Open Scope string_scope.
Local Open Scope nat_scope.
Local Open Scope list_scope.

Infix "+++" := String.append (at level 60, right associativity).

(** ** Characters *)

Definition in_range (lo hi : nat) (c : ascii) : bool :=
  let n := nat_of_ascii c in (lo <=? n) && (n <=? hi).

(** [str.isspace] on ASCII: tab, LF, VT, FF, CR, the separators
    0x1c-0x1f and the blank.  It is also the class [\s] of [re]. *)
Definition is_space (c : ascii) : bool :=
  in_range 9 13 c || in_range 28 32 c.

Definition is_digit (c : ascii) : bool := in_range 48 57 c.
Definition is_upper (c : ascii) : bool := in_range 65 90 c.
Definition is_lower (c : ascii) : bool := in_range 97 122 c.

(** The class [\w] of [re] on ASCII. *)
Definition is_word (c : ascii) : bool :=
  is_digit c || is_upper c || is_lower c || Ascii.eqb c "_".

Definition to_lower (c : ascii) : ascii :=
  if is_upper c then ascii_of_nat (nat_of_ascii c + 32) else c.

Definition to_upper (c : ascii) : ascii :=
  if is_lower c then ascii_of_nat (nat_of_ascii c - 32) else c.

Definition dquote : ascii := "034"%char.

(** [c in chars] for a one-character string [c]. *)
Fixpoint char_in (c : ascii) (chars : string) : bool :=
  match chars with
  | EmptyString => false
  | String d chars' => Ascii.eqb c d || char_in c chars'
  end.

(** ** Methods of [str] *)

Fixpoint str_map (f : ascii -> ascii) (s : string) : string :=
  match s with
  | EmptyString => EmptyString
  | String c s' => String (f c) (str_map f s')
  end.

Definition lower (s : string) : string := str_map to_lower s.
Definition upper (s : string) : string := str_map to_upper s.

Definition startswith (s p : string) : bool := String.prefix p s.

Fixpoint str_rev_onto (s acc : string) : string :=
  match s with
  | EmptyString => acc
  | String c s' => str_rev_onto s' (String c acc)
  end.

Definition str_rev (s : string) : string := str_rev_onto s EmptyString.

Definition endswith (s p : string) : bool :=
  String.prefix (str_rev p) (str_rev s).

(** [sub in s]. *)
Fixpoint str_in (sub s : string) : bool :=
  String.prefix sub s ||
  match s with
  | EmptyString => false
  | String _ s' => str_in sub s'
  end.

(** [s.find(sub)]: the lowest index, or -1. *)
Fixpoint find_from (sub s : string) (i : Z) : Z :=
  if String.prefix sub s then i
  else match s with
       | EmptyString => (-1)%Z
       | String _ s' => find_from sub s' (i + 1)%Z
       end.

Definition str_find (s sub : string) : Z := find_from sub s 0%Z.

(** [s.rfind(sub)]: the highest index, or -1. *)
Fixpoint rfind_from (sub s : string) (i : Z) (last : Z) : Z :=
  let last' := if String.prefix sub s then i else last in
  match s with
  | EmptyString => last'
  | String _ s' => rfind_from sub s' (i + 1)%Z last'
  end.

Definition str_rfind (s sub : string) : Z := rfind_from sub s 0%Z (-1)%Z.

(** [s[a:b]] for indices that are not negative. *)
Definition slice (s : string) (a b : Z) : string :=
  substring (Z.to_nat a) (Z.to_nat (b - a)) s.

(** [s.replace(old, new)]; [skip] counts the characters of a match that
    are still to be dropped. *)
Fixpoint replace_go (old new : string) (skip : nat) (s : string) : string :=
  match s with
  | EmptyString => EmptyString
  | String c s' =>
      match skip with
      | S n => replace_go old new n s'
      | O =>
          if String.prefix old s
          then new +++ replace_go old new (String.length old - 1) s'
          else String c (replace_go old new 0 s')
      end
  end.

Fixpoint interleave (new s : string) : string :=
  match s with
  | EmptyString => new
  | String c s' => new +++ String c (interleave new s')
  end.

Definition str_replace (s old new : string) : string :=
  match old with
  | EmptyString => interleave new s
  | _ => replace_go old new 0 s
  end.

(** [s.count(c)] for a one-character string. *)
Fixpoint count_char (c : ascii) (s : string) : nat :=
  match s with
  | EmptyString => 0
  | String d s' => (if Ascii.eqb c d then 1 else 0) + count_char c s'
  end.

Fixpoint lstrip_by (p : ascii -> bool) (s : string) : string :=
  match s with
  | EmptyString => EmptyString
  | String c s' => if p c then lstrip_by p s' else s
  end.

Definition rstrip_by (p : ascii -> bool) (s : string) : string :=
  str_rev (lstrip_by p (str_rev s)).

(** [s.strip()] and [s.rstrip(chars)]. *)
Definition strip (s : string) : string := rstrip_by is_space (lstrip_by is_space s).
Definition rstrip (s chars : string) : string := rstrip_by (fun c => char_in c chars) s.

(** [int(s)] for a string of ASCII digits, and [str(n)]. *)
Fixpoint digits_value (s : string) (acc : N) : N :=
  match s with
  | EmptyString => acc
  | String c s' => digits_value s' (acc * 10 + N.of_nat (nat_of_ascii c - 48))%N
  end.

Definition int_of_digits (s : string) : N := digits_value s 0%N.

Fixpoint str_of_pos_go (fuel : nat) (n : N) (acc : string) : string :=
  match fuel with
  | O => acc
  | S fuel' =>
      let acc' := String (ascii_of_N (48 + n mod 10)) acc in
      if (n / 10 =? 0)%N then acc' else str_of_pos_go fuel' (n / 10)%N acc'
  end.

Definition str_of_int (n : N) : string :=
  str_of_pos_go (S (N.to_nat (N.log2 n))) n EmptyString.

(** ** The [re] module: a backtracking matcher

    Patterns are written as syntax trees; each use gives the Python
    pattern in its comment.  The matcher is the usual continuation-passing
    one: alternatives are tried in order and a star is greedy, so the
    match that is found is the one CPython's engine finds. *)

Inductive regex : Type :=
| REps
| RCls (p : ascii -> bool)
| RStr (s : string)
| RSeq (r1 r2 : regex)
| RAlt (r1 r2 : regex)
| RStar (r : regex)
| RGroup (n : nat) (r : regex)
| RAhead (r : regex)
| RWordB.

Declare Scope re_scope.
Delimit Scope re_scope with re.
Bind Scope re_scope with regex.
Infix ";;" := RSeq (at level 61, right associativity) : re_scope.

Definition RPlus (r : regex) : regex := RSeq r (RStar r).
Definition ROpt (r : regex) : regex := RAlt r REps.

Fixpoint RRep (n : nat) (r : regex) : regex :=
  match n with
  | O => REps
  | S n' => RSeq r (RRep n' r)
  end.

Definition RChr (c : ascii) : regex := RCls (Ascii.eqb c).
Definition RNot (chars : string) : regex := RCls (fun c => negb (char_in c chars)).
Definition ROneOf (chars : string) : regex := RCls (fun c => char_in c chars).
Definition RSpaces : regex := RStar (RCls is_space).
Definition RDigit : regex := RCls is_digit.
Definition RDigits : regex := RPlus RDigit.

(** The state of a match: the character before the cursor (for [\b]), the
    cursor, the text after it, and the groups captured so far. *)
Record mstate : Type := MState {
  m_prev : option ascii;
  m_pos : nat;
  m_rest : string;
  m_caps : list (nat * string) }.

Fixpoint eat (lit : string) (st : mstate) : option mstate :=
  match lit with
  | EmptyString => Some st
  | String c lit' =>
      match m_rest st with
      | String d rest' =>
          if Ascii.eqb c d
          then eat lit' (MState (Some d) (S (m_pos st)) rest' (m_caps st))
          else None
      | EmptyString => None
      end
  end.

Definition at_boundary (st : mstate) : bool :=
  let before := match m_prev st with Some c => is_word c | None => false end in
  let after := match m_rest st with String c _ => is_word c | EmptyString => false end in
  xorb before after.

Fixpoint rmatch (r : regex) (k : mstate -> option mstate) (st : mstate)
  {struct r} : option mstate :=
  match r with
  | REps => k st
  | RCls p =>
      match m_rest st with
      | String c rest' =>
          if p c then k (MState (Some c) (S (m_pos st)) rest' (m_caps st)) else None
      | EmptyString => None
      end
  | RStr s => match eat s st with Some st' => k st' | None => None end
  | RSeq r1 r2 => rmatch r1 (rmatch r2 k) st
  | RAlt r1 r2 =>
      match rmatch r1 k st with
      | Some e => Some e
      | None => rmatch r2 k st
      end
  | RStar r' =>
      (fix loop (fuel : nat) (st : mstate) {struct fuel} : option mstate :=
         match fuel with
         | O => k st
         | S fuel' =>
             match rmatch r'
                     (fun st' => if m_pos st <? m_pos st' then loop fuel' st' else None)
                     st with
             | Some e => Some e
             | None => k st
             end
         end) (S (String.length (m_rest st))) st
  | RGroup n r' =>
      rmatch r'
        (fun st' =>
           k (MState (m_prev st') (m_pos st') (m_rest st')
                ((n, substring 0 (m_pos st' - m_pos st) (m_rest st)) :: m_caps st')))
        st
  | RAhead r' =>
      match rmatch r' Some st with
      | Some e => k (MState (m_prev st) (m_pos st) (m_rest st) (m_caps e))
      | None => None
      end
  | RWordB => if at_boundary st then k st else None
  end.

(** [m.group(n)]; a group that took no part in the match gives the empty
    string, as in a replacement template. *)
Fixpoint lookup_cap (n : nat) (caps : list (nat * string)) : string :=
  match caps with
  | [] => EmptyString
  | (m, s) :: caps' => if n =? m then s else lookup_cap n caps'
  end.

Definition grp (n : nat) (e : mstate) : string := lookup_cap n (m_caps e).

(** [re.match]: a match that starts at index 0. *)
Definition re_match (r : regex) (s : string) : option mstate :=
  rmatch r Some (MState None 0 s []).

(** The scan of [re.search]: the first index at which a match starts, with
    the state at its end.  [adv] is the engine's [must_advance]: at the
    first index an empty match is refused. *)
Fixpoint search_at (r : regex) (adv : bool) (prev : option ascii) (pos : nat)
  (s : string) : option (nat * mstate) :=
  match rmatch r (fun e => if adv && (m_pos e =? pos) then None else Some e)
          (MState prev pos s []) with
  | Some e => Some (pos, e)
  | None =>
      match s with
      | EmptyString => None
      | String c s' => search_at r false (Some c) (S pos) s'
      end
  end.

Definition re_search (r : regex) (s : string) : option mstate :=
  option_map snd (search_at r false None 0 s).

(** [re.sub(r, repl, s)]: every match that does not overlap an earlier one,
    from the left, replaced by [repl] applied to the match. *)
Fixpoint sub_go (fuel : nat) (r : regex) (repl : mstate -> string) (adv : bool)
  (prev : option ascii) (s : string) : string :=
  match fuel with
  | O => s
  | S fuel' =>
      match search_at r adv prev 0 s with
      | None => s
      | Some (b, e) =>
          substring 0 b s +++ repl e +++
          sub_go fuel' r repl (m_pos e =? b) (m_prev e) (m_rest e)
      end
  end.

Definition re_sub (r : regex) (repl : mstate -> string) (s : string) : string :=
  sub_go (2 * String.length s + 2) r repl false None s.

(** [re.findall(r, s)] for a pattern without groups: the matched texts. *)
Fixpoint findall_go (fuel : nat) (r : regex) (adv : bool) (prev : option ascii)
  (s : string) : list string :=
  match fuel with
  | O => []
  | S fuel' =>
      match search_at r adv prev 0 s with
      | None => []
      | Some (b, e) =>
          substring b (m_pos e - b) s ::
          findall_go fuel' r (m_pos e =? b) (m_prev e) (m_rest e)
      end
  end.

Definition re_findall (r : regex) (s : string) : list string :=
  findall_go (2 * String.length s + 2) r false None s.

(** [re.fullmatch]: the whole of [s] has to be matched. *)
Definition re_fullmatch (r : regex) (s : string) : option mstate :=
  rmatch r (fun e => match m_rest e with EmptyString => Some e | _ => None end)
    (MState None 0 s []).

(** ** Numbers *)

Definition pow10 (k : Z) : Z := Z.pow 10 k.

(** The value of the decimal literal [[-]int.frac e[-]exp]. *)
Definition decimal_value (neg : bool) (int_digits frac_digits : string)
  (exp_neg : bool) (exp_digits : string) : Q :=
  let m := Z.of_N (int_of_digits (int_digits +++ frac_digits)) in
  let e := Z.of_N (int_of_digits exp_digits) in
  let x := ((if exp_neg then - e else e) - Z.of_nat (String.length frac_digits))%Z in
  let m' := if neg then (- m)%Z else m in
  Qred (if (0 <=? x)%Z
        then Qmake (m' * pow10 x) 1
        else Qmake m' (Z.to_pos (pow10 (- x)))).

(** *** Floats

    A number is kept as the rational it is; a float is the rational of a
    double.  The float [-0.0] equals 0 in every comparison and [str] tells
    it from [0.0]: it is kept as [neg_zero], a zero that [Qred], and so
    [decimal_value], never gives. *)
Definition neg_zero : Q := 0 # 2.

Definition is_neg_zero (q : Q) : bool := (Qnum q =? 0)%Z && Pos.eqb (Qden q) 2.

(** A double: a zero with its sign, [mantissa * 2 ^ exponent] with its
    sign, or an infinity. *)
Inductive float64 : Type :=
| F64Zero (negative : bool)
| F64Finite (negative : bool) (mantissa exponent : Z)
| F64Inf (negative : bool).

Definition float64_eqb (a b : float64) : bool :=
  match a, b with
  | F64Zero s1, F64Zero s2 => Bool.eqb s1 s2
  | F64Finite s1 m1 e1, F64Finite s2 m2 e2 =>
      Bool.eqb s1 s2 && (m1 =? m2)%Z && (e1 =? e2)%Z
  | F64Inf s1, F64Inf s2 => Bool.eqb s1 s2
  | _, _ => false
  end.

(** [n / d] rounded to the nearest integer, ties to the even one. *)
Definition round_half_even (n d : Z) : Z :=
  let m := (n / d)%Z in
  match (2 * (n mod d) ?= d)%Z with
  | Lt => m
  | Gt => (m + 1)%Z
  | Eq => if Z.even m then m else (m + 1)%Z
  end.

(** The double nearest to a number, ties to the even mantissa, as [float]
    gives it.  For [a / d] with [2 ^ l <= a / d < 2 ^ (l + 1)] the mantissa
    is [a / d / 2 ^ e] rounded, where [e = l - 52], or [-1074] where the
    doubles are subnormal; a mantissa that rounds up to [2 ^ 53] is [2 ^ 52]
    at the next exponent.  Beyond the largest double the result is an
    infinity, below the smallest a zero with the sign of the number. *)
Definition float64_of (q : Q) : float64 :=
  let n := Qnum q in
  let d := Zpos (Qden q) in
  if (n =? 0)%Z then F64Zero (is_neg_zero q)
  else
    let negative := (n <? 0)%Z in
    let a := Z.abs n in
    let l := (Z.log2 a - Z.log2 d)%Z in
    let l := if (a * 2 ^ Z.max 0 (- l) <? d * 2 ^ Z.max 0 l)%Z then (l - 1)%Z else l in
    let e := Z.max (l - 52) (-1074) in
    let m := round_half_even (a * 2 ^ Z.max 0 (- e)) (d * 2 ^ Z.max 0 e) in
    let e := if (m =? 2 ^ 53)%Z then (e + 1)%Z else e in
    let m := if (m =? 2 ^ 53)%Z then (2 ^ 52)%Z else m in
    if (971 <? e)%Z then F64Inf negative
    else if (m =? 0)%Z then F64Zero negative
    else F64Finite negative m e.

(** The rational of a double.  An infinity is kept as [2 ^ 1024], the
    first power of two above every double, with its sign. *)
Definition Q_of_float64 (f : float64) : Q :=
  match f with
  | F64Zero negative => if negative then neg_zero else 0
  | F64Finite negative m e =>
      let m := if negative then (- m)%Z else m in
      Qred (if (0 <=? e)%Z then Qmake (m * 2 ^ e) 1 else Qmake m (Z.to_pos (2 ^ (- e))))
  | F64Inf negative => Qmake (if negative then (- 2 ^ 1024)%Z else (2 ^ 1024)%Z) 1
  end.

(** The value of a decimal literal read as a float: the double nearest to
    it; a literal with a minus sign and the value 0 is [-0.0]. *)
Definition float_value (neg : bool) (int_digits frac_digits : string)
  (exp_neg : bool) (exp_digits : string) : Q :=
  let value := decimal_value neg int_digits frac_digits exp_neg exp_digits in
  Q_of_float64 (float64_of (if neg && Qeq_bool value 0 then neg_zero else value)).

(** The blanks [float] skips at both ends of its argument. *)
Definition is_c_space (c : ascii) : bool := in_range 9 13 c || Ascii.eqb c " ".

(** The literals [float(s)] takes between those blanks:
    [[+-]? (\d+ (\. \d* )? | \. \d+) ([eE] [+-]? \d+)?].
    Digit separators, [inf] and [nan] are outside the embedding. *)
Definition float_re : regex :=
  (RGroup 1 (ROpt (ROneOf "+-")) ;;
   RAlt (RGroup 2 RDigits ;; ROpt (RStr "." ;; RGroup 3 (RStar RDigit)))
        (RStr "." ;; RGroup 3 RDigits) ;;
   ROpt (ROneOf "eE" ;; RGroup 4 (ROpt (ROneOf "+-")) ;; RGroup 5 RDigits))%re.

(** [float(s)] for a string; [None] is [ValueError]. *)
Definition py_float (s : string) : option Q :=
  match re_fullmatch float_re (rstrip_by is_c_space (lstrip_by is_c_space s)) with
  | Some e =>
      Some (float_value (String.eqb (grp 1 e) "-") (grp 2 e) (grp 3 e)
              (String.eqb (grp 4 e) "-") (grp 5 e))
  | None => None
  end.

Definition Qle_b (a b : Q) : bool := Qle_bool a b.
Definition Qlt_b (a b : Q) : bool := negb (Qle_bool b a).
Definition Qabs_ (a : Q) : Q := if Qle_bool 0 a then a else Qopp a.
Definition Qmax_ (a b : Q) : Q := if Qle_bool a b then b else a.

(** [lo <= v <= hi]. *)
Definition between (lo v hi : Q) : bool := Qle_b lo v && Qle_b v hi.

(** *** [str(float(v))]

    [repr] writes two doubles alike only when they are the same double, the
    two zeros as ['0.0'] and ['-0.0'], so the text [str(float(v))] is
    modelled by the double itself. *)

(** [str(float(a)) == str(float(b))] *)
Definition same_float_text (a b : Q) : bool := float64_eqb (float64_of a) (float64_of b).

(** ** Dates: [datetime.strptime(s, '%Y/%m/%d')] *)

Record date : Type := Date { year : nat; month : nat; day : nat }.

Definition is_leap (y : nat) : bool :=
  (y mod 4 =? 0) && (negb (y mod 100 =? 0) || (y mod 400 =? 0)).

Definition days_in_month (y m : nat) : nat :=
  match m with
  | 2 => if is_leap y then 29 else 28
  | 4 | 6 | 9 | 11 => 30
  | _ => 31
  end.

Fixpoint days_before_month (y m : nat) : nat :=
  match m with
  | O => 0
  | S m' => match m' with
            | O => 0
            | _ => days_before_month y m' + days_in_month y m'
            end
  end.

(** [date.toordinal()]. *)
Definition toordinal (d : date) : Z :=
  let y := Z.of_nat (year d - 1) in
  (y * 365 + y / 4 - y / 100 + y / 400
   + Z.of_nat (days_before_month (year d) (month d)) + Z.of_nat (day d))%Z.

Definition date_leb (a b : date) : bool := (toordinal a <=? toordinal b)%Z.

(** The pattern [_strptime] builds for ['%Y/%m/%d']:
    [(?P<Y>\d\d\d\d)/(?P<m>1[0-2]|0[1-9]|[1-9])/(?P<d>3[0-1]|[1-2]\d|0[1-9]|[1-9]| [1-9])]. *)
Definition strptime_re : regex :=
  (RGroup 1 (RRep 4 RDigit) ;; RStr "/" ;;
   RGroup 2 (RAlt (RStr "1" ;; RCls (in_range 48 50))
            (RAlt (RStr "0" ;; RCls (in_range 49 57))
                  (RCls (in_range 49 57)))) ;;
   RStr "/" ;;
   RGroup 3 (RAlt (RStr "3" ;; RCls (in_range 48 49))
            (RAlt (RCls (in_range 49 50) ;; RDigit)
            (RAlt (RStr "0" ;; RCls (in_range 49 57))
            (RAlt (RCls (in_range 49 57))
                  (RStr " " ;; RCls (in_range 49 57)))))))%re.

(** [datetime.strptime(s, '%Y/%m/%d')]; [None] is [ValueError]: no match,
    unconverted data after the match, or a day the month does not have. *)
Definition strptime (s : string) : option date :=
  match re_match strptime_re s with
  | Some e =>
      match m_rest e with
      | EmptyString =>
          let y := N.to_nat (int_of_digits (grp 1 e)) in
          let m := N.to_nat (int_of_digits (grp 2 e)) in
          let d := N.to_nat (int_of_digits (strip (grp 3 e))) in
          if (1 <=? y) && (d <=? days_in_month y m) then Some (Date y m d) else None
      | _ => None
      end
  | None => None
  end.

(** ** JSON values and [json.loads] *)

#[warnings="-register-all"]
Inductive json : Type :=
| JNull
| JBool (b : bool)
| JNum (q : Q)
| JStr (s : string)
| JArr (l : list json)
| JObj (kv : list (string * json)).

Definition dict := list (string * json).

(** [d[k]] ([None] is [KeyError]) and [k in d]. *)
Fixpoint dict_get (d : dict) (k : string) : option json :=
  match d with
  | [] => None
  | (k', v) :: d' => if String.eqb k k' then Some v else dict_get d' k
  end.

Definition dict_has (d : dict) (k : string) : bool :=
  match dict_get d k with Some _ => true | None => false end.

(** [d[k] = v]: an existing key keeps its place. *)
Fixpoint dict_set (d : dict) (k : string) (v : json) : dict :=
  match d with
  | [] => [(k, v)]
  | (k', v') :: d' =>
      if String.eqb k k' then (k', v) :: d' else (k', v') :: dict_set d' k v
  end.

Definition is_json_ws (c : ascii) : bool := char_in c (String " " (String "009" (String "010" (String "013" EmptyString)))).

Definition skip_ws (s : string) : string := lstrip_by is_json_ws s.

Definition hex_value (c : ascii) : option nat :=
  if is_digit c then Some (nat_of_ascii c - 48)
  else if in_range 97 102 c then Some (nat_of_ascii c - 87)
  else if in_range 65 70 c then Some (nat_of_ascii c - 55)
  else None.

(** The body of a string literal, after its opening quote (strict mode):
    the decoded text and what follows the closing quote.  An escape
    [\uXXXX] above 127 is outside the ASCII embedding and reads as [?]. *)
Fixpoint scanstring (s : string) (acc : string) : option (string * string) :=
  match s with
  | EmptyString => None
  | String c s1 =>
      if Ascii.eqb c dquote then Some (str_rev acc, s1)
      else if Ascii.eqb c "\" then
        match s1 with
        | String e s2 =>
            if Ascii.eqb e "u" then
              match s2 with
              | String h1 (String h2 (String h3 (String h4 s3))) =>
                  match hex_value h1, hex_value h2, hex_value h3, hex_value h4 with
                  | Some a, Some b, Some c', Some d =>
                      let code := ((a * 16 + b) * 16 + c') * 16 + d in
                      scanstring s3
                        (String (if code <? 128 then ascii_of_nat code else "?"%char) acc)
                  | _, _, _, _ => None
                  end
              | _ => None
              end
            else
              let out (x : ascii) := scanstring s2 (String x acc) in
              if Ascii.eqb e dquote then out dquote
              else if Ascii.eqb e "\" then out "\"%char
              else if Ascii.eqb e "/" then out "/"%char
              else if Ascii.eqb e "b" then out "008"%char
              else if Ascii.eqb e "f" then out "012"%char
              else if Ascii.eqb e "n" then out "010"%char
              else if Ascii.eqb e "r" then out "013"%char
              else if Ascii.eqb e "t" then out "009"%char
              else None
        | EmptyString => None
        end
      else if nat_of_ascii c <? 32 then None
      else scanstring s1 (String c acc)
  end.

(** [NUMBER_RE = (-?(?:0|[1-9]\d* ))(\.\d+)?([eE][-+]?\d+)?]. *)
Definition number_re : regex :=
  (RGroup 1 (ROpt (RStr "-")) ;;
   RGroup 2 (RAlt (RStr "0") (RCls (in_range 49 57) ;; RStar RDigit)) ;;
   ROpt (RStr "." ;; RGroup 3 RDigits) ;;
   ROpt (ROneOf "eE" ;; RGroup 4 (ROpt (ROneOf "-+")) ;; RGroup 5 RDigits))%re.

(** A literal without fraction and exponent is an [int], any other a
    [float]. *)
Definition scan_number (s : string) : option (json * string) :=
  match re_match number_re s with
  | Some e =>
      let value :=
        if String.eqb (grp 3 e) EmptyString && String.eqb (grp 5 e) EmptyString
        then decimal_value
        else float_value in
      Some (JNum (value (String.eqb (grp 1 e) "-") (grp 2 e) (grp 3 e)
                    (String.eqb (grp 4 e) "-") (grp 5 e)),
            m_rest e)
  | None => None
  end.

Definition scan_literal (s : string) : option (json * string) :=
  if String.prefix "null" s then Some (JNull, substring 4 (String.length s) s)
  else if String.prefix "true" s then Some (JBool true, substring 4 (String.length s) s)
  else if String.prefix "false" s then Some (JBool false, substring 5 (String.length s) s)
  else scan_number s.

(** [scan_once], [JSONArray] and [JSONObject] of [json.scanner] and
    [json.decoder].  The constants [NaN] and [Infinity], and the
    interpreter's recursion limit, are outside the embedding. *)
Fixpoint scan_once (fuel : nat) (s : string) : option (json * string) :=
  match fuel with
  | O => None
  | S f =>
      match s with
      | String c s1 =>
          if Ascii.eqb c dquote then
            match scanstring s1 EmptyString with
            | Some (str, rest) => Some (JStr str, rest)
            | None => None
            end
          else if Ascii.eqb c "{" then
            match skip_ws s1 with
            | String d s2 =>
                if Ascii.eqb d "}" then Some (JObj [], s2)
                else if Ascii.eqb d dquote then scan_members f [] s2
                else None
            | EmptyString => None
            end
          else if Ascii.eqb c "[" then
            match skip_ws s1 with
            | String d s2 =>
                if Ascii.eqb d "]" then Some (JArr [], s2)
                else scan_items f [] (String d s2)
            | EmptyString => None
            end
          else scan_literal s
      | EmptyString => None
      end
  end
with scan_items (fuel : nat) (acc : list json) (s : string) : option (json * string) :=
  match fuel with
  | O => None
  | S f =>
      match scan_once f s with
      | Some (v, s1) =>
          match skip_ws s1 with
          | String d s2 =>
              if Ascii.eqb d "]" then Some (JArr (rev (v :: acc)), s2)
              else if Ascii.eqb d "," then scan_items f (v :: acc) (skip_ws s2)
              else None
          | EmptyString => None
          end
      | None => None
      end
  end
with scan_members (fuel : nat) (acc : dict) (s : string) : option (json * string) :=
  match fuel with
  | O => None
  | S f =>
      match scanstring s EmptyString with
      | Some (key, s1) =>
          match skip_ws s1 with
          | String d s2 =>
              if Ascii.eqb d ":" then
                match scan_once f (skip_ws s2) with
                | Some (v, s3) =>
                    match skip_ws s3 with
                    | String d' s4 =>
                        if Ascii.eqb d' "}" then Some (JObj (dict_set acc key v), s4)
                        else if Ascii.eqb d' "," then
                          match skip_ws s4 with
                          | String q s5 =>
                              if Ascii.eqb q dquote then scan_members f (dict_set acc key v) s5
                              else None
                          | EmptyString => None
                          end
                        else None
                    | EmptyString => None
                    end
                | None => None
                end
              else None
          | EmptyString => None
          end
      | None => None
      end
  end.

(** [json.loads(s)]; [None] is [JSONDecodeError]. *)
Definition json_loads (s : string) : option json :=
  match scan_once (2 * String.length s + 2) (skip_ws s) with
  | Some (v, rest) =>
      match skip_ws rest with
      | EmptyString => Some v
      | _ => None
      end
  | None => None
  end.

(** ** Python operations on JSON values *)

(** [float(v)]: a string is parsed, a number is itself, a bool is 0 or 1;
    [None] is [ValueError] or [TypeError]. *)
Definition float_of (v : json) : option Q :=
  match v with
  | JStr s => py_float s
  | JNum q => Some q
  | JBool b => Some (if b then 1%Q else 0%Q)
  | _ => None
  end.

(** [float(str(v).replace('$', '').replace(',', ''))]: the [str] of a number
    reads back as that number; the [str] of [None], of a bool, of a list or
    of a dict is no float literal. *)
Definition float_of_cleaned (v : json) : option Q :=
  match v with
  | JStr s => py_float (str_replace (str_replace s "$" EmptyString) "," EmptyString)
  | JNum q => Some q
  | _ => None
  end.

(** [a == b]. *)
Fixpoint json_eqb (a b : json) {struct a} : bool :=
  match a, b with
  | JNull, JNull => true
  | JBool x, JBool y => Bool.eqb x y
  | JNum x, JNum y => Qeq_bool x y
  | JBool x, JNum y => Qeq_bool (if x then 1%Q else 0%Q) y
  | JNum x, JBool y => Qeq_bool x (if y then 1%Q else 0%Q)
  | JStr x, JStr y => String.eqb x y
  | JArr x, JArr y =>
      (fix go (x : list json) (y : list json) {struct x} : bool :=
         match x, y with
         | [], [] => true
         | u :: x', v :: y' => json_eqb u v && go x' y'
         | _, _ => false
         end) x y
  | JObj x, JObj y =>
      (List.length x =? List.length y) &&
      (fix go (x : dict) {struct x} : bool :=
         match x with
         | [] => true
         | (k, u) :: x' =>
             match dict_get y k with
             | Some v => json_eqb u v && go x'
             | None => false
             end
         end) x
  | _, _ => false
  end.

(** Whether [hash(v)] is defined: lists and dicts are unhashable. *)
Definition hashable (v : json) : bool :=
  match v with
  | JArr _ | JObj _ => false
  | _ => true
  end.

(** [s in v] for a string [s]; [None] is [TypeError]. *)
Definition contains (v : json) (s : string) : option bool :=
  match v with
  | JStr t => Some (str_in s t)
  | JArr l => Some (existsb (json_eqb (JStr s)) l)
  | JObj d => Some (dict_has d s)
  | _ => None
  end.

(** ** The market data handed to the validators *)

(** One entry of [crypto_data]: [data['name']] and [float(data['price'])]. *)
Record crypto_entry : Type := Crypto { c_name : string; c_price : Q }.

(** [crypto_data], in the order of [crypto_data.items()]; the empty list
    also stands for [None]. *)
Definition crypto := list (string * crypto_entry).

Definition min_price (data : crypto_entry) : Q := (c_price data * 0.5)%Q.
Definition max_price (data : crypto_entry) : Q := (c_price data * 2.0)%Q.

(** ** [validate_single_question] *)

Definition required_fields : list string :=
  ["question"; "timeframe"; "category"; "metric"; "target_value"].

Definition valid_categories : list string :=
  ["economic_indicator"; "social_events"; "cryptocurrency"; "financial_market"].

Definition min_date : date := Date 2024 12 1.
Definition max_date : date := Date 2025 6 30.

(** [Apple(?:\'s)?(?: Inc\.?)?(?: stock)?(?: price)?] *)
Definition apple_re : regex :=
  (RStr "Apple" ;; ROpt (RStr "'s") ;; ROpt (RStr " Inc" ;; ROpt (RStr ".")) ;;
   ROpt (RStr " stock") ;; ROpt (RStr " price"))%re.

(** [Microsoft(?:\'s)?(?: Corp\.?)?(?: stock)?(?: price)?] *)
Definition microsoft_re : regex :=
  (RStr "Microsoft" ;; ROpt (RStr "'s") ;; ROpt (RStr " Corp" ;; ROpt (RStr ".")) ;;
   ROpt (RStr " stock") ;; ROpt (RStr " price"))%re.

(** [f"{data['name']}(?:\'s)?(?: price)?"].  The name is read as literal
    text: the embedding covers asset names and symbols without
    regular-expression metacharacters or backslashes (Bitcoin, BTC, ...),
    for which the pattern and the replacement are what they spell. *)
Definition name_re (name : string) : regex :=
  (RStr name ;; ROpt (RStr "'s") ;; ROpt (RStr " price"))%re.

(** The loop that rewrites every asset name to ["Name (SYMBOL)"]. *)
Definition normalize_crypto_names (crypto_data : crypto) (text : string) : string :=
  fold_left
    (fun t (item : string * crypto_entry) =>
       let (symbol, data) := item in
       re_sub (name_re (c_name data)) (fun _ => c_name data +++ " (" +++ symbol +++ ")") t)
    crypto_data text.

Definition normalize_names (crypto_data : crypto) (text : string) : string :=
  let text := re_sub apple_re (fun _ => "Apple (AAPL.US)") text in
  let text := re_sub microsoft_re (fun _ => "Microsoft (MSFT.US)") text in
  match crypto_data with
  | [] => text
  | _ => normalize_crypto_names crypto_data text
  end.

Definition is_valid_category (v : json) : bool :=
  match v with
  | JStr c => existsb (String.eqb c) valid_categories
  | _ => false
  end.

(** The date check: [strptime] succeeds and
    [min_date <= date <= max_date]. *)
Definition timeframe_ok (v : json) : bool :=
  match v with
  | JStr tf =>
      match strptime tf with
      | Some d => date_leb min_date d && date_leb d max_date
      | None => false
      end
  | _ => false
  end.

(** The range check on every symbol the question text contains. *)
Definition crypto_range_ok (crypto_data : crypto) (text : string) (value : Q) : bool :=
  forallb
    (fun item : string * crypto_entry =>
       let (symbol, data) := item in
       if str_in symbol text
       then between (min_price data) value (max_price data)
       else true)
    crypto_data.

(** The checks that follow [question['target_value'] = value]; a metric of
    an economic indicator that is no string raises inside the outer [try]. *)
Definition target_value_ok (crypto_data : crypto) (category : string)
  (metric : json) (text : string) (value : Q) : bool :=
  if String.eqb category "cryptocurrency" && negb (Nat.eqb (List.length crypto_data) 0) then
    crypto_range_ok crypto_data text value
  else if String.eqb category "social_events" then
    between 50 value 500
  else if String.eqb category "economic_indicator" then
    match metric with
    | JStr m =>
        if str_in "gdp" (lower m) then between 20000 value 50000
        else if str_in "unemployment" (lower m) then between 2 value 15
        else true
    | _ => false
    end
  else true.

Definition country_ok (countries : list string) (category : string) (text : string) : bool :=
  if String.eqb category "social_events" && negb (Nat.eqb (List.length countries) 0) then
    existsb (fun country => str_in country (upper text)) countries
  else true.

(** [validate_single_question(question, crypto_data, countries)]: the
    boolean it returns and the object [question] as the call leaves it.  Every
    exception is caught by the outer [try] and gives [False]. *)
Definition validate_single_question (question : json) (crypto_data : crypto)
  (countries : list string) : bool * json :=
  match question with
  | JObj q =>
      if negb (forallb (dict_has q) required_fields) then (false, question) else
      match dict_get q "question" with
      | Some (JStr text0) =>
          let text := normalize_names crypto_data text0 in
          let q1 := dict_set q "question" (JStr text) in
          match dict_get q1 "category", dict_get q1 "timeframe",
                dict_get q1 "target_value", dict_get q1 "metric" with
          | Some category, Some timeframe, Some target, Some metric =>
              if negb (is_valid_category category) then (false, JObj q1) else
              if negb (timeframe_ok timeframe) then (false, JObj q1) else
              match float_of_cleaned target with
              | None => (false, JObj q1)
              | Some value =>
                  let q2 := dict_set q1 "target_value" (JNum value) in
                  let cat := match category with JStr c => c | _ => EmptyString end in
                  if negb (target_value_ok crypto_data cat metric text value)
                  then (false, JObj q2)
                  else if negb (country_ok countries cat text) then (false, JObj q2)
                  else (true, JObj q2)
              end
          | _, _, _, _ => (false, JObj q1)
          end
      | _ => (false, question)
      end
  | _ => (false, question)
  end.

(** ** [validate_question_for_pool] *)

(** [valid_ranges], in the order the dict is written. *)
Definition valid_ranges : list (string * (Q * Q)) :=
  [("gdp", (20000, 50000)); ("unemployment_rate", (2, 15));
   ("inflation_rate", (-2, 15)); ("cpi", (200, 400));
   ("treasury_rate", (-5, 10)); ("industrial_production", (80, 120))]%Q.

Fixpoint economic_ok (ranges : list (string * (Q * Q))) (metric : string) (value : Q) : bool :=
  match ranges with
  | [] => true
  | (key, (min_val, max_val)) :: ranges' =>
      if str_in key metric then between min_val value max_val
      else economic_ok ranges' metric value
  end.

(** The loop over [crypto_data.items()]: the first entry whose symbol or
    name the question contains decides; [None] is the [TypeError] of [in]. *)
Fixpoint crypto_ok (crypto_data : crypto) (text : json) (value : Q) : option bool :=
  match crypto_data with
  | [] => Some false
  | (symbol, data) :: rest =>
      match contains text symbol with
      | None => None
      | Some true => Some (between (min_price data) value (max_price data))
      | Some false =>
          match contains text (c_name data) with
          | None => None
          | Some true => Some (between (min_price data) value (max_price data))
          | Some false => crypto_ok rest text value
          end
      end
  end.

Definition financial_ok (metric : string) (value : Q) : bool :=
  if str_in "price" metric then negb (Qle_b value 0)
  else if str_in "volume" metric then negb (Qlt_b value 1000)
  else if str_in "market_cap" metric then negb (Qlt_b value 1000000)
  else true.

(** [float(question['target_value'][0])] for a list, [float(...)] otherwise. *)
Definition pool_value (target : json) : option Q :=
  match target with
  | JArr [] => None
  | JArr (first :: _) => float_of first
  | _ => float_of target
  end.

(** [validate_question_for_pool(question, used_questions, crypto_data)];
    every exception gives [False]. *)
Definition validate_question_for_pool (question : json) (used_questions : list json)
  (crypto_data : crypto) : bool :=
  match question with
  | JObj q =>
      match dict_get q "question", dict_get q "timeframe", dict_get q "category",
            dict_get q "metric", dict_get q "target_value" with
      | Some text, Some timeframe, Some category, Some metric, Some target =>
          if negb (hashable text) then false else
          if existsb (json_eqb text) used_questions then false else
          if negb (timeframe_ok timeframe) then false else
          match metric with
          | JStr m =>
              let metric := lower m in
              match pool_value target with
              | None => false
              | Some value =>
                  if json_eqb category (JStr "economic_indicator") then
                    economic_ok valid_ranges metric value
                  else if json_eqb category (JStr "cryptocurrency") then
                    match crypto_ok crypto_data text value with
                    | Some b => b
                    | None => false
                    end
                  else if json_eqb category (JStr "social_events") then
                    between 50 value 500
                  else if json_eqb category (JStr "financial_market") then
                    financial_ok metric value
                  else true
              end
          | _ => false
          end
      | _, _, _, _, _ => false
      end
  | _ => false
  end.

(** ** The output repairer: [clean_json_content] *)

Definition quote : string := String dquote EmptyString.
Definition backslash : string := String "\" EmptyString.
Definition newline : string := String "010" EmptyString.

(** A constant replacement. *)
Definition const (s : string) : mstate -> string := fun _ => s.

(** [",\s*"] and [":\s*"] *)
Definition field_gap_re : regex := (RStr quote ;; RStr "," ;; RSpaces ;; RStr quote)%re.
Definition colon_gap_re : regex := (RStr quote ;; RStr ":" ;; RSpaces ;; RStr quote)%re.

Definition fix_spacing (content : string) : string :=
  let content := re_sub field_gap_re (const (quote +++ ", " +++ quote)) content in
  re_sub colon_gap_re (const (quote +++ ": " +++ quote)) content.

Definition remove_unwanted (content : string) : string :=
  let content := str_replace content "$" EmptyString in
  let content := str_replace content "[increase/decrease]" "increase" in
  let content := str_replace content "YoY" EmptyString in
  let content := str_replace content "%" EmptyString in
  let content := str_replace content "Trillion" "000000000000" in
  let content := str_replace content "Billion" "000000000" in
  str_replace content "Million" "000000".

(** [(\d+)/\d+/\d+(?=Q)], where [Q] is the double quote *)
Definition slashed_re : regex :=
  (RGroup 1 RDigits ;; RStr "/" ;; RDigits ;; RStr "/" ;; RDigits ;; RAhead (RStr quote))%re.

(** [(\d+)k\b] and its siblings; the match becomes
    [str(int(m.group(1)) * factor)]. *)
Definition suffix_re (suffix : string) : regex :=
  (RGroup 1 RDigits ;; RStr suffix ;; RWordB)%re.

Definition scale (factor : N) : mstate -> string :=
  fun m => str_of_int (int_of_digits (grp 1 m) * factor).

Definition fix_numeric (content : string) : string :=
  let content := re_sub slashed_re (grp 1) content in
  let content := re_sub (suffix_re "k") (scale 1000) content in
  let content := re_sub (suffix_re "m") (scale 1000000) content in
  let content := re_sub (suffix_re "b") (scale 1000000000) content in
  re_sub (suffix_re "t") (scale 1000000000000) content.

(** ["target_value":] followed by [\s*] *)
Definition key_re (name : string) : regex :=
  (RStr (quote +++ name +++ quote +++ ":") ;; RSpaces)%re.

(** [\d+\.?\d*] *)
Definition decimal_re : regex := (RDigits ;; ROpt (RStr ".") ;; RStar RDigit)%re.

(** ["target_value":\s*"[\$,]*(\d+\.?\d* )"] *)
Definition quoted_target_re : regex :=
  (key_re "target_value" ;; RStr quote ;; RStar (ROneOf "$,") ;;
   RGroup 1 decimal_re ;; RStr quote)%re.

(** ["target_value":\s*\[\s*(\d+\.?\d* )[^\]]*\]] *)
Definition range_target_re : regex :=
  (key_re "target_value" ;; RStr "[" ;; RSpaces ;; RGroup 1 decimal_re ;;
   RStar (RNot "]") ;; RStr "]")%re.

(** ["target_value":\s*\[[^\]]*\]] *)
Definition list_target_re : regex :=
  (key_re "target_value" ;; RStr "[" ;; RStar (RNot "]") ;; RStr "]")%re.

Definition fix_target_values (content : string) : string :=
  if str_in (quote +++ "target_value" +++ quote +++ ":") content then
    let content :=
      re_sub quoted_target_re
        (fun m => quote +++ "target_value" +++ quote +++ ": " +++ grp 1 m) content in
    if str_in "[" content then
      match re_search range_target_re content with
      | Some m =>
          re_sub list_target_re
            (const (quote +++ "target_value" +++ quote +++ ": " +++ grp 1 m)) content
      | None => content
      end
    else content
  else content.

(** A quoted field whose value matches [body]: ["name":\s*"body"]. *)
Definition field_re (name : string) (body : regex) : regex :=
  (key_re name ;; RStr quote ;; body ;; RStr quote)%re.

(** The text ["name": "value"]. *)
Definition field (name value : string) : string :=
  quote +++ name +++ quote +++ ": " +++ quote +++ value +++ quote.

Definition unquoted : regex := RStar (RNot quote).

(** [by (\d{4}/\d{2}/\d{2})] *)
Definition by_date_re : regex :=
  (RStr "by " ;;
   RGroup 1 (RRep 4 RDigit ;; RStr "/" ;; RRep 2 RDigit ;; RStr "/" ;; RRep 2 RDigit))%re.

(** The substitutions of the [else] branch of the date fix-up. *)
Definition default_dates (content : string) : string :=
  let content := str_replace content "YYYY/MM/DD" "2025/04/01" in
  (* "timeframe":\s*"[^"]*to[^"]*" *)
  let content :=
    re_sub (field_re "timeframe" (unquoted ;; RStr "to" ;; unquoted))
      (const (field "timeframe" "2025/04/01")) content in
  (* "timeframe":\s*"[^"]*by ([^"]+)\s*\d{4}" *)
  let content :=
    re_sub (field_re "timeframe"
              (unquoted ;; RStr "by " ;; RGroup 1 (RPlus (RNot quote)) ;; RSpaces ;;
               RRep 4 RDigit))
      (const (field "timeframe" "2025/04/01")) content in
  (* "timeframe":\s*"(\d{4})/(\d{2})/(\d{2})" *)
  let content :=
    re_sub (field_re "timeframe"
              (RGroup 1 (RRep 4 RDigit) ;; RStr "/" ;; RGroup 2 (RRep 2 RDigit) ;;
               RStr "/" ;; RGroup 3 (RRep 2 RDigit)))
      (fun m => field "timeframe" (grp 1 m +++ "/" +++ grp 2 m +++ "/" +++ grp 3 m))
      content in
  (* "timeframe":\s*"(\d{4})" *)
  let content :=
    re_sub (field_re "timeframe" (RGroup 1 (RRep 4 RDigit)))
      (fun m => field "timeframe" (grp 1 m +++ "/04/01")) content in
  (* "timeframe":\s*"(\d{4})/(\d{2})" *)
  let content :=
    re_sub (field_re "timeframe"
              (RGroup 1 (RRep 4 RDigit) ;; RStr "/" ;; RGroup 2 (RRep 2 RDigit)))
      (fun m => field "timeframe" (grp 1 m +++ "/" +++ grp 2 m +++ "/01")) content in
  (* (\d{4})(\d{2})(\d{2}) *)
  re_sub (RGroup 1 (RRep 4 RDigit) ;; RGroup 2 (RRep 2 RDigit) ;; RGroup 3 (RRep 2 RDigit))
    (fun m => grp 1 m +++ "/" +++ grp 2 m +++ "/" +++ grp 3 m) content.

Definition fix_dates (content : string) : string :=
  if str_in "timeframe" content then
    match re_search by_date_re content with
    | Some date_match =>
        (* "timeframe":\s*"[^Q]*" where Q is the double quote *)
        re_sub (field_re "timeframe" unquoted)
          (const (field "timeframe" (grp 1 date_match))) content
    | None => default_dates content
    end
  else content.

Definition category_field (category : string) : string := field "category" category.

(** ["metric":\s*"[^"]*word[^"]*"] rewritten to ["metric": "metric"]. *)
Definition metric_sub (word metric : string) (content : string) : string :=
  re_sub (field_re "metric" (unquoted ;; RStr word ;; unquoted))
    (const (field "metric" metric)) content.

(** ["metric":\s*"old"] rewritten to ["metric": "new"]. *)
Definition metric_rename (old new : string) (content : string) : string :=
  re_sub (field_re "metric" (RStr old)) (const (field "metric" new)) content.

(** [Will the [^Q]+ Treasury [^Q]+ by ([^Q]+)], where [Q] is the double
    quote *)
Definition treasury_question_re : regex :=
  (RStr "Will the " ;; RPlus (RNot quote) ;; RStr " Treasury " ;; RPlus (RNot quote) ;;
   RStr " by " ;; RGroup 1 (RPlus (RNot quote)))%re.

Definition fix_metrics (content : string) : string :=
  let content :=
    if str_in (category_field "financial_market") content then
      let content := metric_rename "24h_change" "price_target" content in
      let content := metric_rename "volume_24h" "volume_target" content in
      metric_rename "market_cap_24h" "market_cap_target" content
    else content in
  if str_in (category_field "economic_indicator") content then
    let content :=
      if str_in "Treasury" content then
        let content := metric_sub "Treasury" "treasury_rate" content in
        re_sub treasury_question_re (fun m => "Will Treasury rate reach " +++ grp 1 m) content
      else content in
    let content := metric_sub "Consumer Price Index" "cpi" content in
    let content := metric_sub "Industrial Production" "industrial_production" content in
    let content := metric_sub "GDP" "gdp" content in
    let content := metric_sub "Unemployment" "unemployment_rate" content in
    let content := metric_sub "Inflation" "inflation_rate" content in
    let content := metric_sub "yield" "treasury_rate" content in
    let content := metric_sub "interest" "interest_rate" content in
    metric_sub "Percent" "treasury_rate" content
  else content.

(** One branch of the measurement-source fix-up: force the canonical
    source, or add the field when it is absent. *)
Definition force_source (source : string) (content : string) : string :=
  let content :=
    re_sub (field_re "measurement_source" unquoted)
      (const (field "measurement_source" source)) content in
  if negb (str_in (quote +++ "measurement_source" +++ quote) content)
  then rstrip content "}" +++ ", " +++ field "measurement_source" source +++ "}"
  else content.

Definition fix_measurement_source (content : string) : string :=
  if str_in (category_field "cryptocurrency") content then
    force_source "CoinMarketCap" content
  else if str_in (category_field "economic_indicator") content then
    force_source "FRED database" content
  else if str_in (category_field "social_events") content then
    force_source "ACLED database" content
  else if str_in (category_field "financial_market") content then
    force_source "EOD Historical Data" content
  else content.

(** [:\s*([^Q,\{\}\[\]\s][^Q,\{\}\[\]]*[^Q,\{\}\[\]\s])\s*([,}])], where [Q] is
    the double quote *)
Definition bare_value_re : regex :=
  let structural := quote +++ ",{}[]" in
  let inner := RCls (fun c => negb (char_in c structural)) in
  let edge := RCls (fun c => negb (char_in c structural || is_space c)) in
  (RStr ":" ;; RSpaces ;; RGroup 1 (edge ;; RStar inner ;; edge) ;; RSpaces ;;
   RGroup 2 (ROneOf ",}"))%re.

Definition quote_bare_values (content : string) : string :=
  re_sub bare_value_re
    (fun m => ": " +++ quote +++ grp 1 m +++ quote +++ grp 2 m) content.

Definition fix_truncated (content : string) : string :=
  let content := if negb (endswith content "}") then content +++ "}" else content in
  if count_char "}" content <? count_char "{" content then content +++ "}" else content.

(** [,\s*}] and [\s+] *)
Definition final_cleanup (content : string) : string :=
  let content := re_sub (RStr "," ;; RSpaces ;; RStr "}") (const "}") content in
  re_sub (RPlus (RCls is_space)) (const " ") content.

Definition wrap_in_array (content : string) : string :=
  if startswith content "{" then "[" +++ content +++ "]" else content.

(** The substitutions tried when the text does not parse:
    [([^Q]),\s*([^Q\d{[])], [([^Q}]),\s*}], [Q,\s*Q] and [Q:\s*Q], where [Q]
    is the double quote. *)
Definition aggressive_cleanup (content : string) : string :=
  let content :=
    re_sub (RGroup 1 (RNot quote) ;; RStr "," ;; RSpaces ;;
            RGroup 2 (RCls (fun c => negb (char_in c (quote +++ "{[") || is_digit c))))
      (fun m => grp 1 m +++ ", " +++ quote +++ grp 2 m) content in
  let content :=
    re_sub (RGroup 1 (RNot (quote +++ "}")) ;; RStr "," ;; RSpaces ;; RStr "}")
      (fun m => grp 1 m +++ "}") content in
  fix_spacing content.

(** [clean_json_content(content)].  No step of the body raises on a string
    (the interpreter's limit on the digits of [int(...)] apart), so the
    [except] clause that answers ['[]'] has no counterpart here. *)
Definition clean_json_content (content : string) : string :=
  let start := str_find content "{" in
  let end_ := (str_rfind content "}" + 1)%Z in
  if (start =? -1)%Z || (end_ =? 0)%Z then "[]" else
  let content := slice content start end_ in
  let content := str_replace content newline " " in
  let content := str_replace content (backslash +++ quote) quote in
  let content := str_replace content (backslash +++ backslash) backslash in
  let content := fix_spacing content in
  let content := remove_unwanted content in
  let content := fix_numeric content in
  let content := fix_target_values content in
  let content := fix_dates content in
  let content := fix_metrics content in
  let content := fix_measurement_source content in
  let content := quote_bare_values content in
  let content := fix_truncated content in
  let content := final_cleanup content in
  let content := wrap_in_array content in
  match json_loads content with
  | Some _ => content
  | None => aggressive_cleanup content
  end.

(** ** [repair_json] *)

Fixpoint str_fold {A : Type} (f : A -> ascii -> A) (s : string) (a : A) : A :=
  match s with
  | EmptyString => a
  | String c s' => str_fold f s' (f a c)
  end.

Fixpoint join (sep : string) (l : list string) : string :=
  match l with
  | [] => EmptyString
  | [x] => x
  | x :: l' => x +++ sep +++ join sep l'
  end.

(** The state of the scan: [objects], [current] and [brace_count]. *)
Record scan_state : Type := Scan {
  objects : list string;
  current : string;
  brace_count : Z }.

Definition open_source : string := quote +++ "measurement_source" +++ quote +++ ": " +++ quote.

(** The branch commented "Fix measurement source if truncated". *)
Definition fix_truncated_source (current : string) : string :=
  if str_in open_source current && negb (endswith current (quote +++ "}")) then
    if str_in "financial_market" current then
      str_replace current open_source (open_source +++ "EOD Historical Data" +++ quote +++ "}")
    else if str_in "cryptocurrency" current then
      str_replace current open_source (open_source +++ "CoinMarketCap" +++ quote +++ "}")
    else if str_in "social_events" current then
      str_replace current open_source (open_source +++ "ACLED database" +++ quote +++ "}")
    else if str_in "economic_indicator" current then
      str_replace current open_source (open_source +++ "FRED database" +++ quote +++ "}")
    else current
  else current.

(** The body of [for char in content]. *)
Definition scan_char (st : scan_state) (char : ascii) : scan_state :=
  let brace_count :=
    if Ascii.eqb char "{" then (brace_count st + 1)%Z
    else if Ascii.eqb char "}" then (brace_count st - 1)%Z
    else brace_count st in
  let current := current st +++ String char EmptyString in
  if (brace_count =? 0)%Z && negb (String.eqb (strip current) EmptyString) then
    if startswith current "{" && endswith current "}" then
      let current := fix_truncated_source current in
      match json_loads current with
      | Some _ => Scan (objects st ++ [current]) EmptyString brace_count
      | None => Scan (objects st) EmptyString brace_count
      end
    else Scan (objects st) EmptyString brace_count
  else Scan (objects st) current brace_count.

(** [[^\[\]{}Q,:.\d\w\s-]], where [Q] is the double quote *)
Definition stray_re : regex :=
  RCls (fun c => negb (char_in c ("[]{}" +++ quote +++ ",:.-") || is_digit c
                       || is_word c || is_space c)).

(** [repair_json(content)]: the parsed list, or [None]. *)
Definition repair_json (content : string) : option json :=
  let content := strip content in
  if String.eqb content EmptyString then None else
  let st := str_fold scan_char content (Scan [] EmptyString 0%Z) in
  match objects st with
  | [] => None
  | objs =>
      let content := "[" +++ join "," objs +++ "]" in
      match json_loads content with
      | Some v => Some v
      | None => json_loads (re_sub stray_re (const EmptyString) content)
      end
  end.

(** ** Results of code that may raise or loop *)

Inductive outcome (A : Type) : Type :=
| Returns (a : A)
| Raises
| OutOfFuel.

Arguments Returns {A} a.
Arguments Raises {A}.
Arguments OutOfFuel {A}.

Definition bind {A B : Type} (c : outcome A) (k : A -> outcome B) : outcome B :=
  match c with
  | Returns a => k a
  | Raises => Raises
  | OutOfFuel => OutOfFuel
  end.

Notation "'let*' x ':=' c 'in' k" := (bind c (fun x => k))
  (at level 10, x pattern, c at level 100, k at level 200).

(** An operation that raises when its result is [None]. *)
Definition try_ {A : Type} (o : option A) : outcome A :=
  match o with
  | Some a => Returns a
  | None => Raises
  end.

(** [q[k]] on any value: [KeyError] on a dict without [k], [TypeError] on
    what is no dict. *)
Definition item (q : json) (k : string) : outcome json :=
  match q with
  | JObj d => try_ (dict_get d k)
  | _ => Raises
  end.

Definition as_str (v : json) : outcome string :=
  match v with
  | JStr s => Returns s
  | _ => Raises
  end.

(** ** [calculate_question_diversity] *)

(** [\b[A-Z]{2,}\b] *)
Definition entity_re : regex :=
  (RWordB ;; RRep 2 (RCls is_upper) ;; RStar (RCls is_upper) ;; RWordB)%re.

Fixpoint dedup (l : list string) : list string :=
  match l with
  | [] => []
  | x :: l' => x :: filter (fun y => negb (String.eqb x y)) (dedup l')
  end.

(** [set(re.findall(...))].  CPython iterates a set of strings in hash
    order; the embedding keeps the order of first occurrence. *)
Definition entities (text : string) : list string := dedup (re_findall entity_re text).

Definition disjoint (a b : list string) : bool :=
  forallb (fun x => negb (existsb (String.eqb x) b)) a.

(** [next((c for c in entities if len(c) == 3), '')] *)
Definition first_country (ents : list string) : string :=
  match filter (fun c => String.length c =? 3) ents with
  | c :: _ => c
  | [] => EmptyString
  end.

(** The date term; [ValueError] is caught and skips the block, a missing
    key or a timeframe that is no string raises. *)
Definition timeframe_score (q1 q2 : json) : outcome nat :=
  let* t1 := item q1 "timeframe" in
  let* s1 := as_str t1 in
  match strptime s1 with
  | None => Returns 0
  | Some date1 =>
      let* t2 := item q2 "timeframe" in
      let* s2 := as_str t2 in
      match strptime s2 with
      | None => Returns 0
      | Some date2 =>
          Returns (if (30 <? Z.abs (toordinal date1 - toordinal date2))%Z then 1 else 0)
      end
  end.

(** The value term; [ValueError], [TypeError] and [ZeroDivisionError] are
    caught, a missing key raises. *)
Definition value_score (q1 q2 : json) : outcome nat :=
  let* v1 := item q1 "target_value" in
  match float_of v1 with
  | None => Returns 0
  | Some val1 =>
      let* v2 := item q2 "target_value" in
      match float_of v2 with
      | None => Returns 0
      | Some val2 =>
          let m := Qmax_ val1 val2 in
          if Qeq_bool m 0 then Returns 0
          else Returns (if Qlt_b 0.2 (Qabs_ (val1 - val2) / m) then 1 else 0)
      end
  end.

Definition is_social (v : json) : bool := json_eqb v (JStr "social_events").

(** The country term, for two [social_events] records. *)
Definition country_score (q1 q2 : json) (entities1 entities2 : list string) : outcome nat :=
  let* c1 := item q1 "category" in
  if is_social c1 then
    let* c2 := item q2 "category" in
    if is_social c2 then
      Returns (if negb (String.eqb (first_country entities1) (first_country entities2))
               then 2 else 0)
    else Returns 0
  else Returns 0.

Definition calculate_question_diversity (q1 q2 : json) : outcome nat :=
  let* metric1 := item q1 "metric" in
  let* metric2 := item q2 "metric" in
  let metrics := if negb (json_eqb metric1 metric2) then 1 else 0 in
  let* dates := timeframe_score q1 q2 in
  let* values := value_score q1 q2 in
  let* text1 := item q1 "question" in
  let* text1 := as_str text1 in
  let entities1 := entities text1 in
  let* text2 := item q2 "question" in
  let* text2 := as_str text2 in
  let entities2 := entities text2 in
  let shared := if disjoint entities1 entities2 then 1 else 0 in
  let* countries := country_score q1 q2 entities1 entities2 in
  Returns (metrics + dates + values + shared + countries).

(** ** [select_diverse_category_questions] *)

(** [[f(x) for x in l]] for an [f] that may raise. *)
Fixpoint map_outcome {A B : Type} (f : A -> outcome B) (l : list A) : outcome (list B) :=
  match l with
  | [] => Returns []
  | x :: l' =>
      let* y := f x in
      let* ys := map_outcome f l' in
      Returns (y :: ys)
  end.

Definition diversity_matrix (questions : list json) : outcome (list (list nat)) :=
  map_outcome (fun q1 => map_outcome (fun q2 => calculate_question_diversity q1 q2) questions)
    questions.

(** [diversity_matrix[i][j]]; the indices are in range at every use. *)
Definition entry (matrix : list (list nat)) (i j : nat) : nat :=
  nth j (nth i matrix []) 0.

(** The minimum of the distances to the selected questions; [None] is
    [float('inf')]. *)
Definition min_distance (matrix : list (list nat)) (i : nat) (selected_indices : list nat)
  : option nat :=
  fold_left
    (fun acc j =>
       match acc with
       | None => Some (entry matrix i j)
       | Some m => Some (Nat.min m (entry matrix i j))
       end)
    selected_indices None.

(** [min_distance > max_min_distance]. *)
Definition exceeds (min_dist : option nat) (max_min_distance : Z) : bool :=
  match min_dist with
  | None => true
  | Some m => (max_min_distance <? Z.of_nat m)%Z
  end.

Definition distance_value (min_dist : option nat) : Z :=
  match min_dist with
  | None => 0%Z
  | Some m => Z.of_nat m
  end.

(** The [for i in range(len(questions))] loop: [(max_min_distance,
    best_index)], from [(-1, -1)].  The value kept for an infinite
    minimum is never compared again, the list of selected indices being
    then empty. *)
Definition best_candidate (matrix : list (list nat)) (n : nat) (selected_indices : list nat)
  : Z * Z :=
  fold_left
    (fun (best : Z * Z) i =>
       if existsb (Nat.eqb i) selected_indices then best
       else
         let d := min_distance matrix i selected_indices in
         if exceeds d (fst best) then (distance_value d, Z.of_nat i) else best)
    (seq 0 n) ((-1)%Z, (-1)%Z).

(** The [while] loop that grows [selected_indices]. *)
Fixpoint grow_selection (fuel : nat) (matrix : list (list nat)) (n count : nat)
  (selected_indices : list nat) : outcome (list nat) :=
  if (List.length selected_indices <? count) && (List.length selected_indices <? n) then
    match fuel with
    | O => OutOfFuel
    | S fuel' =>
        let best_index := snd (best_candidate matrix n selected_indices) in
        if negb (best_index =? -1)%Z
        then grow_selection fuel' matrix n count (selected_indices ++ [Z.to_nat best_index])
        else grow_selection fuel' matrix n count selected_indices
    end
  else Returns selected_indices.

Definition select_diverse_category_questions (fuel : nat) (questions : list json)
  (count : nat) : outcome (list json) :=
  match questions with
  | [] => Returns []
  | _ =>
      let* matrix := diversity_matrix questions in
      let* selected_indices := grow_selection fuel matrix (List.length questions) count [0] in
      Returns (map (fun i => nth i questions JNull) selected_indices)
  end.

(** ** [select_diverse_questions] *)

(** [questions_by_category], a [defaultdict(list)]: the groups in the
    order their categories first occur in the pool. *)
Definition groups := list (json * list json).

Fixpoint groups_get (g : groups) (category : json) : option (list json) :=
  match g with
  | [] => None
  | (c, qs) :: g' => if json_eqb category c then Some qs else groups_get g' category
  end.

Fixpoint groups_append (g : groups) (category : json) (q : json) : groups :=
  match g with
  | [] => [(category, [q])]
  | (c, qs) :: g' =>
      if json_eqb category c then (c, qs ++ [q]) :: g'
      else (c, qs) :: groups_append g' category q
  end.

(** [for q in pool: questions_by_category[q['category']].append(q)] *)
Fixpoint by_category (pool : list json) (g : groups) : outcome groups :=
  match pool with
  | [] => Returns g
  | q :: pool' =>
      let* category := item q "category" in
      if hashable category then by_category pool' (groups_append g category q)
      else Raises
  end.

(** The key of the final selection: category, metric, timeframe,
    [str(float(target_value))] and the question in lower case.  The key
    holds the number [float] reads; two keys are equal when [str] writes
    both floats alike. *)
Definition skey : Type := json * json * json * Q * string.

Definition skey_eqb (a b : skey) : bool :=
  let '(c1, m1, t1, v1, x1) := a in
  let '(c2, m2, t2, v2, x2) := b in
  json_eqb c1 c2 && json_eqb m1 m2 && json_eqb t1 t2 && same_float_text v1 v2 &&
  String.eqb x1 x2.

Definition selection_key (q : json) : outcome skey :=
  let* category := item q "category" in
  let* metric := item q "metric" in
  let* timeframe := item q "timeframe" in
  let* target := item q "target_value" in
  let* value := try_ (float_of target) in
  let* text := item q "question" in
  let* text := as_str text in
  Returns (category, metric, timeframe, value, lower text).

(** [key in used_questions]; hashing a key with a list or a dict in it
    raises. *)
Definition skey_in (k : skey) (used : list skey) : outcome bool :=
  let '(c, m, t, _, _) := k in
  if hashable c && hashable m && hashable t
  then Returns (existsb (skey_eqb k) used)
  else Raises.

(** The sanity caps of the filter: [false] is the [continue]. *)
Definition sanity_ok (category : string) (text : string) (value : Q) : bool :=
  if String.eqb category "cryptocurrency" then
    if str_in "ATOM" text && Qlt_b 20 value then false
    else if str_in "BTC" text && Qlt_b 200000 value then false
    else if str_in "DOT" text && Qlt_b 20 value then false
    else true
  else if String.eqb category "social_events" then between 50 value 500
  else true.

(** The filter loop over [category_questions]: [filtered_questions] and
    [used_questions]. *)
Fixpoint filter_questions (category : string) (category_questions : list json)
  (filtered : list json) (used : list skey) : outcome (list json * list skey) :=
  match category_questions with
  | [] => Returns (filtered, used)
  | q :: rest =>
      let* question_key := selection_key q in
      let* seen := skey_in question_key used in
      if seen then filter_questions category rest filtered used
      else
        let '(_, _, _, value, _) := question_key in
        let* text := item q "question" in
        let* text := as_str text in
        if sanity_ok category text value
        then filter_questions category rest (filtered ++ [q]) (question_key :: used)
        else filter_questions category rest filtered used
  end.

(** [target_per_category + (1 if extra > 0 else 0)], and [extra] after
    [if extra > 0: extra -= 1]. *)
Definition target_count (target_per_category extra : nat) : nat :=
  target_per_category + (if 0 <? extra then 1 else 0).

Definition next_extra (extra : nat) : nat :=
  if 0 <? extra then extra - 1 else extra.

(** The state of the selection: [selected] and [used_questions]. *)
Definition selection : Type := list json * list skey.

(** The body of the first loop for a category that has questions. *)
Definition select_category (fuel : nat) (category : string) (category_questions : list json)
  (target : nat) (st : selection) : outcome selection :=
  let '(selected, used) := st in
  let* (filtered_questions, used) := filter_questions category category_questions [] used in
  let* diverse_questions := select_diverse_category_questions fuel filtered_questions target in
  Returns (selected ++ diverse_questions, used).

(** The first loop over [required_categories]. *)
Fixpoint first_pass (fuel : nat) (g : groups) (target_per_category : nat)
  (required_categories : list string) (extra : nat) (st : selection) : outcome selection :=
  match required_categories with
  | [] => Returns st
  | category :: rest =>
      match groups_get g (JStr category) with
      | None => first_pass fuel g target_per_category rest extra st
      | Some category_questions =>
          let* st' := select_category fuel category category_questions
                        (target_count target_per_category extra) st in
          first_pass fuel g target_per_category rest (next_extra extra) st'
      end
  end.

(** [[q for q in questions if f(q)]] for an [f] that may raise. *)
Fixpoint filter_outcome {A : Type} (f : A -> outcome bool) (l : list A) : outcome (list A) :=
  match l with
  | [] => Returns []
  | x :: l' =>
      let* keep := f x in
      let* rest := filter_outcome f l' in
      Returns (if keep then x :: rest else rest)
  end.

(** [q not in selected and key(q) not in used_questions] *)
Definition is_remaining (st : selection) (q : json) : outcome bool :=
  let '(selected, used) := st in
  if existsb (json_eqb q) selected then Returns false
  else
    let* k := selection_key q in
    let* seen := skey_in k used in
    Returns (negb seen).

(** One run of the [for] loop inside the final [while]. *)
Fixpoint fill_pass (g : groups) (num_questions : nat) (required_categories : list string)
  (st : selection) : outcome selection :=
  match required_categories with
  | [] => Returns st
  | category :: rest =>
      if num_questions <=? List.length (fst st) then Returns st
      else
        match groups_get g (JStr category) with
        | None => fill_pass g num_questions rest st
        | Some category_questions =>
            let* remaining := filter_outcome (is_remaining st) category_questions in
            match remaining with
            | question :: _ =>
                let* k := selection_key question in
                fill_pass g num_questions rest (fst st ++ [question], k :: snd st)
            | [] => fill_pass g num_questions rest st
            end
        end
  end.

(** [while len(selected) < num_questions: for category in ...] *)
Fixpoint fill_loop (fuel : nat) (g : groups) (num_questions : nat)
  (required_categories : list string) (st : selection) : outcome selection :=
  if List.length (fst st) <? num_questions then
    match fuel with
    | O => OutOfFuel
    | S fuel' =>
        let* st' := fill_pass g num_questions required_categories st in
        fill_loop fuel' g num_questions required_categories st'
    end
  else Returns st.

(** [select_diverse_questions(pool, num_questions, required_categories)];
    an empty [required_categories] raises [ZeroDivisionError]. *)
Definition select_diverse_questions (fuel : nat) (pool : list json) (num_questions : nat)
  (required_categories : list string) : outcome (list json) :=
  let* questions_by_category := by_category pool [] in
  match required_categories with
  | [] => Raises
  | _ =>
      let target_per_category := num_questions / List.length required_categories in
      let extra := num_questions mod List.length required_categories in
      let* st := first_pass fuel questions_by_category target_per_category
                   required_categories extra ([], []) in
      let* st := fill_loop fuel questions_by_category num_questions required_categories st in
      Returns (firstn num_questions (fst st))
  end.

(** Whether the pool has questions of a category:
    [category in questions_by_category]. *)
Definition in_groups (g : groups) (category : string) : bool :=
  match groups_get g (JStr category) with
  | Some _ => true
  | None => false
  end.

(** The targets that the first loop hands to
    [select_diverse_category_questions], with the categories they are for:
    a category without questions in the pool is passed over by [continue],
    before [extra] is read or lowered. *)
Fixpoint final_targets_from (g : groups) (target_per_category extra : nat)
  (required_categories : list string) : list (string * nat) :=
  match required_categories with
  | [] => []
  | category :: rest =>
      if in_groups g category then
        (category, target_count target_per_category extra) ::
        final_targets_from g target_per_category (next_extra extra) rest
      else final_targets_from g target_per_category extra rest
  end.

Definition final_targets (g : groups) (num_questions : nat) (required_categories : list string)
  : list (string * nat) :=
  final_targets_from g (num_questions / List.length required_categories)
    (num_questions mod List.length required_categories) required_categories.

(** ** [generate_questions_pool] *)

(** The key of the pool: category, metric, timeframe and
    [str(float(target_value))].  The key holds the number [float] reads; two
    keys are equal when [str] writes both floats alike. *)
Definition pkey : Type := json * json * json * Q.

Definition pkey_eqb (a b : pkey) : bool :=
  let '(c1, m1, t1, v1) := a in
  let '(c2, m2, t2, v2) := b in
  json_eqb c1 c2 && json_eqb m1 m2 && json_eqb t1 t2 && same_float_text v1 v2.

Definition pkey_hashable (k : pkey) : bool :=
  let '(c, m, t, _) := k in hashable c && hashable m && hashable t.

(** [q[k]] read as an option. *)
Definition get (q : json) (k : string) : option json :=
  match q with
  | JObj d => dict_get d k
  | _ => None
  end.

Definition pool_key (question : json) : option pkey :=
  match get question "category", get question "metric", get question "timeframe",
        get question "target_value" with
  | Some category, Some metric, Some timeframe, Some target =>
      match float_of target with
      | Some value => Some (category, metric, timeframe, value)
      | None => None
      end
  | _, _, _, _ => None
  end.

(** A dict from category to a number. *)
Definition counts := list (string * nat).

Fixpoint count_get (d : counts) (k : string) : option nat :=
  match d with
  | [] => None
  | (k', v) :: d' => if String.eqb k k' then Some v else count_get d' k
  end.

Fixpoint count_set (d : counts) (k : string) (v : nat) : counts :=
  match d with
  | [] => [(k, v)]
  | (k', v') :: d' =>
      if String.eqb k k' then (k', v) :: d' else (k', v') :: count_set d' k v
  end.

(** [{cat: v for cat in required_categories}] *)
Definition count_all (required_categories : list string) (v : nat) : counts :=
  fold_left (fun d cat => count_set d cat v) required_categories [].

(** [{cat: num_questions // len(required_categories) for cat in ...}] *)
Definition default_targets (num_questions : nat) (required_categories : list string) : counts :=
  count_all required_categories (num_questions / List.length required_categories).

(** [{cat: target * 4 for cat, target in category_targets.items()}] *)
Definition pool_targets_of (category_targets : counts) : counts :=
  map (fun item : string * nat => (fst item, snd item * 4)) category_targets.

(** What one call of the generation driver brings back: an exception
    after the local retries (or a response without the expected fields), a
    response that is false, or the text of the message. *)
Inductive gen_event : Type :=
| GenFailed
| GenEmpty
| GenText (content : string).

(** [question_pool], [used_questions], [category_counts] and
    [total_attempts]. *)
Record pool_state : Type := PoolState {
  question_pool : list json;
  used_questions : list pkey;
  category_counts : counts;
  total_attempts : nat }.

Definition max_attempts : nat := 3000.

(** [list.remove(x)]: the first occurrence goes. *)
Fixpoint remove_first (x : string) (l : list string) : list string :=
  match l with
  | [] => []
  | y :: l' => if String.eqb x y then l' else y :: remove_first x l'
  end.

(** The list [required_categories] after the check of the allowed
    countries. *)
Definition checked_categories (allowed_countries required_categories : list string)
  : list string :=
  match allowed_countries with
  | [] =>
      if existsb (String.eqb "social_events") required_categories
      then remove_first "social_events" required_categories
      else required_categories
  | _ => required_categories
  end.

Section Pool.

Variable crypto_data : crypto.
Variable allowed_countries : list string.
Variable pool_targets : counts.
Variable pool_size : nat.
Variable required_categories : list string.

(** The loop that looks for a category below its target; [KeyError]
    when [pool_targets] lacks a category. *)
Fixpoint targets_reached (category_counts : counts) : outcome bool :=
  match category_counts with
  | [] => Returns true
  | (cat, count) :: rest =>
      let* target := try_ (count_get pool_targets cat) in
      if count <? target then Returns false else targets_reached rest
  end.

Definition needed_categories (category_counts : counts) : outcome (list string) :=
  filter_outcome
    (fun cat =>
       let* count := try_ (count_get category_counts cat) in
       let* target := try_ (count_get pool_targets cat) in
       Returns (count <? target))
    required_categories.

(** The body of [for question in questions]: the state, and whether the
    loop stops here ([break], or an exception that ends the iteration). *)
Definition process_candidate (question : json) (st : pool_state) : pool_state * bool :=
  let (ok, question) := validate_single_question question crypto_data allowed_countries in
  if ok then
    match get question "category" with
    | Some (JStr category) =>
        match count_get (category_counts st) category with
        | Some current_count =>
            match count_get pool_targets category with
            | Some target_count =>
                if current_count <? target_count then
                  match pool_key question with
                  | Some question_key =>
                      if negb (pkey_hashable question_key) then (st, true)
                      else if existsb (pkey_eqb question_key) (used_questions st)
                      then (st, false)
                      else
                        let st' :=
                          PoolState (question_pool st ++ [question])
                            (question_key :: used_questions st)
                            (count_set (category_counts st) category (current_count + 1))
                            (total_attempts st) in
                        match targets_reached (category_counts st') with
                        | Returns false => (st', false)
                        | _ => (st', true)
                        end
                  | None => (st, true)
                  end
                else (st, false)
            | None => (st, true)
            end
        | None => (st, false)
        end
    | _ => (st, false)
    end
  else (st, false).

Fixpoint process_questions (questions : list json) (st : pool_state) : pool_state :=
  match questions with
  | [] => st
  | question :: rest =>
      let (st', stop) := process_candidate question st in
      if stop then st' else process_questions rest st'
  end.

Definition attempt (st : pool_state) : pool_state :=
  PoolState (question_pool st) (used_questions st) (category_counts st)
    (total_attempts st + 1).

(** The body of the [while] loop up to the call of the driver: the loop
    is left by [break], the driver is called, or an exception ends the
    iteration. *)
Inductive head : Type := Leave | Proceed | Failed.

Definition loop_head (st : pool_state) : head :=
  match targets_reached (category_counts st) with
  | Returns true => Leave
  | Returns false =>
      match needed_categories (category_counts st) with
      | Returns [] => Leave
      | Returns _ => Proceed
      | _ => Failed
      end
  | _ => Failed
  end.

(** The rest of the body, given what the driver brought back.  A
    [continue] skips [total_attempts += 1]. *)
Definition loop_tail (ev : gen_event) (st : pool_state) : pool_state :=
  match ev with
  | GenFailed => attempt st
  | GenEmpty => st
  | GenText text =>
      let content := clean_json_content text in
      match json_loads content with
      | None => st
      | Some parsed =>
          let questions := match parsed with JArr l => l | _ => [parsed] end in
          attempt (process_questions questions st)
      end
  end.

Definition loop_condition (st : pool_state) : bool :=
  (List.length (question_pool st) <? pool_size) && (total_attempts st <? max_attempts).

(** The [while] loop.  [events] holds, for each iteration that does not
    leave the loop, what the driver brings back if it is called.  The
    result is the state, and [true] when the loop has ended ([false]: the
    events ran out first). *)
Fixpoint pool_loop (events : list gen_event) (st : pool_state) : pool_state * bool :=
  if loop_condition st then
    match loop_head st with
    | Leave => (st, true)
    | h =>
        match events with
        | [] => (st, false)
        | ev :: events' =>
            pool_loop events'
              (match h with Proceed => loop_tail ev st | _ => attempt st end)
        end
    end
  else (st, true).

End Pool.

Definition initial_state (required_categories : list string) : pool_state :=
  PoolState [] [] (count_all required_categories 0) 0.

(** [generate_questions_pool(...)]: the list object [required_categories]
    as the call leaves it, and the result.  [category_targets] is [None]
    for the default. *)
Definition generate_questions_pool (fuel : nat) (events : list gen_event)
  (allowed_countries : list string) (crypto_data : crypto) (num_questions pool_size : nat)
  (required_categories : list string) (category_targets : option counts)
  : list string * outcome (list json) :=
  let required_categories := checked_categories allowed_countries required_categories in
  match required_categories with
  | [] => (required_categories, Returns [])
  | _ =>
      let pool_size := Nat.max pool_size (num_questions * 4) in
      let category_targets :=
        match category_targets with
        | None => default_targets num_questions required_categories
        | Some targets => targets
        end in
      let pool_targets := pool_targets_of category_targets in
      let (st, ended) :=
        pool_loop crypto_data allowed_countries pool_targets pool_size required_categories
          events (initial_state required_categories) in
      if ended
      then (required_categories,
            select_diverse_questions fuel (question_pool st) num_questions required_categories)
      else (required_categories, OutOfFuel)
  end.

(** ** The properties of the pool *)

(** What the claim on accepted records asks of a record: a category of
    the fixed set and a timeframe that [strptime] reads as a date of the
    window. *)
Definition record_ok (r : json) : Prop :=
  exists category timeframe d,
    get r "category" = Some (JStr category) /\
    In category valid_categories /\
    get r "timeframe" = Some (JStr timeframe) /\
    strptime timeframe = Some d /\
    (toordinal min_date <= toordinal d <= toordinal max_date)%Z.

(** The records of the pool have keys, all of them in [used_questions]. *)
Definition keys_recorded (st : pool_state) : Prop :=
  forall r, In r (question_pool st) ->
    exists k, pool_key r = Some k /\ pkey_hashable k = true /\ In k (used_questions st).

(** Two records at different places of the pool have different keys. *)
Definition distinct_keys (pool : list json) : Prop :=
  forall i j r1 r2 k1 k2,
    i <> j ->
    nth_error pool i = Some r1 -> nth_error pool j = Some r2 ->
    pool_key r1 = Some k1 -> pool_key r2 = Some k2 ->
    pkey_eqb k1 k2 = false.

Definition pool_inv (st : pool_state) : Prop :=
  Forall record_ok (question_pool st) /\
  keys_recorded st /\
  distinct_keys (question_pool st).

(** The state at any point of the accumulation: after the iterations fed
    with [events] and, in the iteration that follows, after the candidates
    [qs]. *)
Definition state_after (crypto_data : crypto) (allowed_countries : list string)
  (pool_targets : counts) (pool_size : nat) (required_categories : list string)
  (events : list gen_event) (qs : list json) : pool_state :=
  process_questions crypto_data allowed_countries pool_targets qs
    (fst (pool_loop crypto_data allowed_countries pool_targets pool_size required_categories
            events (initial_state required_categories))).

(** ** The statements about the repairer and the quotas *)


(** The quota of the pool stage for [cat], with the default
    [category_targets]. *)
Definition pool_quota (num_questions : nat) (required_categories : list string)
  (cat : string) : option nat :=
  count_get (pool_targets_of (default_targets num_questions required_categories)) cat.

(** The sentence on quotas as the specification has it, for a pool with
    the groups [g]: the quota of the pool stage is four times the final
    target of the category, and the final targets sum to the requested
    total. *)
Definition quota_claim (g : groups) (num_questions : nat) (required_categories : list string)
  : Prop :=
  (forall cat target,
      In (cat, target) (final_targets g num_questions required_categories) ->
      pool_quota num_questions required_categories cat = Some (4 * target)) /\
  list_sum (map snd (final_targets g num_questions required_categories)) = num_questions.

(** ** Scenarios *)

(** The text of a record, as a model writes it. *)
Definition record_text (question timeframe category metric target_value : string) : string :=
  "{" +++ field "question" question +++ ", " +++ field "timeframe" timeframe +++ ", "
  +++ field "category" category +++ ", " +++ field "metric" metric +++ ", "
  +++ field "target_value" target_value +++ "}".

(** The record of scenarios A and B. *)
Definition scenario_record : json :=
  JObj [("question", JStr "Will Bitcoin price exceed 100000 by 2025/03/31?");
        ("timeframe", JStr "2025/03/31");
        ("category", JStr "cryptocurrency");
        ("metric", JStr "price_target");
        ("target_value", JStr "$100,000");
        ("measurement_source", JStr "CoinMarketCap")].

(** The same record as the validator leaves it. *)
Definition scenario_normalized : json :=
  JObj [("question", JStr "Will Bitcoin (BTC) exceed 100000 by 2025/03/31?");
        ("timeframe", JStr "2025/03/31");
        ("category", JStr "cryptocurrency");
        ("metric", JStr "price_target");
        ("target_value", JNum 100000);
        ("measurement_source", JStr "CoinMarketCap")].

Definition btc_at (price : Q) : crypto := [("BTC", Crypto "Bitcoin" price)].

(** A cryptocurrency record that names no asset of [btc_at]. *)
Definition unknown_coin_record : json :=
  JObj [("question", JStr "Will Dogecoin exceed 1 by 2025/03/31?");
        ("timeframe", JStr "2025/03/31");
        ("category", JStr "cryptocurrency");
        ("metric", JStr "price_target");
        ("target_value", JNum 1)].

(** A record that the validator rejects (1000 protests are above 500). *)
Definition rejected_record : json :=
  JObj [("question", JStr "Will protests at Apple Inc. stores in USA exceed 1000 by 2025/03/31?");
        ("timeframe", JStr "2025/03/31");
        ("category", JStr "social_events");
        ("metric", JStr "protest_count");
        ("target_value", JStr "$1,000")].

(** Scenario E: a [financial_market] record cut in the middle of its last
    string. *)
Definition truncated_text : string :=
  "{" +++ field "question" "Will Tesla (TSLA.US) exceed 300 by 2025/03/31?" +++ ", "
  +++ field "timeframe" "2025/03/31" +++ ", "
  +++ field "category" "financial_market" +++ ", "
  +++ field "metric" "price_target" +++ ", "
  +++ quote +++ "target_value" +++ quote +++ ": 300, "
  +++ open_source.


(** Answers of the driver for a pool of two categories. *)
Definition bitcoin_text (target_value timeframe : string) : string :=
  record_text ("Will Bitcoin price exceed " +++ target_value +++ " by " +++ timeframe +++ "?")
    timeframe "cryptocurrency" "price_target" target_value.

Definition sample_categories : list string := ["economic_indicator"; "cryptocurrency"].

Definition sample_events : list gen_event :=
  [GenText (bitcoin_text "100000" "2025/03/31");
   GenFailed;
   GenText (bitcoin_text "100000" "2025/03/31");
   GenText "I cannot answer that.";
   GenText (bitcoin_text "120000" "2025/04/30")].

Definition sample_targets : counts :=
  pool_targets_of (default_targets 2 sample_categories).

Definition sample_state : pool_state :=
  state_after (btc_at 90000) ["USA"] sample_targets 200 sample_categories sample_events [].

Definition sample_first : json :=
  JObj [("question", JStr "Will Bitcoin (BTC) exceed 100000 by 2025/03/31?");
        ("timeframe", JStr "2025/03/31");
        ("category", JStr "cryptocurrency");
        ("metric", JStr "price_target");
        ("target_value", JNum 100000);
        ("measurement_source", JStr "CoinMarketCap")].

Definition sample_second : json :=
  JObj [("question", JStr "Will Bitcoin (BTC) exceed 120000 by 2025/04/30?");
        ("timeframe", JStr "2025/04/30");
        ("category", JStr "cryptocurrency");
        ("metric", JStr "price_target");
        ("target_value", JNum 120000);
        ("measurement_source", JStr "CoinMarketCap")].



(** A pool of one record, and the state of the selection of two records
    from it after the first loop. *)
Definition short_pool : list json := [sample_first].

Definition short_selection : selection :=
  ([sample_first],
   [(JStr "cryptocurrency", JStr "price_target", JStr "2025/03/31", 100000%Q,
     "will bitcoin (btc) exceed 100000 by 2025/03/31?")]).

(** The first loop of [select_diverse_questions], with the targets handed
    over as a list. *)
Fixpoint first_pass_with (fuel : nat) (g : groups) (targets : list (string * nat))
  (st : selection) : outcome selection :=
  match targets with
  | [] => Returns st
  | (category, target) :: rest =>
      match groups_get g (JStr category) with
      | None => first_pass_with fuel g rest st
      | Some category_questions =>
          let* st' := select_category fuel category category_questions target st in
          first_pass_with fuel g rest st'
      end
  end.

(** ** The quotas of the pool *)

(** [q['category'] == c] *)
Definition has_category (c : string) (r : json) : bool :=
  match get r "category" with
  | Some v => json_eqb v (JStr c)
  | None => false
  end.

(** The number of records of category [c]. *)
Definition count_category (c : string) (pool : list json) : nat :=
  List.length (filter (has_category c) pool).

(** The counters agree with the pool, stay within the quotas, and keep the
    categories they started with. *)
Definition quota_inv (pool_targets : counts) (required_categories : list string)
  (st : pool_state) : Prop :=
  (forall cat n,
      count_get (category_counts st) cat = Some n ->
      n = count_category cat (question_pool st) /\
      (forall t, count_get pool_targets cat = Some t -> n <= t)) /\
  (forall cat, In cat required_categories -> count_get (category_counts st) cat <> None).

(** An answer of the driver that ends the iteration by [continue]: a
    response that is false, or a text whose repair does not parse. *)
Definition uncounted (ev : gen_event) : Prop :=
  ev = GenEmpty \/
  exists text, ev = GenText text /\ json_loads (clean_json_content text) = None.

(** ** The greedy selection *)

(** A place among [n] questions that is not selected yet. *)
Definition fresh (n : nat) (selected_indices : list nat) (i : nat) : Prop :=
  i < n /\ ~ In i selected_indices.

(** ** More scenarios *)

(** A [social_events] record as the prompt asks for it, and an
    [economic_indicator] record. *)
Definition protest_fields : dict :=
  [("question", JStr "Will protest count in usa exceed 150 by 2025/03/15?");
   ("timeframe", JStr "2025/03/15");
   ("category", JStr "social_events");
   ("metric", JStr "protest_count");
   ("target_value", JNum 150)].

Definition protest_record : json := JObj protest_fields.

Definition gdp_record : json :=
  JObj [("question", JStr "Will US GDP reach 30000 by 2025/03/15?");
        ("timeframe", JStr "2025/03/15");
        ("category", JStr "economic_indicator");
        ("metric", JStr "Real GDP");
        ("target_value", JStr "30,000")].

Definition gdp_normalized : json :=
  JObj [("question", JStr "Will US GDP reach 30000 by 2025/03/15?");
        ("timeframe", JStr "2025/03/15");
        ("category", JStr "economic_indicator");
        ("metric", JStr "Real GDP");
        ("target_value", JNum 30000)].

(** ** [create_question_key] and [process_ollama_response] *)

(** [\s+] *)
Definition spaces_re : regex := RPlus (RCls is_space).

(** [create_question_key(question)]: the tuple of category, metric,
    timeframe, [str(float(target_value))] and the question in lower case,
    stripped, with every run of blanks made one space. *)
Definition create_question_key (question : json) : outcome skey :=
  let* category := item question "category" in
  let* metric := item question "metric" in
  let* timeframe := item question "timeframe" in
  let* target := item question "target_value" in
  let* value := try_ (float_of target) in
  let* text := item question "question" in
  let* text := as_str text in
  Returns (category, metric, timeframe, value,
           re_sub spaces_re (fun _ => " ") (strip (lower text))).

(** The loop [for question in questions] of [process_ollama_response]:
    [validated_questions] and [used_keys] are its two variables; the record
    appended is the one the validator has written to. *)
Fixpoint validate_response (crypto_data : crypto) (countries : list string)
  (questions validated_questions : list json) (used_keys : list skey)
  : outcome (list json) :=
  match questions with
  | [] => Returns validated_questions
  | question :: rest =>
      let (ok, question) := validate_single_question question crypto_data countries in
      if ok then
        let* key := create_question_key question in
        let* seen := skey_in key used_keys in
        if seen then validate_response crypto_data countries rest validated_questions used_keys
        else validate_response crypto_data countries rest
               (validated_questions ++ [question]) (key :: used_keys)
      else validate_response crypto_data countries rest validated_questions used_keys
  end.

(** [process_ollama_response(response, crypto_data, countries)]; every
    exception ends in [return []]. *)
Definition process_ollama_response (response : json) (crypto_data : crypto)
  (countries : list string) : list json :=
  match get response "message" with
  | Some message =>
      match get message "content" with
      | Some (JStr content) =>
          match json_loads (clean_json_content content) with
          | Some parsed =>
              let questions := match parsed with JArr l => l | _ => [parsed] end in
              match validate_response crypto_data countries questions [] [] with
              | Returns validated_questions => validated_questions
              | _ => []
              end
          | None => []
          end
      | _ => []
      end
  | None => []
  end.

(** Two records at different places of the list have different keys. *)
Definition distinct_question_keys (l : list json) : Prop :=
  forall i j r1 r2 k1 k2,
    i <> j ->
    nth_error l i = Some r1 -> nth_error l j = Some r2 ->
    create_question_key r1 = Returns k1 -> create_question_key r2 = Returns k2 ->
    skey_eqb k1 k2 = false.

Definition skey_hashable (k : skey) : bool :=
  let '(c, m, t, _, _) := k in hashable c && hashable m && hashable t.

(** What the loop keeps: the records are accepted ones, each has a key,
    which can be hashed and is in [used_keys], and no two share a key. *)
Definition response_inv (validated_questions : list json) (used_keys : list skey) : Prop :=
  Forall record_ok validated_questions /\
  (forall r, In r validated_questions ->
     exists k, create_question_key r = Returns k /\ skey_hashable k = true /\ In k used_keys) /\
  distinct_question_keys validated_questions.

(** The answer of the model as [ollama.chat] hands it over. *)
Definition chat_response (content : string) : json :=
  JObj [("message", JObj [("role", JStr "assistant"); ("content", JStr content)])].

(** An answer of two records; the metric of the second is a list. *)
Definition listed_metric_record : string :=
  "{" +++ field "question" "Will Bitcoin price exceed 120000 by 2025/03/31?" +++ ", "
  +++ field "timeframe" "2025/03/31" +++ ", " +++ field "category" "cryptocurrency" +++ ", "
  +++ quote +++ "metric" +++ quote +++ ": [" +++ quote +++ "price" +++ quote +++ "], "
  +++ quote +++ "target_value" +++ quote +++ ": 120000}".

Definition listed_metric_text : string :=
  "[" +++ bitcoin_text "100000" "2025/03/31" +++ ", " +++ listed_metric_record +++ "]".

Definition listed_metric_parsed : json :=
  JObj [("question", JStr "Will Bitcoin price exceed 120000 by 2025/03/31?");
        ("timeframe", JStr "2025/03/31");
        ("category", JStr "cryptocurrency");
        ("metric", JArr [JStr "price"]);
        ("target_value", JStr "120000");
        ("measurement_source", JStr "CoinMarketCap")].

(** * [question_generator.py] *)

(** ** [validate_questions] *)

(** [for x in v]: the elements of a list, the keys of a dict, the
    characters of a string; anything else raises [TypeError]. *)
Definition py_iter (v : json) : outcome (list json) :=
  match v with
  | JArr l => Returns l
  | JObj d => Returns (map (fun kv => JStr (fst kv)) d)
  | JStr s => Returns (map (fun c => JStr (String c EmptyString)) (list_ascii_of_string s))
  | _ => Raises
  end.

(** [all(key in question for key in keys)]; [None] is the [TypeError] of
    [in]. *)
Fixpoint all_in (keys : list string) (question : json) : option bool :=
  match keys with
  | [] => Some true
  | key :: keys' =>
      match contains question key with
      | None => None
      | Some false => Some false
      | Some true => all_in keys' question
      end
  end.

(** The checks of one record that do not read [used_questions]; [false]
    is a [continue], also the one of the handler of the exceptions. *)
Definition question_checks (question : json) : bool :=
  match all_in required_fields question with
  | Some true =>
      match get question "question", get question "timeframe",
            get question "target_value", get question "category",
            get question "metric" with
      | Some text, Some timeframe, Some target, Some category, Some metric =>
          if negb (hashable text) then false else
          if negb (timeframe_ok timeframe) then false else
          match float_of target with
          | Some value =>
              if json_eqb category (JStr "social_events") && negb (between 50 value 500)
              then false
              else if json_eqb category (JStr "economic_indicator") then
                if json_eqb metric (JStr "unemployment_rate") && negb (between 2 value 10)
                then false
                else true
              else true
          | None => false
          end
      | _, _, _, _, _ => false
      end
  | _ => false
  end.

(** The body of the loop: whether the record is appended. *)
Definition keeps_question (question : json) (used_questions : list json) : bool :=
  match get question "question" with
  | Some text =>
      question_checks question && negb (existsb (json_eqb text) used_questions)
  | None => false
  end.

Fixpoint validate_questions_loop (questions valid_questions used_questions : list json)
  : list json :=
  match questions with
  | [] => valid_questions
  | question :: rest =>
      if keeps_question question used_questions then
        match get question "question" with
        | Some text =>
            validate_questions_loop rest (valid_questions ++ [question])
              (text :: used_questions)
        | None => validate_questions_loop rest valid_questions used_questions
        end
      else validate_questions_loop rest valid_questions used_questions
  end.

(** [validate_questions(questions)] *)
Definition validate_questions (questions : json) : outcome (list json) :=
  let* questions := py_iter questions in
  Returns (validate_questions_loop questions [] []).

(** What [validate_questions] asks of a record. *)
Definition gpt_record_ok (r : json) : Prop :=
  exists text timeframe d target value category,
    get r "question" = Some text /\ hashable text = true /\
    get r "timeframe" = Some (JStr timeframe) /\
    strptime timeframe = Some d /\
    (toordinal min_date <= toordinal d <= toordinal max_date)%Z /\
    get r "target_value" = Some target /\ float_of target = Some value /\
    get r "category" = Some category /\
    (category = JStr "social_events" -> (50 <= value <= 500)%Q).

(** Two records at different places of the list have different
    questions. *)
Definition distinct_questions (l : list json) : Prop :=
  forall i j r1 r2 t1 t2,
    i <> j ->
    nth_error l i = Some r1 -> nth_error l j = Some r2 ->
    get r1 "question" = Some t1 -> get r2 "question" = Some t2 ->
    json_eqb t1 t2 = false.

(** Three records of an answer: the second repeats the question of the
    first, the third is due after the window. *)
Definition gpt_answer : json :=
  JArr [protest_record;
        JObj [("question", JStr "Will protest count in usa exceed 150 by 2025/03/15?");
              ("timeframe", JStr "2025/04/15");
              ("category", JStr "social_events");
              ("metric", JStr "protest_count");
              ("target_value", JNum 200)];
        JObj [("question", JStr "Will US GDP reach 30000 by 2025/09/15?");
              ("timeframe", JStr "2025/09/15");
              ("category", JStr "economic_indicator");
              ("metric", JStr "Real GDP");
              ("target_value", JNum 30000)];
        gdp_normalized].

(** ** [generate_questions_batch_ollama_async] and
    [generate_questions_ollama_parallel] *)

(** [range(start, stop, step)]; [ValueError] for a step of zero. *)
Fixpoint range_go (fuel : nat) (i stop step : Z) : list Z :=
  match fuel with
  | O => []
  | S fuel' =>
      if (if (0 <? step)%Z then (i <? stop)%Z else (stop <? i)%Z)
      then i :: range_go fuel' (i + step)%Z stop step
      else []
  end.

Definition py_range (start stop step : Z) : outcome (list Z) :=
  if (step =? 0)%Z then Raises
  else Returns (range_go (Z.to_nat (Z.abs (stop - start))) start stop step).

(** What [ollama.chat] does at one call: it raises, or it answers. *)
Inductive chat_event : Type :=
| ChatFailed
| ChatAnswer (response : json).

Section Ollama.

Variable crypto_data : crypto.

(** The prompt of a batch of [num_questions] questions, as the lines before
    the loop of [generate_questions_batch_ollama_async] build it from the
    contexts; they may raise. *)
Variable create_prompt : Z -> outcome string.

(** [ollama.chat] at attempt [attempt] of task [task], for a prompt. *)
Variable chat : string -> nat -> nat -> chat_event.

(** [check_ollama_server()] *)
Variable server_ok : bool.

(** [for attempt in range(max_retries)], from [attempt] on with [retries]
    turns left: the first answer with an accepted record ends the loop;
    [process_ollama_response] is called without [countries]. *)
Fixpoint ollama_attempts (prompt : string) (task : nat) (retries attempt : nat) : list json :=
  match retries with
  | O => []
  | S retries' =>
      match chat prompt task attempt with
      | ChatAnswer response =>
          match process_ollama_response response crypto_data [] with
          | [] => ollama_attempts prompt task retries' (S attempt)
          | questions => questions
          end
      | ChatFailed => ollama_attempts prompt task retries' (S attempt)
      end
  end.

Definition generate_questions_batch_ollama_async (task : nat) (num_questions : Z)
  : outcome (list json) :=
  let* prompt := create_prompt num_questions in
  Returns (ollama_attempts prompt task 3 0).

(** [asyncio.gather] with [return_exceptions=True] and the loop over its
    results: a task that raised is skipped. *)
Fixpoint gather_batches (task : nat) (tasks : list Z) : list json :=
  match tasks with
  | [] => []
  | current_batch_size :: rest =>
      match generate_questions_batch_ollama_async task current_batch_size with
      | Returns result => result ++ gather_batches (S task) rest
      | _ => gather_batches (S task) rest
      end
  end.

(** [generate_questions_ollama_parallel(..., num_questions, batch_size)]:
    the batch sizes of the tasks it has created, and its result. *)
Definition generate_questions_ollama_parallel (num_questions batch_size : Z)
  : list Z * outcome (list json) :=
  if negb server_ok then ([], Returns []) else
  let batch_size := if (10 <? num_questions)%Z then Z.min 3 batch_size else batch_size in
  match py_range 0 num_questions batch_size with
  | Returns starts =>
      let tasks := map (fun i => Z.min batch_size (num_questions - i)) starts in
      (tasks, Returns (gather_batches 0 tasks))
  | _ => ([], Raises)
  end.

End Ollama.

(** [sum(l)] *)
Definition zsum (l : list Z) : Z := fold_right Z.add 0%Z l.

(** ** [generate_questions_batch_gpt4] *)

(** [s[a:]] *)
Definition slice_from (s : string) (a : Z) : string :=
  let n := Z.of_nat (String.length s) in
  let a := if (a <? 0)%Z then Z.max 0 (n + a) else a in
  substring (Z.to_nat a) (Z.to_nat (n - a)) s.

(** The text handed to [json.loads]: the answer, stripped, from its first
    bracket to its last one. *)
Definition trim_answer (content : string) : string :=
  let content := strip content in
  let content :=
    if negb (startswith content "[") then slice_from content (str_find content "[")
    else content in
  if negb (endswith content "]") then slice content 0 (str_rfind content "]" + 1)
  else content.

(** What one attempt brings back: an exception (of the request, or of
    reading the text of the answer), or the text. *)
Inductive gpt_event : Type :=
| GptFailed
| GptContent (content : string).

Section Gpt.

(** The prompt, as the lines before the loop build it; they may raise. *)
Variable gpt_prompt : nat -> outcome string.

(** [client.chat.completions.create] at attempt [attempt], for a prompt. *)
Variable completion : string -> nat -> gpt_event.

(** [for attempt in range(max_retries)], from [attempt] on with [retries]
    turns left. *)
Fixpoint gpt_attempts (prompt : string) (retries attempt : nat) : list json :=
  match retries with
  | O => []
  | S retries' =>
      match completion prompt attempt with
      | GptContent content =>
          match json_loads (trim_answer content) with
          | Some questions =>
              match validate_questions questions with
              | Returns [] => gpt_attempts prompt retries' (S attempt)
              | Returns validated_questions => validated_questions
              | _ =>
                  if attempt <? 2 then gpt_attempts prompt retries' (S attempt) else []
              end
          | None => gpt_attempts prompt retries' (S attempt)
          end
      | GptFailed =>
          if attempt <? 2 then gpt_attempts prompt retries' (S attempt) else []
      end
  end.

Definition generate_questions_batch_gpt4 (num_questions : nat) : outcome (list json) :=
  let* prompt := gpt_prompt num_questions in
  Returns (gpt_attempts prompt 3 0).

End Gpt.

(** ** [generate_questions] *)

(** [bool(v)] *)
Definition truthy (v : json) : bool :=
  match v with
  | JNull => false
  | JBool b => b
  | JNum q => negb (Qeq_bool q 0)
  | JStr s => negb (String.eqb s EmptyString)
  | JArr l => negb (Nat.eqb (List.length l) 0)
  | JObj d => negb (Nat.eqb (List.length d) 0)
  end.

(** The list [required_categories] that [generate_questions] builds from
    the data it is given; [acled_countries] is [acled_data.get('countries')],
    the list [generate_questions_pool] reads too. *)
Definition data_categories (fred_data : json) (acled_countries : list string)
  (crypto_data : crypto) (market_data : json) : list string :=
  (if truthy fred_data then ["economic_indicator"] else []) ++
  (if negb (Nat.eqb (List.length acled_countries) 0) then ["social_events"] else []) ++
  (if negb (Nat.eqb (List.length crypto_data) 0) then ["cryptocurrency"] else []) ++
  (if truthy market_data then ["financial_market"] else []).

Section Generate.

(** The answers of the three drivers. *)
Variable fuel : nat.
Variable events : list gen_event.
Variable create_prompt : Z -> outcome string.
Variable chat : string -> nat -> nat -> chat_event.
Variable server_ok : bool.
Variable gpt_prompt : nat -> outcome string.
Variable completion : string -> nat -> gpt_event.

Definition generate_questions (fred_data : json) (acled_countries : list string)
  (crypto_data : crypto) (market_data : json) (total_questions : nat) (model : string)
  (parallel : bool) : outcome (list json) :=
  let required_categories := data_categories fred_data acled_countries crypto_data market_data in
  match required_categories with
  | [] => Returns []
  | _ =>
      if String.eqb model "llama2" then
        if parallel then
          snd (generate_questions_ollama_parallel crypto_data create_prompt chat server_ok
                 (Z.of_nat total_questions) 5)
        else
          let pool_size := Nat.max 200 (total_questions * 4) in
          snd (generate_questions_pool fuel events acled_countries crypto_data
                 total_questions pool_size required_categories None)
      else generate_questions_batch_gpt4 gpt_prompt completion total_questions
  end.

End Generate.

(** The timeframe of a record is a date of the window. *)
Definition in_window (r : json) : Prop :=
  exists timeframe d,
    get r "timeframe" = Some (JStr timeframe) /\
    strptime timeframe = Some d /\
    (toordinal min_date <= toordinal d <= toordinal max_date)%Z.

(** An answer with words around the list. *)
Definition gpt_text : string :=
  "Here are the questions: [" +++
  record_text "Will protest count in usa exceed 150 by 2025/03/15?" "2025/03/15"
    "social_events" "protest_count" "150" +++ "] I hope this helps.".

Definition gpt_parsed : json :=
  JObj [("question", JStr "Will protest count in usa exceed 150 by 2025/03/15?");
        ("timeframe", JStr "2025/03/15");
        ("category", JStr "social_events");
        ("metric", JStr "protest_count");
        ("target_value", JStr "150")].

(** Four answers of the driver, each with a record of its own. *)
Definition four_answers : list gen_event :=
  [GenText (bitcoin_text "100000" "2025/03/31");
   GenText (bitcoin_text "120000" "2025/04/30");
   GenText (bitcoin_text "110000" "2025/05/31");
   GenText (bitcoin_text "95000" "2025/01/31")].

(** ** [get_timeframe_variations] *)

(** [s.zfill(width)] for a string of digits. *)
Fixpoint zeros (n : nat) : string :=
  match n with
  | O => EmptyString
  | S n' => String "0" (zeros n')
  end.

Definition zfill (s : string) (width : nat) : string :=
  zeros (width - String.length s) +++ s.

Definition base_dates : list string :=
  ["2024/12"; "2025/01"; "2025/02"; "2025/03"; "2025/04"; "2025/05"; "2025/06"].

Definition days : list N := [1; 5; 10; 15; 20; 25; 28]%N.

Definition get_timeframe_variations : list string :=
  flat_map (fun date => map (fun day => date +++ "/" +++ zfill (str_of_int day) 2) days)
    base_dates.

(** ** [validate_target_value] *)

(** The chain of comparisons of [metric] for [economic_indicator]; without
    a branch for the metric the function falls through to [return False]. *)
Definition economic_target_ok (metric : json) (value : Q) : bool :=
  if json_eqb metric (JStr "gdp_growth_rate") then between (-5) value 10
  else if json_eqb metric (JStr "inflation_rate") then between (-2) value 15
  else if json_eqb metric (JStr "unemployment_rate") then between 2 value 15
  else if json_eqb metric (JStr "interest_rate") then between 0 value 10
  else if json_eqb metric (JStr "treasury_rate") then between 0 value 10
  else if json_eqb metric (JStr "cpi_change") then between (-5) value 15
  else false.

Definition financial_target_ok (metric : json) (value : Q) : bool :=
  if json_eqb metric (JStr "price_target") then Qlt_b 0 value
  else if json_eqb metric (JStr "volume_24h") then Qle_b 1000 value
  else if json_eqb metric (JStr "market_cap") then Qle_b 1000000 value
  else false.

(** [question.get('metric', '')]: [AttributeError] on what is no dict. *)
Definition get_metric (question : json) : outcome json :=
  match question with
  | JObj d =>
      match dict_get d "metric" with
      | Some metric => Returns metric
      | None => Returns (JStr EmptyString)
      end
  | _ => Raises
  end.

(** [validate_target_value(category, value, crypto_data, question)];
    [JNull] is the default [None] of [question].  [ValueError] and
    [TypeError] are caught and give [False]; [KeyError] and
    [AttributeError] leave the function. *)
Definition validate_target_value (category value : json) (crypto_data : crypto)
  (question : json) : outcome bool :=
  match float_of value with
  | None => Returns false
  | Some value =>
      if json_eqb category (JStr "cryptocurrency") then
        if Nat.eqb (List.length crypto_data) 0 || negb (truthy question) then Returns false
        else
          match question with
          | JObj d =>
              let* text := try_ (dict_get d "question") in
              match crypto_ok crypto_data text value with
              | Some ok => Returns ok
              | None => Returns false
              end
          | _ => Returns false
          end
      else if json_eqb category (JStr "economic_indicator") then
        let* metric := get_metric question in
        Returns (economic_target_ok metric value)
      else if json_eqb category (JStr "social_events") then
        Returns (between 50 value 500)
      else if json_eqb category (JStr "financial_market") then
        let* metric := get_metric question in
        Returns (financial_target_ok metric value)
      else Returns false
  end.

(** ** [normalize_target_value] *)

(** A value as the comparisons with numbers take it; [None] is their
    [TypeError]. *)
Definition as_number (v : json) : option Q :=
  match v with
  | JNum q => Some q
  | JBool b => Some (if b then 1%Q else 0%Q)
  | _ => None
  end.

(** [ranges], in the order the dict is written. *)
Definition normalize_ranges : list (string * (Q * Q)) :=
  [("gdp", (20000, 50000)); ("unemployment", (2, 15)); ("inflation", (-2, 15));
   ("interest", (-5, 10)); ("treasury", (-5, 10))]%Q.

(** The first range whose key the metric contains. *)
Fixpoint range_of (ranges : list (string * (Q * Q))) (metric : string) : option (Q * Q) :=
  match ranges with
  | [] => None
  | (key, range) :: ranges' =>
      if str_in key metric then Some range else range_of ranges' metric
  end.

(** [value if lo <= value <= hi else None] *)
Definition value_within (lo hi : Q) (value : json) : option json :=
  match as_number value with
  | Some v => if between lo v hi then Some value else None
  | None => None
  end.

(** The loop over [crypto_data.items()]: the value has to be in the range
    of one of the assets, whichever. *)
Definition value_in_some_range (crypto_data : crypto) (value : json) : option json :=
  match as_number value with
  | Some v =>
      if existsb (fun entry => between (min_price (snd entry)) v (max_price (snd entry)))
           crypto_data
      then Some value else None
  | None => None
  end.

(** [normalize_target_value(value, category, metric, crypto_data)]: the
    value or [None].  [ValueError] and [TypeError] are caught;
    the [AttributeError] of [metric.lower()] is not. *)
Definition normalize_target_value (value category metric : json) (crypto_data : crypto)
  : outcome (option json) :=
  match (match value with
         | JStr _ => option_map JNum (float_of_cleaned value)
         | _ => Some value
         end) with
  | None => Returns None
  | Some value =>
      if json_eqb category (JStr "cryptocurrency") && negb (Nat.eqb (List.length crypto_data) 0)
      then Returns (value_in_some_range crypto_data value)
      else if json_eqb category (JStr "social_events") then Returns (value_within 50 500 value)
      else if json_eqb category (JStr "economic_indicator") then
        let* metric := as_str metric in
        match range_of normalize_ranges (lower metric) with
        | Some (min_val, max_val) => Returns (value_within min_val max_val value)
        | None => Returns (Some value)
        end
      else Returns (Some value)
  end.

(** ** [is_unique_question] *)

(** What one field adds to [similarity_count]. *)
Definition field_similarity (new_val used_val : json) : Q :=
  if json_eqb new_val used_val then 1
  else
    match new_val, used_val with
    | JStr a, JStr b =>
        if str_in (lower a) (lower b) || str_in (lower b) (lower a) then 1 # 2 else 0
    | _, _ => 0
    end.

(** The loop over [zip(unique_key, used_key)]. *)
Fixpoint similarity_count (unique_key used_key : list json) (count : Q) : Q :=
  match unique_key, used_key with
  | new_val :: unique_key', used_val :: used_key' =>
      similarity_count unique_key' used_key' (count + field_similarity new_val used_val)
  | _, _ => count
  end.

(** [a == b] for two tuples. *)
Fixpoint tuple_eqb (a b : list json) : bool :=
  match a, b with
  | [], [] => true
  | x :: a', y :: b' => json_eqb x y && tuple_eqb a' b'
  | _, _ => false
  end.

(** [q.get(k, '')] *)
Definition get_or_empty (d : dict) (k : string) : json :=
  match dict_get d k with
  | Some v => v
  | None => JStr EmptyString
  end.

Section Unique.

(** [str(v)] of a value; the digits it gives a float are outside the
    embedding. *)
Variable py_str : json -> string.

Definition unique_key_of (question : json) : outcome (list json) :=
  let* category := item question "category" in
  let* metric := item question "metric" in
  let* timeframe := item question "timeframe" in
  let* target := item question "target_value" in
  match question with
  | JObj d =>
      Returns [category; metric; timeframe; JStr (py_str target);
               get_or_empty d "country"; get_or_empty d "stock";
               get_or_empty d "cryptocurrency"]
  | _ => Raises
  end.

(** The loop over [used_questions]: [false] at the first key that is
    similar enough. *)
Fixpoint no_similar_key (unique_key : list json) (used_questions : list (list json))
  (similarity_threshold : Q) : bool :=
  match used_questions with
  | [] => true
  | used_key :: rest =>
      let similarity_count := similarity_count unique_key used_key 0 in
      let total_fields := List.length unique_key in
      let similarity := (similarity_count / inject_Z (Z.of_nat total_fields))%Q in
      if Qle_b similarity_threshold similarity then false
      else no_similar_key unique_key rest similarity_threshold
  end.

(** [is_unique_question(question, used_questions, similarity_threshold)],
    for a set [used_questions] of keys: hashing the key raises when a field
    is a list or a dict. *)
Definition is_unique_question (question : json) (used_questions : list (list json))
  (similarity_threshold : Q) : outcome bool :=
  let* unique_key := unique_key_of question in
  if negb (forallb hashable unique_key) then Raises
  else if existsb (tuple_eqb unique_key) used_questions then Returns false
  else Returns (no_similar_key unique_key used_questions similarity_threshold).

End Unique.

(** ** [validate_single_question] of [question_generator.py] *)

Module QuestionGenerator.

Definition required_fields : list string :=
  ["question"; "timeframe"; "category"; "metric"; "measurement_source"; "target_value"].

Definition valid_metrics : list (string * list string) :=
  [("cryptocurrency",
    ["price_target"; "market_cap"; "volume_24h"; "price_change"; "market_cap_change"]);
   ("social_events",
    ["protest_count"; "fatalities"; "event_frequency"; "violence_incidents"; "riot_count"]);
   ("economic_indicator",
    ["gdp_growth_rate"; "inflation_rate"; "unemployment_rate"; "interest_rate";
     "treasury_rate"; "cpi_change"])].

Definition valid_sources : list (string * list string) :=
  [("cryptocurrency", ["CoinMarketCap"; "Binance"; "CoinGecko"]);
   ("social_events", ["ACLED database"]);
   ("economic_indicator",
    ["BEA initial GDP release"; "BLS initial CPI release"; "Federal Reserve";
     "FRED database"])].

(** [d[k]] for a dict of lists. *)
Fixpoint lookup (d : list (string * list string)) (k : string) : option (list string) :=
  match d with
  | [] => None
  | (k', v) :: d' => if String.eqb k k' then Some v else lookup d' k
  end.

(** The check of the target value: the value to store, if any, or [None]
    for [return False]. *)
Definition checked_target (target : json) : option json :=
  match target with
  | JStr s =>
      let value :=
        strip (str_replace (str_replace (str_replace s "$" EmptyString) "%" EmptyString)
                 "," EmptyString) in
      option_map JNum (py_float value)
  | JNum _ | JBool _ => Some target
  | _ => None
  end.

(** [validate_single_question(question)]: the boolean, and the record as
    the call leaves it.  Every exception gives [False]. *)
Definition validate_single_question (question : json) : bool * json :=
  match all_in required_fields question, question with
  | Some true, JObj q =>
      match dict_get q "timeframe", dict_get q "category", dict_get q "metric",
            dict_get q "measurement_source", dict_get q "target_value",
            dict_get q "question" with
      | Some timeframe, Some category, Some metric, Some source, Some target, Some text =>
          match contains timeframe " to " with
          | Some false =>
              match contains timeframe " and " with
              | Some false =>
                  if negb (timeframe_ok timeframe) then (false, question) else
                  match category with
                  | JStr c =>
                      match lookup valid_metrics c, lookup valid_sources c with
                      | Some metrics, Some sources =>
                          match metric with
                          | JStr m =>
                              if negb (existsb (String.eqb (strip (lower m))) (map lower metrics))
                              then (false, question) else
                              if negb (existsb (fun s => json_eqb source (JStr s)) sources)
                              then (false, question) else
                              match checked_target target with
                              | Some value =>
                                  let question := JObj (dict_set q "target_value" value) in
                                  match text with
                                  | JStr t => (startswith t "Will ", question)
                                  | _ => (false, question)
                                  end
                              | None => (false, question)
                              end
                          | _ => (false, question)
                          end
                      | _, _ => (false, question)
                      end
                  | _ => (false, question)
                  end
              | _ => (false, question)
              end
          | _ => (false, question)
          end
      | _, _, _, _, _, _ => (false, question)
      end
  | _, _ => (false, question)
  end.

End QuestionGenerator.



(** ** Pools for the quotas *)

Definition stock_record : json :=
  JObj [("question", JStr "Will Tesla (TSLA.US) exceed 300 by 2025/03/31?");
        ("timeframe", JStr "2025/03/31");
        ("category", JStr "financial_market");
        ("metric", JStr "price_target");
        ("target_value", JNum 300)].

(** The groups of a pool with a record of each category, and of a pool
    without [economic_indicator] records. *)
Definition full_groups : groups :=
  [(JStr "economic_indicator", [gdp_normalized]); (JStr "social_events", [protest_record]);
   (JStr "cryptocurrency", [sample_first]); (JStr "financial_market", [stock_record])].

Definition partial_groups : groups :=
  [(JStr "social_events", [protest_record]); (JStr "cryptocurrency", [sample_first]);
   (JStr "financial_market", [stock_record])].

(** ** The form of a timeframe *)

(** [\d{4}/\d{2}/\d{2}] *)
Definition exact_date_re : regex :=
  (RRep 4 RDigit ;; RStr "/" ;; RRep 2 RDigit ;; RStr "/" ;; RRep 2 RDigit)%re.

Definition exact_date (s : string) : bool :=
  match re_fullmatch exact_date_re s with
  | Some _ => true
  | None => false
  end.

(** The sentence of the specification on the form of the timeframe: every
    record of the pool, at every point of the accumulation, has a timeframe
    of four digits, two digits and two digits between slashes. *)
Definition exact_date_claim : Prop :=
  forall crypto_data allowed_countries pool_targets pool_size required_categories events qs r,
    In r (question_pool (state_after crypto_data allowed_countries pool_targets pool_size
                           required_categories events qs)) ->
    exists timeframe, get r "timeframe" = Some (JStr timeframe) /\ exact_date timeframe = true.

(** An answer of the driver with a day that is padded with a blank, and
    the record the pool holds after it. *)
Definition padded_day_events : list gen_event :=
  [GenText (bitcoin_text "100000" "2025/03/ 5")].

Definition padded_day_record : json :=
  JObj [("question", JStr "Will Bitcoin (BTC) exceed 100000 by 2025/03/ 5?");
        ("timeframe", JStr "2025/03/ 5");
        ("category", JStr "cryptocurrency");
        ("metric", JStr "price_target");
        ("target_value", JNum 100000);
        ("measurement_source", JStr "CoinMarketCap")].

(** ** Targets that differ in their text only *)

Definition change_text (target_value : string) : string :=
  record_text "Will Tesla (TSLA.US) change by 2025/03/31?" "2025/03/31" "financial_market"
    "price_change" target_value.

(** The pool after answers with the given target values, for the one
    category [financial_market]. *)
Definition change_pool (target_values : list string) : list json :=
  question_pool
    (state_after [] ["USA"] (pool_targets_of (default_targets 2 ["financial_market"])) 200
       ["financial_market"] (map (fun v => GenText (change_text v)) target_values) []).

(** * Properties *)

(** ** Dicts *)

Lemma dict_get_set_same (d : dict) (k : string) (v : json) :
  dict_get (dict_set d k v) k = Some v.
Proof.
  induction d as [|[k' v'] d IH]; simpl.
  - now rewrite String.eqb_refl.
  - destruct (String.eqb k k') eqn:E; simpl; rewrite E; auto.
Qed.

Lemma dict_get_set_other (d : dict) (k k' : string) (v : json) :
  k <> k' -> dict_get (dict_set d k v) k' = dict_get d k'.
Proof.
  intros Hne. induction d as [|[k0 v0] d IH]; simpl.
  - destruct (String.eqb k' k) eqn:E; auto.
    apply String.eqb_eq in E. congruence.
  - destruct (String.eqb k k0) eqn:E; simpl.
    + apply String.eqb_eq in E. subst k0.
      destruct (String.eqb k' k) eqn:E'; auto.
      apply String.eqb_eq in E'. congruence.
    + now rewrite IH.
Qed.

Lemma count_get_set_same (d : counts) (k : string) (v : nat) :
  count_get (count_set d k v) k = Some v.
Proof.
  induction d as [|[k' v'] d IH]; simpl.
  - now rewrite String.eqb_refl.
  - destruct (String.eqb k k') eqn:E; simpl; rewrite E; auto.
Qed.

Lemma count_get_set_other (d : counts) (k k' : string) (v : nat) :
  k <> k' -> count_get (count_set d k v) k' = count_get d k'.
Proof.
  intros Hne. induction d as [|[k0 v0] d IH]; simpl.
  - destruct (String.eqb k' k) eqn:E; auto.
    apply String.eqb_eq in E. congruence.
  - destruct (String.eqb k k0) eqn:E; simpl.
    + apply String.eqb_eq in E. subst k0.
      destruct (String.eqb k' k) eqn:E'; auto.
      apply String.eqb_eq in E'. congruence.
    + now rewrite IH.
Qed.

(** ** The validator of the pool *)

(** What an accepted record went through: the checks that passed and the
    object the call leaves behind. *)
Lemma validate_accept_inv question crypto_data countries question' :
  validate_single_question question crypto_data countries = (true, question') ->
  exists q text0 category timeframe target metric value,
    question = JObj q /\
    dict_get q "question" = Some (JStr text0) /\
    let text := normalize_names crypto_data text0 in
    let q1 := dict_set q "question" (JStr text) in
    dict_get q1 "category" = Some (JStr category) /\
    dict_get q1 "timeframe" = Some timeframe /\
    dict_get q1 "target_value" = Some target /\
    dict_get q1 "metric" = Some metric /\
    is_valid_category (JStr category) = true /\
    timeframe_ok timeframe = true /\
    float_of_cleaned target = Some value /\
    target_value_ok crypto_data category metric text value = true /\
    country_ok countries category text = true /\
    question' = JObj (dict_set q1 "target_value" (JNum value)).
Proof.
  unfold validate_single_question. intros H.
  destruct question as [| | | |l|q]; try discriminate.
  destruct (negb (forallb (dict_has q) required_fields)); try discriminate.
  destruct (dict_get q "question") as [[| | |text0| |]|] eqn:Eq; try discriminate.
  destruct (dict_get (dict_set q "question" (JStr (normalize_names crypto_data text0)))
              "category") as [category|] eqn:Ec; try discriminate.
  destruct (dict_get (dict_set q "question" (JStr (normalize_names crypto_data text0)))
              "timeframe") as [timeframe|] eqn:Et; try discriminate.
  destruct (dict_get (dict_set q "question" (JStr (normalize_names crypto_data text0)))
              "target_value") as [target|] eqn:Ev; try discriminate.
  destruct (dict_get (dict_set q "question" (JStr (normalize_names crypto_data text0)))
              "metric") as [metric|] eqn:Em; try discriminate.
  destruct (is_valid_category category) eqn:Hc; simpl in H; try discriminate.
  destruct (timeframe_ok timeframe) eqn:Ht; simpl in H; try discriminate.
  destruct (float_of_cleaned target) as [value|] eqn:Hv; try discriminate.
  destruct category as [| | |c| |]; try discriminate.
  destruct (target_value_ok crypto_data c metric (normalize_names crypto_data text0) value)
    eqn:Hr; simpl in H; try discriminate.
  destruct (country_ok countries c (normalize_names crypto_data text0)) eqn:Hk;
    simpl in H; try discriminate.
  injection H as <-.
  exists q, text0, c, timeframe, target, metric, value. cbn zeta.
  repeat split; auto.
Qed.

(** The fields of an accepted record, as the pool holds it. *)
Lemma validate_accept_fields question crypto_data countries question' :
  validate_single_question question crypto_data countries = (true, question') ->
  exists category timeframe metric value text,
    get question' "category" = Some (JStr category) /\
    get question' "timeframe" = Some timeframe /\
    get question' "metric" = Some metric /\
    get question' "target_value" = Some (JNum value) /\
    get question' "question" = Some (JStr text) /\
    is_valid_category (JStr category) = true /\
    timeframe_ok timeframe = true /\
    target_value_ok crypto_data category metric text value = true /\
    country_ok countries category text = true.
Proof.
  intros H. apply validate_accept_inv in H.
  destruct H as (q & text0 & category & timeframe & target & metric & value & -> & Hq & H).
  cbn zeta in H.
  destruct H as (Hc & Ht & Hv & Hm & Hvalid & Htf & Hfloat & Hrange & Hcountry & ->).
  exists category, timeframe, metric, value, (normalize_names crypto_data text0).
  simpl get.
  rewrite dict_get_set_same.
  rewrite !(dict_get_set_other _ "target_value") by discriminate.
  rewrite dict_get_set_same. repeat split; auto.
Qed.

(** ** Equality of keys *)

Lemma Qeq_bool_sym (a b : Q) : Qeq_bool a b = Qeq_bool b a.
Proof. unfold Qeq_bool. apply Z.eqb_sym. Qed.

Lemma Qeq_bool_same (a : Q) : Qeq_bool a a = true.
Proof. apply Qeq_bool_iff. reflexivity. Qed.

Lemma json_eqb_sym (a b : json) :
  hashable a = true -> hashable b = true -> json_eqb a b = json_eqb b a.
Proof.
  destruct a, b; simpl; intros; try discriminate; auto using Qeq_bool_sym, String.eqb_sym.
  now destruct b, b0.
Qed.

Lemma json_eqb_same (a : json) : hashable a = true -> json_eqb a a = true.
Proof.
  destruct a; simpl; intros; try discriminate;
    auto using Qeq_bool_same, String.eqb_refl, Bool.eqb_reflx.
Qed.

Lemma float64_eqb_sym (a b : float64) : float64_eqb a b = float64_eqb b a.
Proof.
  destruct a, b; simpl; try reflexivity.
  - now destruct negative, negative0.
  - rewrite (Z.eqb_sym mantissa), (Z.eqb_sym exponent). now destruct negative, negative0.
  - now destruct negative, negative0.
Qed.

Lemma float64_eqb_same (a : float64) : float64_eqb a a = true.
Proof.
  destruct a; simpl; rewrite ?Z.eqb_refl; now destruct negative.
Qed.

Lemma same_float_text_sym (a b : Q) : same_float_text a b = same_float_text b a.
Proof. apply float64_eqb_sym. Qed.

Lemma same_float_text_same (a : Q) : same_float_text a a = true.
Proof. apply float64_eqb_same. Qed.

Lemma pkey_eqb_sym (a b : pkey) :
  pkey_hashable a = true -> pkey_hashable b = true -> pkey_eqb a b = pkey_eqb b a.
Proof.
  destruct a as [[[c1 m1] t1] v1], b as [[[c2 m2] t2] v2]. simpl.
  intros Ha Hb.
  apply andb_prop in Ha as [Ha Ht1]. apply andb_prop in Ha as [Hc1 Hm1].
  apply andb_prop in Hb as [Hb Ht2]. apply andb_prop in Hb as [Hc2 Hm2].
  now rewrite (json_eqb_sym c1 c2), (json_eqb_sym m1 m2), (json_eqb_sym t1 t2),
    (same_float_text_sym v1 v2).
Qed.

Lemma pkey_eqb_same (a : pkey) : pkey_hashable a = true -> pkey_eqb a a = true.
Proof.
  destruct a as [[[c m] t] v]. simpl. intros Ha.
  apply andb_prop in Ha as [Ha Ht]. apply andb_prop in Ha as [Hc Hm].
  now rewrite !json_eqb_same, same_float_text_same.
Qed.

Lemma existsb_false_In {A : Type} (f : A -> bool) (l : list A) (x : A) :
  existsb f l = false -> In x l -> f x = false.
Proof.
  induction l as [|y l IH]; simpl; intros H Hin; [contradiction|].
  apply orb_false_elim in H as [Hy Hl].
  destruct Hin as [<-|Hin]; auto.
Qed.

(** ** Invariants of the pool *)


Lemma is_valid_category_In (c : string) :
  is_valid_category (JStr c) = true -> In c valid_categories.
Proof.
  unfold is_valid_category. intros H. apply existsb_exists in H as (x & Hin & Heq).
  apply String.eqb_eq in Heq. now subst.
Qed.

Lemma timeframe_ok_inv (v : json) :
  timeframe_ok v = true ->
  exists tf d, v = JStr tf /\ strptime tf = Some d /\
    (toordinal min_date <= toordinal d <= toordinal max_date)%Z.
Proof.
  destruct v; simpl; try discriminate.
  destruct (strptime s) as [d|] eqn:E; try discriminate.
  intros H. apply andb_prop in H as [H1 H2].
  unfold date_leb in *. apply Z.leb_le in H1, H2.
  exists s, d. auto.
Qed.

Lemma accepted_record_ok question crypto_data countries question' :
  validate_single_question question crypto_data countries = (true, question') ->
  record_ok question'.
Proof.
  intros H. apply validate_accept_fields in H.
  destruct H as (c & tf & m & v & text & Hc & Ht & _ & _ & _ & Hvalid & Htf & _).
  apply timeframe_ok_inv in Htf as (s & d & -> & Hd & Hrange).
  exists c, s, d. auto using is_valid_category_In.
Qed.

Lemma distinct_keys_snoc (pool : list json) (r : json) (k : pkey) :
  distinct_keys pool ->
  pool_key r = Some k ->
  (forall r' k', In r' pool -> pool_key r' = Some k' ->
     pkey_eqb k k' = false /\ pkey_eqb k' k = false) ->
  distinct_keys (pool ++ [r]).
Proof.
  intros Hd Hk Hnew i j r1 r2 k1 k2 Hij H1 H2 K1 K2.
  destruct (Nat.lt_ge_cases i (List.length pool)) as [Hi|Hi];
    destruct (Nat.lt_ge_cases j (List.length pool)) as [Hj|Hj].
  - rewrite nth_error_app1 in H1, H2 by assumption. eauto.
  - rewrite nth_error_app1 in H1 by assumption.
    rewrite nth_error_app2 in H2 by assumption.
    destruct (j - List.length pool) as [|n]; simpl in H2;
      [|destruct n; discriminate].
    injection H2 as <-. rewrite Hk in K2. injection K2 as <-.
    apply nth_error_In in H1. now apply (Hnew r1 k1).
  - rewrite nth_error_app2 in H1 by assumption.
    rewrite nth_error_app1 in H2 by assumption.
    destruct (i - List.length pool) as [|n]; simpl in H1;
      [|destruct n; discriminate].
    injection H1 as <-. rewrite Hk in K1. injection K1 as <-.
    apply nth_error_In in H2. now apply (Hnew r2 k2).
  - rewrite nth_error_app2 in H1, H2 by assumption.
    destruct (i - List.length pool) as [|n] eqn:Ei; simpl in H1;
      [|destruct n; discriminate].
    destruct (j - List.length pool) as [|n] eqn:Ej; simpl in H2;
      [|destruct n; discriminate].
    lia.
Qed.

Section PoolInvariants.

Variable crypto_data : crypto.
Variable allowed_countries : list string.
Variable pool_targets : counts.
Variable pool_size : nat.
Variable required_categories : list string.

Let candidate := process_candidate crypto_data allowed_countries pool_targets.
Let questions := process_questions crypto_data allowed_countries pool_targets.
Let loop := pool_loop crypto_data allowed_countries pool_targets pool_size
              required_categories.

(** A candidate leaves the pool as it is, or appends one record that
    passed the validator and whose key was not in [used_questions]. *)
Lemma process_candidate_cases (question : json) (st : pool_state) :
  question_pool (fst (candidate question st)) = question_pool st /\
  used_questions (fst (candidate question st)) = used_questions st
  \/
  exists question' k,
    validate_single_question question crypto_data allowed_countries = (true, question') /\
    pool_key question' = Some k /\
    pkey_hashable k = true /\
    existsb (pkey_eqb k) (used_questions st) = false /\
    question_pool (fst (candidate question st)) = question_pool st ++ [question'] /\
    used_questions (fst (candidate question st)) = k :: used_questions st.
Proof.
  unfold candidate, process_candidate.
  destruct (validate_single_question question crypto_data allowed_countries)
    as [ok question'] eqn:Hv.
  destruct ok; [|now left].
  destruct (get question' "category") as [[| | |category| |]|]; try now left.
  destruct (count_get (category_counts st) category) as [current|]; try now left.
  destruct (count_get pool_targets category) as [target|]; try now left.
  destruct (current <? target); try now left.
  destruct (pool_key question') as [k|] eqn:Hk; try now left.
  destruct (pkey_hashable k) eqn:Hh; simpl; try now left.
  destruct (existsb (pkey_eqb k) (used_questions st)) eqn:Hu; try now left.
  right. exists question', k.
  destruct (targets_reached _ _) as [[|]| |]; simpl; auto 10.
Qed.

Lemma process_candidate_inv (question : json) (st : pool_state) :
  pool_inv st -> pool_inv (fst (candidate question st)).
Proof.
  intros (Hok & Hkeys & Hdist).
  destruct (process_candidate_cases question st)
    as [[Hp Hu]|(question' & k & Hv & Hk & Hh & Hnew & Hp & Hu)];
    unfold pool_inv, keys_recorded; rewrite Hp, Hu.
  - auto.
  - split; [|split].
    + apply Forall_app. split; auto.
      constructor; eauto using accepted_record_ok.
    + intros r Hin. apply in_app_or in Hin as [Hin|[<-|[]]].
      * destruct (Hkeys r Hin) as (k' & ? & ? & ?). exists k'. simpl. auto.
      * exists k. simpl. auto.
    + apply distinct_keys_snoc with k; auto.
      intros r' k' Hin Hk'.
      destruct (Hkeys r' Hin) as (k0 & Hk0 & Hh0 & Hin0).
      rewrite Hk' in Hk0. injection Hk0 as <-.
      assert (pkey_eqb k k' = false) by eauto using existsb_false_In.
      split; auto. now rewrite pkey_eqb_sym.
Qed.

Lemma process_questions_inv (qs : list json) (st : pool_state) :
  pool_inv st -> pool_inv (questions qs st).
Proof.
  revert st. induction qs as [|q qs IH]; simpl; intros st Hst; auto.
  pose proof (process_candidate_inv q st Hst) as H.
  unfold candidate in H.
  destruct (process_candidate crypto_data allowed_countries pool_targets q st)
    as [st' stop].
  destruct stop; auto.
Qed.

Lemma attempt_inv (st : pool_state) : pool_inv st -> pool_inv (attempt st).
Proof. now intros H. Qed.

Lemma loop_tail_inv (ev : gen_event) (st : pool_state) :
  pool_inv st ->
  pool_inv (loop_tail crypto_data allowed_countries pool_targets ev st).
Proof.
  intros H. destruct ev; simpl; auto using attempt_inv.
  destruct (json_loads (clean_json_content content)); auto.
  apply attempt_inv. now apply process_questions_inv.
Qed.

Lemma pool_loop_inv (events : list gen_event) (st : pool_state) :
  pool_inv st -> pool_inv (fst (loop events st)).
Proof.
  revert st. induction events as [|ev events IH]; intros st H; simpl.
  - destruct (loop_condition pool_size st); auto.
    destruct (loop_head pool_targets required_categories st); auto.
  - destruct (loop_condition pool_size st); auto.
    destruct (loop_head pool_targets required_categories st); auto;
      apply IH; auto using loop_tail_inv, attempt_inv.
Qed.

Lemma initial_inv : pool_inv (initial_state required_categories).
Proof.
  repeat split; simpl.
  - constructor.
  - intros r [].
  - intros i j r1 r2 k1 k2 _ H. destruct i; discriminate.
Qed.


Lemma state_after_inv (events : list gen_event) (qs : list json) :
  pool_inv (state_after crypto_data allowed_countries pool_targets pool_size
              required_categories events qs).
Proof.
  apply process_questions_inv, pool_loop_inv, initial_inv.
Qed.

End PoolInvariants.

(** ** Accepted records (claims C5 and C6) *)

(** C6.  Every record of the pool, at every point of the accumulation, has
    a category of the fixed set of four, and a timeframe that [strptime]
    reads with ['%Y/%m/%d'] as a date between 2024-12-01 and 2025-06-30. *)
Theorem pool_records_in_window (crypto_data : crypto) (allowed_countries : list string)
  (pool_targets : counts) (pool_size : nat) (required_categories : list string)
  (events : list gen_event) (qs : list json) (r : json) :
  In r (question_pool (state_after crypto_data allowed_countries pool_targets pool_size
                         required_categories events qs)) ->
  record_ok r.
Proof.
  intros Hin.
  destruct (state_after_inv crypto_data allowed_countries pool_targets pool_size
              required_categories events qs) as (Hok & _ & _).
  rewrite Forall_forall in Hok. auto.
Qed.

Lemma pool_records_in_window_witness : record_ok sample_second.
Proof.
  apply (pool_records_in_window (btc_at 90000) ["USA"] sample_targets 200
           sample_categories sample_events [] sample_second).
  vm_compute. right. left. reflexivity.
Defined.

(** C6, where the sentence of the specification fails: [strptime] reads a
    day padded with a blank, so after the answer [padded_day_events] the
    pool holds a record with the timeframe [2025/03/ 5], which is a date of
    the window and is not of the form YYYY/MM/DD. *)
Lemma pool_timeframe_not_exact : ~ exact_date_claim.
Proof.
  intros H.
  destruct (H (btc_at 90000) ["USA"] sample_targets 200 sample_categories
              padded_day_events [] padded_day_record) as (timeframe & Ht & He).
  - vm_compute. left. reflexivity.
  - vm_compute in Ht. injection Ht as <-. vm_compute in He. discriminate He.
Qed.

(** C5.  At every point of the accumulation two records at different
    places of the pool have different keys (category, metric, timeframe,
    and the text of the target value as a float), and a candidate whose key
    is the key of a record of the pool leaves the pool as it is. *)
Theorem pool_keys_unique (crypto_data : crypto) (allowed_countries : list string)
  (pool_targets : counts) (pool_size : nat) (required_categories : list string)
  (events : list gen_event) (qs : list json) :
  let st := state_after crypto_data allowed_countries pool_targets pool_size
              required_categories events qs in
  (forall i j r1 r2 k1 k2,
      i <> j ->
      nth_error (question_pool st) i = Some r1 ->
      nth_error (question_pool st) j = Some r2 ->
      pool_key r1 = Some k1 -> pool_key r2 = Some k2 ->
      pkey_eqb k1 k2 = false /\ k1 <> k2) /\
  (forall question question' k r k',
      validate_single_question question crypto_data allowed_countries = (true, question') ->
      pool_key question' = Some k ->
      In r (question_pool st) -> pool_key r = Some k' -> pkey_eqb k k' = true ->
      question_pool (fst (process_candidate crypto_data allowed_countries pool_targets
                            question st))
      = question_pool st).
Proof.
  intros st.
  destruct (state_after_inv crypto_data allowed_countries pool_targets pool_size
              required_categories events qs) as (_ & Hkeys & Hdist).
  fold st in Hkeys, Hdist. split.
  - intros i j r1 r2 k1 k2 Hij H1 H2 K1 K2.
    assert (Hneq : pkey_eqb k1 k2 = false) by eauto.
    split; auto. intros ->.
    destruct (Hkeys r2 (nth_error_In _ _ H2)) as (k & Hk & Hh & _).
    rewrite K2 in Hk. injection Hk as <-.
    rewrite pkey_eqb_same in Hneq by assumption. discriminate.
  - intros question question' k r k' Hv Hk Hin Hk' Heq.
    destruct (process_candidate_cases crypto_data allowed_countries pool_targets question st)
      as [[Hp _]|(q2 & k2 & Hv2 & Hk2 & _ & Hnew & _)]; auto.
    rewrite Hv in Hv2. injection Hv2 as <-.
    rewrite Hk in Hk2. injection Hk2 as <-.
    destruct (Hkeys r Hin) as (k0 & Hk0 & _ & Hin0).
    rewrite Hk' in Hk0. injection Hk0 as <-.
    rewrite (existsb_false_In _ _ k' Hnew Hin0) in Heq. discriminate.
Qed.

Lemma pool_keys_unique_witness :
  (pkey_eqb (JStr "cryptocurrency", JStr "price_target", JStr "2025/03/31", 100000%Q)
            (JStr "cryptocurrency", JStr "price_target", JStr "2025/04/30", 120000%Q) = false
   /\ (JStr "cryptocurrency", JStr "price_target", JStr "2025/03/31", 100000%Q)
      <> (JStr "cryptocurrency", JStr "price_target", JStr "2025/04/30", 120000%Q))
  /\ question_pool (fst (process_candidate (btc_at 90000) ["USA"] sample_targets
                           scenario_record sample_state))
     = question_pool sample_state.
Proof.
  pose proof (pool_keys_unique (btc_at 90000) ["USA"] sample_targets 200
                sample_categories sample_events []) as [Hdist Hdup].
  split.
  - apply (Hdist 0 1 sample_first sample_second);
      [discriminate | vm_compute; reflexivity ..].
  - apply (Hdup scenario_record scenario_normalized
             (JStr "cryptocurrency", JStr "price_target", JStr "2025/03/31", 100000%Q)
             sample_first
             (JStr "cryptocurrency", JStr "price_target", JStr "2025/03/31", 100000%Q));
      [vm_compute; reflexivity | vm_compute; reflexivity
      | vm_compute; left; reflexivity | vm_compute; reflexivity ..].
Defined.

(** The key follows the text of the float.  The targets 0 and -0.0 are
    written ['0.0'] and ['-0.0']: both records are pooled.  The decimals 0.1
    and 0.10000000000000000001 are the same float, and so are 0 and 0.0: the
    second record is refused. *)
Lemma pool_keys_follow_float_text :
  List.length (change_pool ["0"; "-0.0"]) = 2 /\
  List.length (change_pool ["0.1"; "0.10000000000000000001"]) = 1 /\
  List.length (change_pool ["0"; "0.0"]) = 1 /\
  same_float_text 0 neg_zero = false.
Proof. repeat split; vm_compute; reflexivity. Qed.

(** ** The range of cryptocurrency targets (claims C2 and C7) *)

Lemma between_spec (lo v hi : Q) : between lo v hi = true -> (lo <= v <= hi)%Q.
Proof.
  unfold between, Qle_b. intros H. apply andb_prop in H as [H1 H2].
  split; now apply Qle_bool_iff.
Qed.

Lemma crypto_range_ok_spec (crypto_data : crypto) (text : string) (value : Q)
  (symbol : string) (data : crypto_entry) :
  crypto_range_ok crypto_data text value = true ->
  In (symbol, data) crypto_data ->
  str_in symbol text = true ->
  (min_price data <= value <= max_price data)%Q.
Proof.
  unfold crypto_range_ok. intros H Hin Hs.
  rewrite forallb_forall in H. specialize (H _ Hin). cbv beta iota in H.
  rewrite Hs in H. now apply between_spec.
Qed.

(** C7.  An accepted cryptocurrency record whose question contains a
    known symbol has its target, now a number, between half and twice the
    price of that symbol.  The record of scenario A is accepted at a price
    of 90000, with the target 100000.0, and rejected at a price of 40000. *)
Theorem accepted_crypto_in_range :
  (forall question crypto_data countries question' text symbol data,
      validate_single_question question crypto_data countries = (true, question') ->
      get question' "category" = Some (JStr "cryptocurrency") ->
      get question' "question" = Some (JStr text) ->
      In (symbol, data) crypto_data ->
      str_in symbol text = true ->
      exists value,
        get question' "target_value" = Some (JNum value) /\
        (c_price data * 0.5 <= value <= c_price data * 2.0)%Q) /\
  validate_single_question scenario_record (btc_at 90000) [] = (true, scenario_normalized) /\
  fst (validate_single_question scenario_record (btc_at 40000) []) = false.
Proof.
  split; [|split; vm_compute; reflexivity].
  intros question crypto_data countries question' text symbol data Hv Hc Ht Hin Hs.
  apply validate_accept_fields in Hv.
  destruct Hv as (c & tf & m & v & text' & Hc' & _ & _ & Hval & Ht' & _ & _ & Hrange & _).
  rewrite Hc in Hc'. injection Hc' as <-.
  rewrite Ht in Ht'. injection Ht' as <-.
  exists v. split; auto.
  unfold target_value_ok in Hrange.
  destruct crypto_data as [|entry rest]; [contradiction|].
  change (String.eqb "cryptocurrency" "cryptocurrency") with true in Hrange.
  cbn [List.length Nat.eqb negb andb] in Hrange.
  apply (crypto_range_ok_spec (entry :: rest) text v symbol data); auto.
Qed.

Lemma accepted_crypto_in_range_witness :
  exists value,
    get scenario_normalized "target_value" = Some (JNum value) /\
    (90000 * 0.5 <= value <= 90000 * 2.0)%Q.
Proof.
  apply (proj1 accepted_crypto_in_range scenario_record (btc_at 90000) [] scenario_normalized
           "Will Bitcoin (BTC) exceed 100000 by 2025/03/31?" "BTC" (Crypto "Bitcoin" 90000));
    [vm_compute; reflexivity | vm_compute; reflexivity | vm_compute; reflexivity
    | left; reflexivity | vm_compute; reflexivity].
Defined.

(** What [validate_question_for_pool] asks of a cryptocurrency record: an
    asset of [crypto_data] named in the question, and a target between half
    and twice its price. *)
Lemma crypto_ok_spec (crypto_data : crypto) (text : string) (value : Q) :
  crypto_ok crypto_data (JStr text) value = Some true ->
  exists symbol data,
    In (symbol, data) crypto_data /\
    (str_in symbol text = true \/ str_in (c_name data) text = true) /\
    (min_price data <= value <= max_price data)%Q.
Proof.
  induction crypto_data as [|[symbol data] rest IH]; [discriminate|].
  cbn [crypto_ok contains].
  destruct (str_in symbol text) eqn:Hs.
  - intros H. injection H as H. exists symbol, data.
    split; [now left|]. auto using between_spec.
  - destruct (str_in (c_name data) text) eqn:Hn.
    + intros H. injection H as H. exists symbol, data.
      split; [now left|]. auto using between_spec.
    + intros H. destruct (IH H) as (s & d & Hin & Hname & Hr).
      exists s, d. split; [now right|]. auto.
Qed.

Lemma pool_profile_crypto (q : dict) (used : list json) (crypto_data : crypto)
  (text : string) :
  dict_get q "category" = Some (JStr "cryptocurrency") ->
  dict_get q "question" = Some (JStr text) ->
  validate_question_for_pool (JObj q) used crypto_data = true ->
  exists symbol data target value,
    In (symbol, data) crypto_data /\
    (str_in symbol text = true \/ str_in (c_name data) text = true) /\
    dict_get q "target_value" = Some target /\ pool_value target = Some value /\
    (min_price data <= value <= max_price data)%Q.
Proof.
  unfold validate_question_for_pool. intros Hc Ht. rewrite Hc, Ht.
  destruct (dict_get q "timeframe") as [tf|]; try discriminate.
  destruct (dict_get q "metric") as [m|]; try discriminate.
  destruct (dict_get q "target_value") as [target|]; try discriminate.
  cbn [hashable negb].
  destruct (existsb _ used); try discriminate.
  destruct (negb (timeframe_ok tf)); try discriminate.
  destruct m; try discriminate.
  destruct (pool_value target) as [value|] eqn:Hv; try discriminate.
  change (json_eqb (JStr "cryptocurrency") (JStr "economic_indicator")) with false.
  change (json_eqb (JStr "cryptocurrency") (JStr "cryptocurrency")) with true.
  cbv iota.
  destruct (crypto_ok crypto_data (JStr text) value) as [[|]|] eqn:Hok; try discriminate.
  intros _. apply crypto_ok_spec in Hok as (symbol & data & Hin & Hname & Hr).
  exists symbol, data, target, value. auto.
Qed.

(** C2.  The validator the pool calls accepts a cryptocurrency record whose
    question names no known asset; [validate_question_for_pool] rejects the
    same record. *)
Theorem unknown_coin_accepted :
  fst (validate_single_question unknown_coin_record (btc_at 90000) []) = true /\
  validate_question_for_pool unknown_coin_record [] (btc_at 90000) = false.
Proof. split; vm_compute; reflexivity. Qed.

(** ** Validation changes the record it rejects (claim C9) *)

(** C9.  There is a record that [validate_single_question] rejects and
    whose question and target value are not, after the call, what was
    passed in. *)
Theorem rejection_leaves_changes :
  exists question crypto_data countries,
    let result := validate_single_question question crypto_data countries in
    fst result = false /\
    get (snd result) "question" <> get question "question" /\
    get (snd result) "target_value" <> get question "target_value" /\
    get (snd result) "question"
      = Some (JStr "Will protests at Apple (AAPL.US) stores in USA exceed 1000 by 2025/03/31?") /\
    get (snd result) "target_value" = Some (JNum 1000).
Proof.
  exists rejected_record, (btc_at 90000), ["USA"].
  cbv zeta.
  repeat split; try (vm_compute; reflexivity); vm_compute; intros H; discriminate H.
Qed.

(** ** The caller's list of categories (claim C10) *)

Lemma remove_first_split (x : string) (l : list string) :
  In x l ->
  exists before after,
    l = before ++ x :: after /\ ~ In x before /\ remove_first x l = before ++ after.
Proof.
  induction l as [|y l IH]; intros Hin; [contradiction|].
  simpl. destruct (String.eqb x y) eqn:E.
  - apply String.eqb_eq in E. subst y. exists [], l. auto.
  - apply String.eqb_neq in E.
    destruct Hin as [->|Hin]; [congruence|].
    destruct (IH Hin) as (before & after & -> & Hnot & Hrem).
    exists (y :: before), after. simpl. rewrite Hrem.
    repeat split; auto. intros [->|H]; auto.
Qed.

Lemma generate_questions_pool_categories (fuel : nat) (events : list gen_event)
  (allowed_countries : list string) (crypto_data : crypto) (num_questions pool_size : nat)
  (required_categories : list string) (category_targets : option counts) :
  fst (generate_questions_pool fuel events allowed_countries crypto_data num_questions
         pool_size required_categories category_targets)
  = checked_categories allowed_countries required_categories.
Proof.
  unfold generate_questions_pool.
  destruct (checked_categories allowed_countries required_categories) as [|c cs]; auto.
  destruct (pool_loop _ _ _ _ _ _ _) as [st ended].
  now destruct ended.
Qed.

(** C10.  With no allowed country and ['social_events'] among the required
    categories, the call leaves the caller's list without the first
    ['social_events']; what stood before and after it stays, in order. *)
Theorem social_events_removed (fuel : nat) (events : list gen_event) (crypto_data : crypto)
  (num_questions pool_size : nat) (required_categories : list string)
  (category_targets : option counts) :
  In "social_events" required_categories ->
  exists before after,
    required_categories = before ++ "social_events" :: after /\
    ~ In "social_events" before /\
    fst (generate_questions_pool fuel events [] crypto_data num_questions pool_size
           required_categories category_targets)
    = before ++ after.
Proof.
  intros Hin. rewrite generate_questions_pool_categories.
  unfold checked_categories.
  assert (existsb (String.eqb "social_events") required_categories = true) as ->.
  { apply existsb_exists. exists "social_events".
    split; [assumption | apply String.eqb_refl]. }
  now apply remove_first_split.
Qed.

Lemma social_events_removed_witness :
  exists before after,
    valid_categories = before ++ "social_events" :: after /\
    ~ In "social_events" before /\
    fst (generate_questions_pool 10 sample_events [] (btc_at 90000) 4 200
           valid_categories None)
    = before ++ after.
Proof.
  apply (social_events_removed 10 sample_events (btc_at 90000) 4 200 valid_categories None).
  right. left. reflexivity.
Defined.

(** ** Quotas of the two stages (claim C4) *)

Lemma count_all_from (cats : list string) (v : nat) (cat : string) (d : counts) :
  In cat cats \/ count_get d cat = Some v ->
  count_get (fold_left (fun d c => count_set d c v) cats d) cat = Some v.
Proof.
  revert d. induction cats as [|c cats IH]; intros d H; simpl.
  - destruct H as [[]|H]; auto.
  - apply IH. destruct (string_dec c cat) as [->|Hne].
    + right. apply count_get_set_same.
    + destruct H as [[->|H]|H]; [congruence | now left |].
      right. now rewrite count_get_set_other.
Qed.

Lemma count_get_count_all (cats : list string) (v : nat) (cat : string) :
  In cat cats -> count_get (count_all cats v) cat = Some v.
Proof. intros H. apply count_all_from. now left. Qed.

Lemma count_get_pool_targets (d : counts) (cat : string) :
  count_get (pool_targets_of d) cat = option_map (fun t => t * 4) (count_get d cat).
Proof.
  induction d as [|[k v] d IH]; simpl; auto.
  now destruct (String.eqb cat k).
Qed.

Lemma pool_quota_default (num_questions : nat) (cats : list string) (cat : string) :
  In cat cats ->
  pool_quota num_questions cats cat = Some (4 * (num_questions / List.length cats)).
Proof.
  intros H. unfold pool_quota, default_targets.
  rewrite count_get_pool_targets, count_get_count_all by assumption.
  simpl. f_equal. lia.
Qed.

Lemma final_targets_from_sum (g : groups) (tpc extra : nat) (cats : list string) :
  let targets := final_targets_from g tpc extra cats in
  list_sum (map snd targets) = tpc * List.length targets + Nat.min extra (List.length targets).
Proof.
  revert extra. induction cats as [|c cats IH]; intros extra; simpl.
  - lia.
  - destruct (in_groups g c); [|apply IH].
    simpl. rewrite IH. unfold target_count, next_extra.
    destruct extra as [|e]; simpl; lia.
Qed.

Lemma final_targets_from_nth (g : groups) (tpc extra : nat) (cats : list string) (j : nat) :
  j < List.length (final_targets_from g tpc extra cats) ->
  nth j (map snd (final_targets_from g tpc extra cats)) 0
  = tpc + (if j <? extra then 1 else 0).
Proof.
  revert extra j. induction cats as [|c cats IH]; intros extra j Hj; simpl in *; [lia|].
  destruct (in_groups g c); [|now apply IH].
  destruct j as [|j]; simpl in *.
  - reflexivity.
  - rewrite IH by lia. unfold next_extra.
    destruct extra as [|e]; simpl; auto.
    rewrite Nat.sub_0_r. reflexivity.
Qed.

Lemma final_targets_from_categories (g : groups) (tpc extra : nat) (cats : list string) :
  map fst (final_targets_from g tpc extra cats) = filter (in_groups g) cats.
Proof.
  revert extra. induction cats as [|c cats IH]; intros extra; simpl; [reflexivity|].
  destruct (in_groups g c); simpl; now rewrite IH.
Qed.

Lemma filter_all {A : Type} (f : A -> bool) (l : list A) :
  (forall x, In x l -> f x = true) -> filter f l = l.
Proof.
  induction l as [|x l IH]; simpl; intros H; [reflexivity|].
  rewrite (H x) by now left. f_equal. auto.
Qed.

(** The first loop calls [select_diverse_category_questions] with the
    targets of [final_targets_from], whatever the pool. *)
Lemma first_pass_targets (fuel : nat) (g : groups) (tpc : nat) (cats : list string)
  (extra : nat) (st : selection) :
  first_pass fuel g tpc cats extra st
  = first_pass_with fuel g (final_targets_from g tpc extra cats) st.
Proof.
  revert extra st. induction cats as [|c cats IH]; intros extra st; simpl; auto.
  unfold in_groups. destruct (groups_get g (JStr c)) as [qs|] eqn:E; [|apply IH].
  simpl. rewrite E.
  destruct (select_category fuel c qs (target_count tpc extra) st) as [st'| |]; simpl; auto.
Qed.

(** C4, as the code has it.  Without [category_targets] the quota of the
    pool stage is four times the integer quotient of the requested total by
    the number of categories, for every category alike.  The final targets
    are those the first loop of [select_diverse_questions] selects with
    ([first_pass_with] is that loop with the targets handed over): they go
    to the categories that have questions in the pool, in the order of the
    list, and the place of a category among these, not among all, decides:
    the quotient, plus one as far as the remainder goes.  They sum
    to the requested total when every category has questions in the pool.
    So the quota of the pool stage is four times the final target for the
    categories after the remainder. *)
Theorem quotas_by_stage (g : groups) (num_questions : nat) (required_categories : list string) :
  required_categories <> [] ->
  let k := List.length required_categories in
  let targets := final_targets g num_questions required_categories in
  (forall cat, In cat required_categories ->
     pool_quota num_questions required_categories cat = Some (4 * (num_questions / k))) /\
  (forall fuel st,
     first_pass fuel g (num_questions / k) required_categories (num_questions mod k) st
     = first_pass_with fuel g targets st) /\
  (forall fuel pool,
     by_category pool [] = Returns g ->
     select_diverse_questions fuel pool num_questions required_categories
     = (let* st := first_pass_with fuel g targets ([], []) in
        let* st := fill_loop fuel g num_questions required_categories st in
        Returns (firstn num_questions (fst st)))) /\
  map fst targets = filter (in_groups g) required_categories /\
  (forall j, j < List.length targets ->
     nth j (map snd targets) 0
     = num_questions / k + (if j <? num_questions mod k then 1 else 0)) /\
  list_sum (map snd targets)
  = num_questions / k * List.length targets
    + Nat.min (num_questions mod k) (List.length targets) /\
  ((forall cat, In cat required_categories -> in_groups g cat = true) ->
   list_sum (map snd targets) = num_questions) /\
  (forall j cat target,
     nth_error targets j = Some (cat, target) -> num_questions mod k <= j ->
     pool_quota num_questions required_categories cat = Some (4 * target)).
Proof.
  intros Hne k targets.
  assert (Hk : k <> 0).
  { unfold k. destruct required_categories; simpl; congruence. }
  assert (Hcats : map fst targets = filter (in_groups g) required_categories)
    by apply final_targets_from_categories.
  assert (Hnth : forall j, j < List.length targets ->
            nth j (map snd targets) 0
            = num_questions / k + (if j <? num_questions mod k then 1 else 0)).
  { intros j Hj. now apply final_targets_from_nth. }
  assert (Hsum : list_sum (map snd targets)
                 = num_questions / k * List.length targets
                   + Nat.min (num_questions mod k) (List.length targets))
    by apply final_targets_from_sum.
  split; [|split; [|split; [|split; [|split; [|split; [|split]]]]]].
  - intros cat Hin. now apply pool_quota_default.
  - intros fuel st. apply first_pass_targets.
  - intros fuel pool Hg. unfold select_diverse_questions. rewrite Hg. cbn [bind].
    destruct required_categories as [|c cs]; [congruence|].
    now rewrite first_pass_targets.
  - exact Hcats.
  - exact Hnth.
  - exact Hsum.
  - intros Hall. rewrite Hsum.
    assert (Hlen : List.length targets = k).
    { rewrite <- (length_map fst), Hcats, filter_all by assumption. reflexivity. }
    rewrite Hlen.
    pose proof (Nat.mod_upper_bound num_questions k Hk).
    rewrite Nat.min_l by lia.
    pose proof (Nat.div_mod_eq num_questions k). lia.
  - intros j cat target Hj Hle.
    assert (Hlt : j < List.length targets) by (apply nth_error_Some; congruence).
    assert (Hin : In cat required_categories).
    { assert (In cat (map fst targets)).
      { apply in_map_iff. exists (cat, target). split; [reflexivity|].
        eapply nth_error_In; eassumption. }
      rewrite Hcats in H. now apply filter_In in H. }
    assert (Ht : target = num_questions / k).
    { specialize (Hnth j Hlt).
      rewrite (nth_indep _ 0 (snd (cat, target))) in Hnth by now rewrite length_map.
      rewrite map_nth in Hnth. rewrite (nth_error_nth _ _ _ Hj) in Hnth.
      destruct (j <? num_questions mod k) eqn:E; [apply Nat.ltb_lt in E; lia|].
      simpl in Hnth. lia. }
    subst target. now apply pool_quota_default.
Qed.

Lemma quotas_by_stage_witness :
  map fst (final_targets partial_groups 5 valid_categories)
  = filter (in_groups partial_groups) valid_categories /\
  nth 0 (map snd (final_targets partial_groups 5 valid_categories)) 0
  = 5 / 4 + (if 0 <? 5 mod 4 then 1 else 0) /\
  pool_quota 5 valid_categories "cryptocurrency" = Some (4 * 1).
Proof.
  assert (Hne : valid_categories <> []) by discriminate.
  destruct (quotas_by_stage partial_groups 5 valid_categories Hne)
    as (_ & _ & _ & Hcats & Hnth & _ & _ & Hquota).
  split; [exact Hcats|]. split.
  - apply (Hnth 0). vm_compute. lia.
  - apply (Hquota 1 "cryptocurrency" 1).
    + reflexivity.
    + vm_compute. lia.
Defined.

(** The sentence of the specification fails for five questions over the
    four categories, also when the pool has questions of each of them: the
    first category has the pool quota 4 and the final target 2. *)
Lemma quota_claim_fails : ~ quota_claim full_groups 5 valid_categories.
Proof.
  intros [H _]. specialize (H "economic_indicator" 2).
  assert (Hin : In ("economic_indicator", 2) (final_targets full_groups 5 valid_categories))
    by (vm_compute; auto).
  specialize (H Hin). vm_compute in H. discriminate H.
Qed.

(** ** The selector on a short pool (claim C1) *)

(** The selector never returns more than was asked for. *)
Lemma select_diverse_questions_length (fuel : nat) (pool : list json) (num_questions : nat)
  (required_categories : list string) (selected : list json) :
  select_diverse_questions fuel pool num_questions required_categories = Returns selected ->
  List.length selected <= num_questions.
Proof.
  unfold select_diverse_questions.
  destruct (by_category pool []) as [g| |]; simpl; try discriminate.
  destruct required_categories as [|c cs]; try discriminate.
  destruct (first_pass _ _ _ _ _ _) as [st| |]; simpl; try discriminate.
  destruct (fill_loop _ _ _ _ _) as [st'| |]; simpl; try discriminate.
  intros H. injection H as <-. rewrite length_firstn. lia.
Qed.

(** A run of the [for] loop that leaves the selection as it is, while the
    selection is short, repeats for ever. *)
Lemma fill_loop_stuck (g : groups) (num_questions : nat) (required_categories : list string)
  (st : selection) :
  fill_pass g num_questions required_categories st = Returns st ->
  List.length (fst st) < num_questions ->
  forall fuel, fill_loop fuel g num_questions required_categories st = OutOfFuel.
Proof.
  intros Hpass Hshort fuel. apply Nat.ltb_lt in Hshort.
  induction fuel as [|fuel IH]; simpl; rewrite Hshort; auto.
  rewrite Hpass. simpl. exact IH.
Qed.

Lemma fill_pass_no_groups (num_questions : nat) (required_categories : list string)
  (st : selection) :
  fill_pass [] num_questions required_categories st = Returns st.
Proof.
  induction required_categories as [|c cs IH]; simpl; auto.
  destruct (num_questions <=? List.length (fst st)); auto.
Qed.

Lemma first_pass_no_groups (fuel tpc : nat) (required_categories : list string)
  (extra : nat) (st : selection) :
  first_pass fuel [] tpc required_categories extra st = Returns st.
Proof.
  revert extra. induction required_categories as [|c cs IH]; intros extra; simpl; auto.
Qed.

(** On an empty pool the selector does not return, whatever the fuel, as
    soon as one question is asked for. *)
Lemma select_empty_pool (fuel : nat) (num_questions : nat)
  (required_categories : list string) :
  0 < num_questions -> required_categories <> [] ->
  select_diverse_questions fuel [] num_questions required_categories = OutOfFuel.
Proof.
  intros Hn Hne. unfold select_diverse_questions. simpl.
  destruct required_categories as [|c cs]; [congruence|].
  rewrite first_pass_no_groups. cbn [bind].
  rewrite fill_loop_stuck; auto using fill_pass_no_groups.
Qed.

Lemma pool_loop_leaves (crypto_data : crypto) (allowed_countries : list string)
  (pool_targets : counts) (pool_size : nat) (required_categories : list string)
  (events : list gen_event) (st : pool_state) :
  loop_head pool_targets required_categories st = Leave ->
  pool_loop crypto_data allowed_countries pool_targets pool_size required_categories
    events st = (st, true).
Proof.
  intros H. destruct events; simpl; rewrite H; now destruct (loop_condition pool_size st).
Qed.

Lemma short_pool_first_pass (fuel : nat) :
  first_pass fuel [(JStr "cryptocurrency", short_pool)] 2 ["cryptocurrency"] 0 ([], [])
  = Returns short_selection.
Proof. destruct fuel; vm_compute; reflexivity. Qed.

(** C1, at the inputs where the code fails.  The selector does not return,
    however much fuel it gets: on the empty pool with one question asked
    for; on a pool of one record with two questions asked for; and, called
    by [generate_questions_pool] for three questions over the four
    categories, where every quota of the pool is 0 and the pool stays
    empty. *)
Theorem selector_loops_on_short_pool :
  (forall fuel, select_diverse_questions fuel [] 1 ["economic_indicator"] = OutOfFuel) /\
  (forall fuel, select_diverse_questions fuel short_pool 2 ["cryptocurrency"] = OutOfFuel) /\
  (forall fuel events,
      snd (generate_questions_pool fuel events ["USA"] (btc_at 90000) 3 200
             valid_categories None) = OutOfFuel).
Proof.
  split; [|split].
  - intros fuel. apply select_empty_pool; [lia | discriminate].
  - intros fuel. unfold select_diverse_questions.
    change (by_category short_pool []) with (Returns [(JStr "cryptocurrency", short_pool)]).
    cbn [bind List.length Nat.div Nat.modulo].
    change (2 / 1) with 2. change (2 mod 1) with 0.
    rewrite short_pool_first_pass. cbn [bind].
    rewrite fill_loop_stuck; [reflexivity | vm_compute; reflexivity | vm_compute; lia].
  - intros fuel events. unfold generate_questions_pool.
    change (checked_categories ["USA"] valid_categories) with valid_categories.
    unfold valid_categories at 1. cbv iota.
    rewrite pool_loop_leaves by (vm_compute; reflexivity).
    cbn [snd question_pool initial_state].
    apply select_empty_pool; [lia | discriminate].
Qed.

(** ** The repairer (claims C3 and C8) *)







(** C8, at the input where the code fails.  On the truncated record of
    scenario E the repairer answers ['[]'] and [repair_json] answers
    [None]: the text has no closing brace. *)
Theorem truncated_record_lost :
  endswith truncated_text open_source = true /\
  clean_json_content truncated_text = "[]" /\
  repair_json truncated_text = None.
Proof. repeat split; vm_compute; reflexivity. Qed.

(** ** More on the accumulation loop *)

Lemma count_all_values (cats : list string) (v : nat) (cat : string) (d : counts) (n : nat) :
  count_get (fold_left (fun d c => count_set d c v) cats d) cat = Some n ->
  n = v \/ count_get d cat = Some n.
Proof.
  revert d. induction cats as [|c cats IH]; intros d H; simpl in H; auto.
  apply IH in H as [H|H]; auto.
  destruct (string_dec c cat) as [->|Hne].
  - rewrite count_get_set_same in H. injection H as <-. now left.
  - rewrite count_get_set_other in H by assumption. now right.
Qed.

Lemma count_category_app (c : string) (pool : list json) (r : json) :
  count_category c (pool ++ [r])
  = count_category c pool + (if has_category c r then 1 else 0).
Proof.
  unfold count_category. rewrite filter_app, length_app. simpl.
  now destruct (has_category c r).
Qed.

(** A candidate leaves the state as it is, or appends a record of a
    category that was below its quota, and counts it. *)
Lemma process_candidate_step (crypto_data : crypto) (allowed_countries : list string)
  (pool_targets : counts) (question : json) (st : pool_state) :
  fst (process_candidate crypto_data allowed_countries pool_targets question st) = st \/
  exists question' k category current target,
    validate_single_question question crypto_data allowed_countries = (true, question') /\
    get question' "category" = Some (JStr category) /\
    count_get (category_counts st) category = Some current /\
    count_get pool_targets category = Some target /\
    current < target /\
    pool_key question' = Some k /\
    fst (process_candidate crypto_data allowed_countries pool_targets question st)
    = PoolState (question_pool st ++ [question']) (k :: used_questions st)
        (count_set (category_counts st) category (current + 1)) (total_attempts st).
Proof.
  unfold process_candidate.
  destruct (validate_single_question question crypto_data allowed_countries)
    as [ok question'] eqn:Hv.
  destruct ok; [|now left].
  destruct (get question' "category") as [[| | |category| |]|] eqn:Hc; try now left.
  destruct (count_get (category_counts st) category) as [current|] eqn:Hn; try now left.
  destruct (count_get pool_targets category) as [target|] eqn:Ht; try now left.
  destruct (current <? target) eqn:Hlt; try now left.
  destruct (pool_key question') as [k|] eqn:Hk; try now left.
  destruct (pkey_hashable k); simpl; try now left.
  destruct (existsb (pkey_eqb k) (used_questions st)); try now left.
  right. exists question', k, category, current, target.
  apply Nat.ltb_lt in Hlt.
  destruct (targets_reached _ _) as [[|]| |]; simpl; auto 10.
Qed.

Lemma process_candidate_quota (crypto_data : crypto) (allowed_countries : list string)
  (pool_targets : counts) (required_categories : list string) (question : json)
  (st : pool_state) :
  quota_inv pool_targets required_categories st ->
  quota_inv pool_targets required_categories
    (fst (process_candidate crypto_data allowed_countries pool_targets question st)).
Proof.
  intros [Hcount Hkeys].
  destruct (process_candidate_step crypto_data allowed_countries pool_targets question st)
    as [->|(q' & k & category & current & target & _ & Hc & Hn & Ht & Hlt & _ & ->)].
  - now split.
  - split; simpl.
    + intros cat n Hget.
      rewrite count_category_app. unfold has_category. rewrite Hc. simpl json_eqb.
      destruct (string_dec category cat) as [<-|Hne].
      * rewrite count_get_set_same in Hget. injection Hget as <-.
        rewrite String.eqb_refl.
        destruct (Hcount category current Hn) as [-> _].
        split; [reflexivity|]. intros t Ht'. rewrite Ht in Ht'. injection Ht' as <-. lia.
      * rewrite count_get_set_other in Hget by assumption.
        apply String.eqb_neq in Hne. rewrite Hne, Nat.add_0_r. auto.
    + intros cat Hin. destruct (string_dec category cat) as [<-|Hne].
      * rewrite count_get_set_same. discriminate.
      * rewrite count_get_set_other by assumption. auto.
Qed.

Lemma process_questions_quota (crypto_data : crypto) (allowed_countries : list string)
  (pool_targets : counts) (required_categories : list string) (qs : list json)
  (st : pool_state) :
  quota_inv pool_targets required_categories st ->
  quota_inv pool_targets required_categories
    (process_questions crypto_data allowed_countries pool_targets qs st).
Proof.
  revert st. induction qs as [|q qs IH]; simpl; intros st Hst; auto.
  pose proof (process_candidate_quota crypto_data allowed_countries pool_targets
                required_categories q st Hst) as H.
  destruct (process_candidate crypto_data allowed_countries pool_targets q st)
    as [st' stop].
  destruct stop; auto.
Qed.

Lemma loop_tail_quota (crypto_data : crypto) (allowed_countries : list string)
  (pool_targets : counts) (required_categories : list string) (ev : gen_event)
  (st : pool_state) :
  quota_inv pool_targets required_categories st ->
  quota_inv pool_targets required_categories
    (loop_tail crypto_data allowed_countries pool_targets ev st).
Proof.
  intros H. destruct ev; simpl; auto.
  destruct (json_loads (clean_json_content content)); auto.
  apply (process_questions_quota crypto_data allowed_countries pool_targets
           required_categories _ st H).
Qed.

Lemma pool_loop_quota (crypto_data : crypto) (allowed_countries : list string)
  (pool_targets : counts) (pool_size : nat) (required_categories : list string)
  (events : list gen_event) (st : pool_state) :
  quota_inv pool_targets required_categories st ->
  quota_inv pool_targets required_categories
    (fst (pool_loop crypto_data allowed_countries pool_targets pool_size
            required_categories events st)).
Proof.
  revert st. induction events as [|ev events IH]; intros st H; simpl.
  - destruct (loop_condition pool_size st); auto.
    destruct (loop_head pool_targets required_categories st); auto.
  - destruct (loop_condition pool_size st); auto.
    destruct (loop_head pool_targets required_categories st); auto;
      apply IH; auto using loop_tail_quota.
Qed.

Lemma initial_quota (pool_targets : counts) (required_categories : list string) :
  quota_inv pool_targets required_categories (initial_state required_categories).
Proof.
  split; simpl.
  - intros cat n H. apply count_all_values in H as [->|H]; [|discriminate].
    split; [reflexivity | lia].
  - intros cat Hin. rewrite (count_get_count_all _ 0 cat Hin). discriminate.
Qed.

(** X1.  At every point of the accumulation the pool holds, of each
    required category that has a quota, no more records than the quota. *)
Theorem pool_within_quota (crypto_data : crypto) (allowed_countries : list string)
  (pool_targets : counts) (pool_size : nat) (required_categories : list string)
  (events : list gen_event) (qs : list json) (cat : string) (t : nat) :
  In cat required_categories ->
  count_get pool_targets cat = Some t ->
  count_category cat
    (question_pool (state_after crypto_data allowed_countries pool_targets pool_size
                      required_categories events qs)) <= t.
Proof.
  intros Hin Ht.
  assert (Hinv : quota_inv pool_targets required_categories
                   (state_after crypto_data allowed_countries pool_targets pool_size
                      required_categories events qs)).
  { apply process_questions_quota, pool_loop_quota, initial_quota. }
  destruct Hinv as [Hcount Hkeys].
  destruct (count_get (category_counts
              (state_after crypto_data allowed_countries pool_targets pool_size
                 required_categories events qs)) cat) as [n|] eqn:Hn.
  - destruct (Hcount cat n Hn) as [<- Hle]. auto.
  - exfalso. now apply (Hkeys cat Hin).
Qed.

Lemma pool_within_quota_witness :
  count_category "cryptocurrency" (question_pool sample_state) <= 4.
Proof.
  apply (pool_within_quota (btc_at 90000) ["USA"] sample_targets 200 sample_categories
           sample_events [] "cryptocurrency" 4).
  - right. left. reflexivity.
  - vm_compute. reflexivity.
Defined.

(** *** The pool only grows *)

Lemma process_questions_extends (crypto_data : crypto) (allowed_countries : list string)
  (pool_targets : counts) (qs : list json) (st : pool_state) :
  exists added,
    question_pool (process_questions crypto_data allowed_countries pool_targets qs st)
    = question_pool st ++ added /\
    total_attempts (process_questions crypto_data allowed_countries pool_targets qs st)
    = total_attempts st.
Proof.
  revert st. induction qs as [|q qs IH]; intros st; simpl.
  - exists []. now rewrite app_nil_r.
  - pose proof (process_candidate_step crypto_data allowed_countries pool_targets q st) as H.
    destruct (process_candidate crypto_data allowed_countries pool_targets q st)
      as [st' stop]. simpl in H.
    assert (Hst' : exists added, question_pool st' = question_pool st ++ added /\
                     total_attempts st' = total_attempts st).
    { destruct H as [->|(q' & k & c & n & t & _ & _ & _ & _ & _ & _ & ->)].
      - exists []. now rewrite app_nil_r.
      - exists [q']. auto. }
    destruct Hst' as (a1 & Hp1 & Ha1).
    destruct stop; [eauto|].
    destruct (IH st') as (a2 & Hp2 & Ha2).
    exists (a1 ++ a2). rewrite Hp2, Hp1, Ha2, Ha1, app_assoc. auto.
Qed.

Lemma loop_tail_extends (crypto_data : crypto) (allowed_countries : list string)
  (pool_targets : counts) (ev : gen_event) (st : pool_state) :
  exists added,
    question_pool (loop_tail crypto_data allowed_countries pool_targets ev st)
    = question_pool st ++ added /\
    total_attempts (loop_tail crypto_data allowed_countries pool_targets ev st)
    <= total_attempts st + 1.
Proof.
  destruct ev; simpl.
  - exists []. rewrite app_nil_r. split; [reflexivity | lia].
  - exists []. rewrite app_nil_r. split; [reflexivity | lia].
  - destruct (json_loads (clean_json_content content)) as [parsed|].
    + destruct (process_questions_extends crypto_data allowed_countries pool_targets
                  (match parsed with JArr l => l | _ => [parsed] end) st)
        as (added & Hp & Ha).
      exists added. simpl. rewrite Hp, Ha. split; [reflexivity | lia].
    + exists []. rewrite app_nil_r. split; [reflexivity | lia].
Qed.

Lemma pool_loop_extends (crypto_data : crypto) (allowed_countries : list string)
  (pool_targets : counts) (pool_size : nat) (required_categories : list string)
  (events : list gen_event) (st : pool_state) :
  total_attempts st <= max_attempts ->
  exists added,
    question_pool (fst (pool_loop crypto_data allowed_countries pool_targets pool_size
                          required_categories events st))
    = question_pool st ++ added /\
    total_attempts (fst (pool_loop crypto_data allowed_countries pool_targets pool_size
                           required_categories events st)) <= max_attempts.
Proof.
  revert st. induction events as [|ev events IH]; intros st Hst; simpl.
  - exists []. rewrite app_nil_r.
    destruct (loop_condition pool_size st); auto.
    destruct (loop_head pool_targets required_categories st); auto.
  - destruct (loop_condition pool_size st) eqn:Hc;
      [|exists []; rewrite app_nil_r; auto].
    apply andb_prop in Hc as [_ Hlt]. apply Nat.ltb_lt in Hlt.
    destruct (loop_head pool_targets required_categories st);
      [exists []; rewrite app_nil_r; auto | |].
    + destruct (loop_tail_extends crypto_data allowed_countries pool_targets ev st)
        as (a1 & Hp1 & Ha1).
      destruct (IH (loop_tail crypto_data allowed_countries pool_targets ev st))
        as (a2 & Hp2 & Ha2); [lia|].
      exists (a1 ++ a2). rewrite Hp2, Hp1, app_assoc. auto.
    + destruct (IH (attempt st)) as (a2 & Hp2 & Ha2); [simpl; lia|].
      exists a2. auto.
Qed.

Lemma pool_loop_app (crypto_data : crypto) (allowed_countries : list string)
  (pool_targets : counts) (pool_size : nat) (required_categories : list string)
  (events more : list gen_event) (st : pool_state) :
  pool_loop crypto_data allowed_countries pool_targets pool_size required_categories
    (events ++ more) st
  = let (st', ended) :=
      pool_loop crypto_data allowed_countries pool_targets pool_size required_categories
        events st in
    if ended then (st', true)
    else pool_loop crypto_data allowed_countries pool_targets pool_size required_categories
           more st'.
Proof.
  revert st. induction events as [|ev events IH]; intros st.
  - simpl app.
    destruct (loop_condition pool_size st) eqn:Hc;
      [destruct (loop_head pool_targets required_categories st) eqn:Hh|];
      destruct more as [|m more]; simpl; repeat (rewrite Hc || rewrite Hh); reflexivity.
  - simpl. destruct (loop_condition pool_size st); auto.
    destruct (loop_head pool_targets required_categories st); auto.
Qed.

(** X2.  The pool is append-only: what the loop holds after more answers
    of the driver is what it held before, followed by the records added
    since.  And the counter of attempts never passes 3000. *)
Theorem pool_append_only (crypto_data : crypto) (allowed_countries : list string)
  (pool_targets : counts) (pool_size : nat) (required_categories : list string)
  (events more : list gen_event) :
  let run evs :=
    fst (pool_loop crypto_data allowed_countries pool_targets pool_size required_categories
           evs (initial_state required_categories)) in
  (exists added, question_pool (run (events ++ more)) = question_pool (run events) ++ added) /\
  total_attempts (run events) <= 3000.
Proof.
  intros run. unfold run.
  destruct (pool_loop_extends crypto_data allowed_countries pool_targets pool_size
              required_categories events (initial_state required_categories))
    as (a & Hp & Ha); [simpl; unfold max_attempts; lia|].
  split; [|exact Ha].
  rewrite pool_loop_app.
  destruct (pool_loop crypto_data allowed_countries pool_targets pool_size
              required_categories events (initial_state required_categories))
    as [st' ended]. simpl in *.
  destruct ended.
  - exists []. now rewrite app_nil_r.
  - destruct (pool_loop_extends crypto_data allowed_countries pool_targets pool_size
                required_categories more st' Ha) as (a2 & Hp2 & _).
    exists a2. exact Hp2.
Qed.

(** X3.  An answer that is false, or whose repair does not parse, is not
    counted as an attempt: while the driver gives such answers the loop goes
    on in the same state, however many they are, and the cap of 3000 attempts
    does not stop it. *)
Theorem uncounted_answers_repeat (crypto_data : crypto) (allowed_countries : list string)
  (pool_targets : counts) (pool_size : nat) (required_categories : list string)
  (events : list gen_event) (st : pool_state) :
  Forall uncounted events ->
  loop_condition pool_size st = true ->
  loop_head pool_targets required_categories st = Proceed ->
  pool_loop crypto_data allowed_countries pool_targets pool_size required_categories
    events st = (st, false).
Proof.
  intros Hev Hc Hh. induction Hev as [|ev events Hu _ IH]; simpl; rewrite Hc, Hh; auto.
  assert (loop_tail crypto_data allowed_countries pool_targets ev st = st) as ->; auto.
  destruct Hu as [->|(text & -> & Hnone)]; simpl; auto.
  now rewrite Hnone.
Qed.

Lemma uncounted_answers_repeat_witness :
  pool_loop (btc_at 90000) ["USA"] sample_targets 200 sample_categories
    (repeat (GenText "}{") 5000) (initial_state sample_categories)
  = (initial_state sample_categories, false).
Proof.
  apply uncounted_answers_repeat.
  - apply Forall_forall. intros ev Hin. apply repeat_spec in Hin. subst ev.
    right. exists "}{". split; [reflexivity | vm_compute; reflexivity].
  - vm_compute. reflexivity.
  - vm_compute. reflexivity.
Defined.

(** ** The diversity score and the greedy selection *)

Lemma timeframe_score_bound (q1 q2 : json) (s : nat) :
  timeframe_score q1 q2 = Returns s -> s <= 1.
Proof.
  unfold timeframe_score.
  destruct (item q1 "timeframe") as [t1| |]; simpl; try discriminate.
  destruct (as_str t1) as [s1| |]; simpl; try discriminate.
  destruct (strptime s1); [|intros H; injection H as <-; lia].
  destruct (item q2 "timeframe") as [t2| |]; simpl; try discriminate.
  destruct (as_str t2) as [s2| |]; simpl; try discriminate.
  destruct (strptime s2); [|intros H; injection H as <-; lia].
  intros H. injection H as <-. destruct (_ <? _)%Z; lia.
Qed.

Lemma value_score_bound (q1 q2 : json) (s : nat) :
  value_score q1 q2 = Returns s -> s <= 1.
Proof.
  unfold value_score.
  destruct (item q1 "target_value") as [v1| |]; simpl; try discriminate.
  destruct (float_of v1); [|intros H; injection H as <-; lia].
  destruct (item q2 "target_value") as [v2| |]; simpl; try discriminate.
  destruct (float_of v2); [|intros H; injection H as <-; lia].
  destruct (Qeq_bool _ _); intros H; injection H as <-; [lia|].
  destruct (Qlt_b _ _); lia.
Qed.

Lemma country_score_bound (q1 q2 : json) (e1 e2 : list string) (s : nat) :
  country_score q1 q2 e1 e2 = Returns s ->
  s <= 2 /\
  (s <> 0 -> get q1 "category" = Some (JStr "social_events") /\
             get q2 "category" = Some (JStr "social_events")).
Proof.
  unfold country_score, item, get.
  destruct q1 as [| | | | |d1]; simpl; try discriminate.
  destruct (dict_get d1 "category") as [c1|]; simpl; try discriminate.
  destruct (is_social c1) eqn:E1; [|intros H; injection H as <-; split; [lia|congruence]].
  destruct q2 as [| | | | |d2]; simpl; try discriminate.
  destruct (dict_get d2 "category") as [c2|]; simpl; try discriminate.
  destruct (is_social c2) eqn:E2; [|intros H; injection H as <-; split; [lia|congruence]].
  intros H. injection H as <-.
  assert (Hs : forall c, is_social c = true -> c = JStr "social_events").
  { intros c Hc. unfold is_social in Hc. destruct c; simpl in Hc; try discriminate.
    apply String.eqb_eq in Hc. now subst. }
  rewrite (Hs c1 E1), (Hs c2 E2).
  destruct (negb _); split; auto; lia.
Qed.

(** X4.  The diversity score of two records is at most 6, and at most 4
    unless both records are of the category [social_events]. *)
Theorem diversity_score_bound (q1 q2 : json) (score : nat) :
  calculate_question_diversity q1 q2 = Returns score ->
  score <= 6 /\
  (4 < score -> get q1 "category" = Some (JStr "social_events") /\
                get q2 "category" = Some (JStr "social_events")).
Proof.
  unfold calculate_question_diversity.
  destruct (item q1 "metric") as [m1| |]; simpl; try discriminate.
  destruct (item q2 "metric") as [m2| |]; simpl; try discriminate.
  destruct (timeframe_score q1 q2) as [d| |] eqn:Hd; simpl; try discriminate.
  destruct (value_score q1 q2) as [v| |] eqn:Hv; simpl; try discriminate.
  destruct (item q1 "question") as [t1| |]; simpl; try discriminate.
  destruct (as_str t1) as [s1| |]; simpl; try discriminate.
  destruct (item q2 "question") as [t2| |]; simpl; try discriminate.
  destruct (as_str t2) as [s2| |]; simpl; try discriminate.
  destruct (country_score q1 q2 (entities s1) (entities s2)) as [c| |] eqn:Hc;
    simpl; try discriminate.
  intros H. injection H as <-.
  apply timeframe_score_bound in Hd. apply value_score_bound in Hv.
  apply country_score_bound in Hc as [Hc Hsoc].
  destruct (negb (json_eqb m1 m2)); destruct (disjoint (entities s1) (entities s2));
    (split; [lia | intros Hlt; apply Hsoc; lia]).
Qed.

Lemma diversity_score_bound_witness :
  0 <= 6 /\
  (4 < 0 -> get sample_first "category" = Some (JStr "social_events") /\
            get sample_second "category" = Some (JStr "social_events")).
Proof.
  apply (diversity_score_bound sample_first sample_second 0).
  vm_compute. reflexivity.
Defined.


Lemma best_candidate_step (matrix : list (list nat)) (n : nat) (selected_indices : list nat)
  (l : list nat) (best : Z * Z) :
  (forall i, In i l -> i < n) ->
  (snd best = (-1)%Z /\ fst best = (-1)%Z) \/
  ((0 <= fst best)%Z /\ exists i, snd best = Z.of_nat i /\ fresh n selected_indices i) ->
  let result :=
    fold_left
      (fun (best : Z * Z) i =>
         if existsb (Nat.eqb i) selected_indices then best
         else
           let d := min_distance matrix i selected_indices in
           if exceeds d (fst best) then (distance_value d, Z.of_nat i) else best)
      l best in
  ((snd result = (-1)%Z /\ fst result = (-1)%Z /\ snd best = (-1)%Z /\
    forall i, In i l -> In i selected_indices) \/
   ((0 <= fst result)%Z /\ exists i, snd result = Z.of_nat i /\ fresh n selected_indices i)).
Proof.
  revert best. induction l as [|i l IH]; intros best Hl Hbest; simpl.
  - destruct Hbest as [[H1 H2]|H]; [left|right]; auto.
    repeat split; auto. intros i [].
  - destruct (existsb (Nat.eqb i) selected_indices) eqn:Hsel.
    + assert (Hin : In i selected_indices).
      { apply existsb_exists in Hsel as (j & Hj & Heq).
        apply Nat.eqb_eq in Heq. now subst. }
      destruct (IH best) as [(H1 & H2 & H3 & H4)|H]; auto.
      * intros j Hj. apply Hl. now right.
      * left. repeat split; auto. intros j [<-|Hj]; auto.
    + assert (Hfresh : fresh n selected_indices i).
      { split; [apply Hl; now left|].
        intros Hin. pose proof (existsb_false_In _ _ i Hsel Hin) as H.
        rewrite Nat.eqb_refl in H. discriminate. }
      assert (Hd : (0 <= distance_value (min_distance matrix i selected_indices))%Z).
      { destruct (min_distance matrix i selected_indices); simpl; lia. }
      assert (Hnext : (0 <= fst (if exceeds (min_distance matrix i selected_indices) (fst best)
                                 then (distance_value (min_distance matrix i selected_indices),
                                       Z.of_nat i)
                                 else best))%Z /\
                      exists j, snd (if exceeds (min_distance matrix i selected_indices) (fst best)
                                     then (distance_value (min_distance matrix i selected_indices),
                                           Z.of_nat i)
                                     else best) = Z.of_nat j /\ fresh n selected_indices j).
      { destruct (exceeds (min_distance matrix i selected_indices) (fst best)) eqn:He; simpl.
        - split; eauto.
        - destruct Hbest as [[H1 H2]|H]; auto.
          rewrite H2 in He. unfold exceeds in He.
          destruct (min_distance matrix i selected_indices); [|discriminate].
          apply Z.ltb_ge in He. lia. }
      destruct (IH _ (fun j Hj => Hl j (or_intror Hj)) (or_intror Hnext))
        as [(H1 & H2 & H3 & H4)|H]; auto.
      destruct Hnext as (_ & j & Hj & _). rewrite H3 in Hj. lia.
Qed.

Lemma best_candidate_fresh (matrix : list (list nat)) (n : nat) (selected_indices : list nat)
  (i : nat) :
  fresh n selected_indices i ->
  exists j, snd (best_candidate matrix n selected_indices) = Z.of_nat j /\
            fresh n selected_indices j.
Proof.
  intros [Hi Hnot]. unfold best_candidate.
  destruct (best_candidate_step matrix n selected_indices (seq 0 n) ((-1)%Z, (-1)%Z))
    as [(_ & _ & _ & Hall)|(_ & H)]; auto.
  - intros j Hj. apply in_seq in Hj. lia.
  - exfalso. apply Hnot, Hall, in_seq. lia.
Qed.

Lemma best_candidate_cases (matrix : list (list nat)) (n : nat) (selected_indices : list nat) :
  snd (best_candidate matrix n selected_indices) = (-1)%Z \/
  exists j, snd (best_candidate matrix n selected_indices) = Z.of_nat j /\
            fresh n selected_indices j.
Proof.
  unfold best_candidate.
  destruct (best_candidate_step matrix n selected_indices (seq 0 n) ((-1)%Z, (-1)%Z))
    as [(H & _)|(_ & H)]; auto.
  intros j Hj. apply in_seq in Hj. lia.
Qed.

(** Among [n] questions, fewer than [n] selected ones that are distinct
    leave one out. *)
Lemma fresh_exists (n : nat) (selected_indices : list nat) :
  NoDup selected_indices ->
  List.length selected_indices < n ->
  exists i, fresh n selected_indices i.
Proof.
  intros Hnd Hlen.
  destruct (existsb (fun i => negb (existsb (Nat.eqb i) selected_indices)) (seq 0 n))
    eqn:E.
  - apply existsb_exists in E as (i & Hi & Hneg).
    exists i. split; [apply in_seq in Hi; lia|].
    intros Hin. apply negb_true_iff in Hneg.
    pose proof (existsb_false_In _ _ i Hneg Hin) as H.
    rewrite Nat.eqb_refl in H. discriminate.
  - exfalso.
    assert (Hincl : incl (seq 0 n) selected_indices).
    { intros i Hi. pose proof (existsb_false_In _ _ i E Hi) as H.
      apply negb_false_iff, existsb_exists in H as (j & Hj & Heq).
      apply Nat.eqb_eq in Heq. now subst. }
    apply NoDup_incl_length in Hincl; [|apply seq_NoDup].
    rewrite length_seq in Hincl. lia.
Qed.

Lemma grow_selection_result (fuel : nat) (matrix : list (list nat)) (n count : nat)
  (selected_indices : list nat) :
  NoDup selected_indices ->
  (forall i, In i selected_indices -> i < n) ->
  n - List.length selected_indices <= fuel ->
  exists result more,
    grow_selection fuel matrix n count selected_indices = Returns result /\
    result = selected_indices ++ more /\
    NoDup result /\
    (forall i, In i result -> i < n) /\
    List.length result
    = Nat.max (List.length selected_indices) (Nat.min count n).
Proof.
  revert selected_indices.
  induction fuel as [|fuel IH]; intros sel Hnd Hrange Hfuel.
  - simpl.
    destruct ((List.length sel <? count) && (List.length sel <? n)) eqn:Hc.
    + apply andb_prop in Hc as [_ H]. apply Nat.ltb_lt in H. lia.
    + exists sel, []. rewrite app_nil_r. repeat split; auto.
      apply andb_false_iff in Hc as [H|H]; apply Nat.ltb_ge in H; lia.
  - simpl.
    destruct ((List.length sel <? count) && (List.length sel <? n)) eqn:Hc.
    + apply andb_prop in Hc as [Hcount Hn].
      apply Nat.ltb_lt in Hcount, Hn.
      destruct (fresh_exists n sel Hnd Hn) as (i & Hi).
      destruct (best_candidate_fresh matrix n sel i Hi) as (j & Hj & Hjn & Hjnot).
      rewrite Hj.
      assert ((Z.of_nat j =? -1)%Z = false) as -> by (apply Z.eqb_neq; lia).
      simpl negb. cbv iota. rewrite Nat2Z.id.
      destruct (IH (sel ++ [j])) as (result & more & Hr & Hres & Hnd' & Hrange' & Hlen).
      * apply NoDup_app; [assumption | repeat constructor; intros [] | ].
        intros x Hx [<-|[]]. contradiction.
      * intros x Hx. apply in_app_or in Hx as [Hx|[<-|[]]]; auto.
      * rewrite length_app. simpl. lia.
      * exists result, (j :: more). rewrite Hr. repeat split; auto.
        -- rewrite Hres, <- app_assoc. reflexivity.
        -- rewrite Hlen, length_app. simpl. lia.
    + exists sel, []. rewrite app_nil_r. repeat split; auto.
      apply andb_false_iff in Hc as [H|H]; apply Nat.ltb_ge in H; lia.
Qed.

(** X5.  Given fuel for one round per question, and scores that can be
    computed, the greedy selection returns questions taken at distinct
    places of its input, the first place first.  It returns [count] of
    them, or all of them when there are fewer, and one when [count] is 0. *)
Theorem select_diverse_category_result (fuel : nat) (questions : list json) (count : nat)
  (matrix : list (list nat)) :
  questions <> [] ->
  diversity_matrix questions = Returns matrix ->
  List.length questions <= fuel ->
  exists indices,
    select_diverse_category_questions fuel questions count
    = Returns (map (fun i => nth i questions JNull) indices) /\
    NoDup indices /\
    (forall i, In i indices -> i < List.length questions) /\
    hd_error indices = Some 0 /\
    List.length indices = Nat.max 1 (Nat.min count (List.length questions)).
Proof.
  intros Hne Hm Hfuel. unfold select_diverse_category_questions.
  destruct questions as [|q questions]; [congruence|].
  rewrite Hm. cbn [bind].
  destruct (grow_selection_result fuel matrix (List.length (q :: questions)) count [0])
    as (result & more & Hr & Hres & Hnd & Hrange & Hlen).
  - repeat constructor. intros [].
  - intros i [<-|[]]. simpl. lia.
  - simpl. simpl in Hfuel. lia.
  - rewrite Hr. cbn [bind]. exists result. repeat split; auto.
    rewrite Hres. reflexivity.
Qed.

Lemma select_diverse_category_result_witness :
  exists indices,
    select_diverse_category_questions 2 [sample_first; sample_second] 0
    = Returns (map (fun i => nth i [sample_first; sample_second] JNull) indices) /\
    NoDup indices /\
    (forall i, In i indices -> i < 2) /\
    hd_error indices = Some 0 /\
    List.length indices = 1.
Proof.
  apply (select_diverse_category_result 2 [sample_first; sample_second] 0 [[0; 0]; [0; 0]]).
  - discriminate.
  - vm_compute. reflexivity.
  - simpl. lia.
Defined.

(** ** What the selector returns *)

Lemma groups_append_within (g : groups) (category q : json) (P : list json) :
  (forall c qs, In (c, qs) g -> incl qs P) ->
  In q P ->
  forall c qs, In (c, qs) (groups_append g category q) -> incl qs P.
Proof.
  induction g as [|[c0 qs0] g IH]; simpl; intros Hg Hq c qs Hin.
  - destruct Hin as [H|[]]. injection H as <- <-. intros x [<-|[]]. assumption.
  - destruct (json_eqb category c0).
    + destruct Hin as [H|Hin].
      * injection H as <- <-. intros x Hx. apply in_app_or in Hx as [Hx|[<-|[]]]; auto.
        apply (Hg c0 qs0); auto.
      * apply (Hg c qs). now right.
    + destruct Hin as [H|Hin].
      * injection H as <- <-. apply (Hg c0 qs0). now left.
      * apply (IH (fun c qs H => Hg c qs (or_intror H)) Hq c qs Hin).
Qed.

Lemma by_category_within (pool : list json) (g g' : groups) (P : list json) :
  by_category pool g = Returns g' ->
  incl pool P ->
  (forall c qs, In (c, qs) g -> incl qs P) ->
  forall c qs, In (c, qs) g' -> incl qs P.
Proof.
  revert g. induction pool as [|q pool IH]; simpl; intros g H Hpool Hg.
  - injection H as <-. assumption.
  - destruct (item q "category") as [category| |]; simpl in H; try discriminate.
    destruct (hashable category); try discriminate.
    apply (IH _ H).
    + intros x Hx. apply Hpool. now right.
    + apply groups_append_within; auto. apply Hpool. now left.
Qed.

Lemma groups_get_In (g : groups) (category : json) (qs : list json) :
  groups_get g category = Some qs -> exists c, In (c, qs) g.
Proof.
  induction g as [|[c0 qs0] g IH]; simpl; [discriminate|].
  destruct (json_eqb category c0).
  - intros H. injection H as <-. exists c0. now left.
  - intros H. destruct (IH H) as (c & Hc). exists c. now right.
Qed.

Lemma filter_questions_within (category : string) (category_questions filtered : list json)
  (used : list skey) (filtered' : list json) (used' : list skey) :
  filter_questions category category_questions filtered used = Returns (filtered', used') ->
  incl filtered' (filtered ++ category_questions).
Proof.
  revert filtered used.
  induction category_questions as [|q rest IH]; simpl; intros filtered used H.
  - injection H as <- <-. now rewrite app_nil_r.
  - destruct (selection_key q) as [k| |]; cbn [bind] in H; try discriminate.
    destruct (skey_in k used) as [seen| |]; cbn [bind] in H; try discriminate.
    destruct k as [[[[c m] t] v] x].
    assert (Hskip : incl (filtered ++ rest) (filtered ++ q :: rest)).
    { intros y Hy. apply in_app_or in Hy as [Hy|Hy]; apply in_or_app; auto.
      right. now right. }
    destruct seen.
    + apply IH in H. intros y Hy. auto.
    + destruct (item q "question") as [text| |]; simpl in H; try discriminate.
      destruct (as_str text) as [s| |]; simpl in H; try discriminate.
      destruct (sanity_ok category s v).
      * apply IH in H. intros y Hy. apply H in Hy.
        rewrite <- app_assoc in Hy. exact Hy.
      * apply IH in H. intros y Hy. auto.
Qed.

Lemma grow_selection_range (fuel : nat) (matrix : list (list nat)) (n count : nat)
  (selected_indices result : list nat) :
  grow_selection fuel matrix n count selected_indices = Returns result ->
  (forall i, In i selected_indices -> i < n) ->
  forall i, In i result -> i < n.
Proof.
  revert selected_indices. induction fuel as [|fuel IH]; intros sel H Hsel; simpl in H.
  - destruct (_ && _); try discriminate. injection H as <-. assumption.
  - destruct (_ && _); [|injection H as <-; assumption].
    destruct (negb (snd (best_candidate matrix n sel) =? -1)%Z) eqn:Hb.
    + apply (IH _ H). intros i Hi. apply in_app_or in Hi as [Hi|[<-|[]]]; auto.
      destruct (best_candidate_cases matrix n sel) as [H1|(j & Hj & Hjn & _)].
      * rewrite H1 in Hb. discriminate.
      * rewrite Hj, Nat2Z.id. assumption.
    + apply (IH _ H). assumption.
Qed.

Lemma select_diverse_category_within (fuel : nat) (questions : list json) (count : nat)
  (result : list json) :
  select_diverse_category_questions fuel questions count = Returns result ->
  incl result questions.
Proof.
  unfold select_diverse_category_questions.
  destruct questions as [|q questions].
  - intros H. injection H as <-. intros x [].
  - remember (q :: questions) as qs eqn:Hqs.
    assert (Hlen : 0 < List.length qs) by (subst qs; simpl; lia).
    clear Hqs.
    destruct (diversity_matrix qs) as [matrix| |]; cbn [bind]; try discriminate.
    destruct (grow_selection fuel matrix (List.length qs) count [0])
      as [indices| |] eqn:Hg; cbn [bind]; try discriminate.
    intros H. injection H as <-.
    intros x Hx. apply in_map_iff in Hx as (i & <- & Hi).
    apply nth_In.
    apply (grow_selection_range _ _ _ _ _ _ Hg); auto.
    intros j [<-|[]]. assumption.
Qed.

Lemma first_pass_within (fuel : nat) (g : groups) (tpc : nat) (cats : list string)
  (extra : nat) (st st' : selection) (P : list json) :
  first_pass fuel g tpc cats extra st = Returns st' ->
  (forall c qs, In (c, qs) g -> incl qs P) ->
  incl (fst st) P -> incl (fst st') P.
Proof.
  revert extra st. induction cats as [|category cats IH]; simpl; intros extra st H Hg Hst.
  - injection H as <-. assumption.
  - destruct (groups_get g (JStr category)) as [qs|] eqn:Hget; [|eauto].
    destruct st as [selected used].
    unfold select_category in H.
    destruct (filter_questions category qs [] used) as [[filtered used']| |] eqn:Hf;
      simpl in H; try discriminate.
    destruct (select_diverse_category_questions fuel filtered (target_count tpc extra))
      as [diverse| |] eqn:Hd; simpl in H; try discriminate.
    apply (IH _ _ H Hg). simpl.
    apply groups_get_In in Hget as (c & Hc).
    apply filter_questions_within in Hf. apply select_diverse_category_within in Hd.
    intros x Hx. apply in_app_or in Hx as [Hx|Hx]; auto.
    apply (Hg c qs Hc). apply Hd, Hf in Hx. exact Hx.
Qed.

Lemma filter_outcome_within {A : Type} (f : A -> outcome bool) (l result : list A) :
  filter_outcome f l = Returns result -> incl result l.
Proof.
  revert result. induction l as [|x l IH]; simpl; intros result H.
  - injection H as <-. intros y [].
  - destruct (f x) as [keep| |]; simpl in H; try discriminate.
    destruct (filter_outcome f l) as [rest| |]; simpl in H; try discriminate.
    injection H as <-. specialize (IH rest eq_refl).
    destruct keep; intros y Hy.
    + destruct Hy as [<-|Hy]; [now left | right; auto].
    + right. auto.
Qed.

Lemma fill_pass_within (g : groups) (n : nat) (cats : list string) (st st' : selection)
  (P : list json) :
  fill_pass g n cats st = Returns st' ->
  (forall c qs, In (c, qs) g -> incl qs P) ->
  incl (fst st) P -> incl (fst st') P.
Proof.
  revert st. induction cats as [|category cats IH]; simpl; intros st H Hg Hst.
  - injection H as <-. assumption.
  - destruct (n <=? List.length (fst st)); [injection H as <-; assumption|].
    destruct (groups_get g (JStr category)) as [qs|] eqn:Hget; [|eauto].
    destruct (filter_outcome (is_remaining st) qs) as [remaining| |] eqn:Hr;
      simpl in H; try discriminate.
    destruct remaining as [|question remaining]; [eauto|].
    destruct (selection_key question) as [k| |]; simpl in H; try discriminate.
    apply (IH _ H Hg). simpl.
    apply groups_get_In in Hget as (c & Hc). apply filter_outcome_within in Hr.
    intros x Hx. apply in_app_or in Hx as [Hx|[<-|[]]]; auto.
    apply (Hg c qs Hc), Hr. now left.
Qed.

Lemma fill_loop_within (fuel : nat) (g : groups) (n : nat) (cats : list string)
  (st st' : selection) (P : list json) :
  fill_loop fuel g n cats st = Returns st' ->
  (forall c qs, In (c, qs) g -> incl qs P) ->
  incl (fst st) P -> incl (fst st') P.
Proof.
  revert st. induction fuel as [|fuel IH]; simpl; intros st H Hg Hst.
  - destruct (_ <? _); try discriminate. injection H as <-. assumption.
  - destruct (_ <? _); [|injection H as <-; assumption].
    destruct (fill_pass g n cats st) as [st1| |] eqn:Hp; simpl in H; try discriminate.
    apply (IH _ H Hg). eapply fill_pass_within; eauto.
Qed.

(** X6.  What the selector returns, when it returns, is made of records of
    the pool, and of no more of them than were asked for. *)
Theorem selector_returns_pool_records (fuel : nat) (pool : list json) (num_questions : nat)
  (required_categories : list string) (selected : list json) :
  select_diverse_questions fuel pool num_questions required_categories = Returns selected ->
  List.length selected <= num_questions /\
  forall q, In q selected -> In q pool.
Proof.
  intros H. split; [eapply select_diverse_questions_length; eauto|].
  unfold select_diverse_questions in H.
  destruct (by_category pool []) as [g| |] eqn:Hg; simpl in H; try discriminate.
  destruct required_categories as [|c cs]; try discriminate.
  destruct (first_pass _ _ _ _ _ _) as [st| |] eqn:H1; simpl in H; try discriminate.
  destruct (fill_loop _ _ _ _ _) as [st'| |] eqn:H2; simpl in H; try discriminate.
  injection H as <-.
  assert (Hgroups : forall c qs, In (c, qs) g -> incl qs pool).
  { apply (by_category_within pool [] g pool Hg); [apply incl_refl|].
    intros c0 qs []. }
  intros q Hq.
  assert (Hq' : In q (fst st')).
  { rewrite <- (firstn_skipn num_questions (fst st')). apply in_or_app. now left. }
  clear Hq. revert Hq'. generalize q. change (incl (fst st') pool).
  eapply fill_loop_within in H2; eauto.
  eapply first_pass_within in H1; eauto.
  intros x [].
Qed.

Lemma selector_returns_pool_records_witness :
  List.length [sample_first] <= 1 /\
  forall q, In q [sample_first] -> In q [sample_first; sample_second].
Proof.
  apply (selector_returns_pool_records 2 [sample_first; sample_second] 1 ["cryptocurrency"]).
  vm_compute. reflexivity.
Defined.

(** ** The selector asked for nothing *)

Lemma bind_finishes {A B : Type} (c : outcome A) (k : A -> outcome B) :
  c <> OutOfFuel -> (forall a, k a <> OutOfFuel) -> bind c k <> OutOfFuel.
Proof. intros Hc Hk. destruct c; simpl; [auto | discriminate | congruence]. Qed.

Lemma item_finishes (q : json) (k : string) : item q k <> OutOfFuel.
Proof. destruct q; simpl; try discriminate. destruct (dict_get kv k); discriminate. Qed.

Lemma as_str_finishes (v : json) : as_str v <> OutOfFuel.
Proof. destruct v; discriminate. Qed.

Lemma try_finishes {A : Type} (o : option A) : try_ o <> OutOfFuel.
Proof. destruct o; discriminate. Qed.

Lemma selection_key_finishes (q : json) : selection_key q <> OutOfFuel.
Proof.
  unfold selection_key.
  repeat (apply bind_finishes;
          [first [apply item_finishes | apply as_str_finishes | apply try_finishes]
          | intros ?]).
  discriminate.
Qed.

Lemma skey_in_finishes (k : skey) (used : list skey) : skey_in k used <> OutOfFuel.
Proof.
  destruct k as [[[[c m] t] v] x]. simpl.
  destruct (hashable c && hashable m && hashable t); discriminate.
Qed.

Lemma filter_questions_finishes (category : string) (qs filtered : list json)
  (used : list skey) :
  filter_questions category qs filtered used <> OutOfFuel.
Proof.
  revert filtered used. induction qs as [|q qs IH]; intros filtered used; simpl.
  - discriminate.
  - apply bind_finishes; [apply selection_key_finishes | intros k].
    apply bind_finishes; [apply skey_in_finishes | intros seen].
    destruct seen; [apply IH|].
    destruct k as [[[[c m] t] v] x].
    apply bind_finishes; [apply item_finishes | intros text].
    apply bind_finishes; [apply as_str_finishes | intros s].
    destruct (sanity_ok category s v); apply IH.
Qed.

Lemma calculate_question_diversity_finishes (q1 q2 : json) :
  calculate_question_diversity q1 q2 <> OutOfFuel.
Proof.
  unfold calculate_question_diversity.
  apply bind_finishes; [apply item_finishes | intros m1].
  apply bind_finishes; [apply item_finishes | intros m2].
  apply bind_finishes.
  { unfold timeframe_score.
    apply bind_finishes; [apply item_finishes | intros t1].
    apply bind_finishes; [apply as_str_finishes | intros s1].
    destruct (strptime s1); [|discriminate].
    apply bind_finishes; [apply item_finishes | intros t2].
    apply bind_finishes; [apply as_str_finishes | intros s2].
    destruct (strptime s2); discriminate. }
  intros dates. apply bind_finishes.
  { unfold value_score.
    apply bind_finishes; [apply item_finishes | intros v1].
    destruct (float_of v1); [|discriminate].
    apply bind_finishes; [apply item_finishes | intros v2].
    destruct (float_of v2); [|discriminate].
    destruct (Qeq_bool _ _); discriminate. }
  intros values.
  apply bind_finishes; [apply item_finishes | intros t1].
  apply bind_finishes; [apply as_str_finishes | intros s1].
  apply bind_finishes; [apply item_finishes | intros t2].
  apply bind_finishes; [apply as_str_finishes | intros s2].
  apply bind_finishes; [|discriminate].
  unfold country_score.
  apply bind_finishes; [apply item_finishes | intros c1].
  destruct (is_social c1); [|discriminate].
  apply bind_finishes; [apply item_finishes | intros c2].
  destruct (is_social c2); discriminate.
Qed.

Lemma map_outcome_finishes {A B : Type} (f : A -> outcome B) (l : list A) :
  (forall x, f x <> OutOfFuel) -> map_outcome f l <> OutOfFuel.
Proof.
  intros Hf. induction l as [|x l IH]; simpl; [discriminate|].
  apply bind_finishes; [apply Hf | intros y].
  apply bind_finishes; [apply IH | discriminate].
Qed.

Lemma select_nothing_finishes (fuel : nat) (questions : list json) :
  select_diverse_category_questions fuel questions 0 <> OutOfFuel.
Proof.
  unfold select_diverse_category_questions.
  destruct questions as [|q questions]; [discriminate|].
  apply bind_finishes.
  - apply map_outcome_finishes. intros q1.
    apply map_outcome_finishes. intros q2. apply calculate_question_diversity_finishes.
  - intros matrix. destruct fuel; simpl; discriminate.
Qed.

Lemma first_pass_nothing_finishes (fuel : nat) (g : groups) (cats : list string)
  (st : selection) :
  first_pass fuel g 0 cats 0 st <> OutOfFuel.
Proof.
  revert st. induction cats as [|category cats IH]; intros st; simpl; [discriminate|].
  destruct (groups_get g (JStr category)) as [qs|]; [|apply IH].
  apply bind_finishes; [|intros st'; apply IH].
  unfold select_category. destruct st as [selected used].
  apply bind_finishes; [apply filter_questions_finishes | intros [filtered used']].
  apply bind_finishes; [apply select_nothing_finishes | discriminate].
Qed.

Lemma by_category_finishes (pool : list json) (g : groups) :
  by_category pool g <> OutOfFuel.
Proof.
  revert g. induction pool as [|q pool IH]; intros g; simpl; [discriminate|].
  apply bind_finishes; [apply item_finishes | intros category].
  destruct (hashable category); [apply IH | discriminate].
Qed.

(** X7.  Asked for no question, the selector returns the empty list, or
    raises (on a record it cannot read, or without categories); it does so
    with any fuel, so the call never loops. *)
Theorem selector_asked_for_nothing (fuel : nat) (pool : list json)
  (required_categories : list string) :
  select_diverse_questions fuel pool 0 required_categories = Returns [] \/
  select_diverse_questions fuel pool 0 required_categories = Raises.
Proof.
  unfold select_diverse_questions.
  pose proof (by_category_finishes pool []) as Hg.
  destruct (by_category pool []) as [g| |]; simpl; auto; [|congruence].
  destruct required_categories as [|c cs]; auto.
  assert (H0 : 0 / List.length (c :: cs) = 0) by (apply Nat.Div0.div_0_l).
  assert (H1 : 0 mod List.length (c :: cs) = 0) by (apply Nat.Div0.mod_0_l).
  rewrite H0, H1.
  pose proof (first_pass_nothing_finishes fuel g (c :: cs) ([], [])) as Hf.
  destruct (first_pass fuel g 0 (c :: cs) 0 ([], [])) as [st| |]; simpl; auto; [|congruence].
  destruct fuel; simpl; auto.
Qed.

(** ** Accepted social and economic records *)

(** X8.  An accepted [social_events] record has a target between 50 and
    500, and, when countries are allowed, the question in upper case
    contains one of them. *)
Theorem accepted_social_events (question : json) (crypto_data : crypto)
  (countries : list string) (question' : json) (text : string) :
  validate_single_question question crypto_data countries = (true, question') ->
  get question' "category" = Some (JStr "social_events") ->
  get question' "question" = Some (JStr text) ->
  exists value,
    get question' "target_value" = Some (JNum value) /\
    (50 <= value <= 500)%Q /\
    (countries <> [] ->
     exists country, In country countries /\ str_in country (upper text) = true).
Proof.
  intros Hv Hc Ht. apply validate_accept_fields in Hv.
  destruct Hv as (c & tf & m & v & text' & Hc' & _ & _ & Hval & Ht' & _ & _ & Hrange & Hk).
  rewrite Hc in Hc'. injection Hc' as <-.
  rewrite Ht in Ht'. injection Ht' as <-.
  exists v. split; [assumption|]. split.
  - unfold target_value_ok in Hrange.
    change (String.eqb "social_events" "cryptocurrency") with false in Hrange.
    change (String.eqb "social_events" "social_events") with true in Hrange.
    cbn [andb] in Hrange. now apply between_spec.
  - intros Hne. unfold country_ok in Hk.
    change (String.eqb "social_events" "social_events") with true in Hk.
    destruct countries as [|c0 cs]; [congruence|].
    cbn [List.length Nat.eqb negb andb] in Hk.
    apply existsb_exists in Hk as (country & Hin & Hs). eauto.
Qed.

Lemma accepted_social_events_witness :
  exists value,
    get protest_record "target_value" = Some (JNum value) /\
    (50 <= value <= 500)%Q /\
    (["USA"; "GBR"] <> [] ->
     exists country,
       In country ["USA"; "GBR"] /\
       str_in country (upper "Will protest count in usa exceed 150 by 2025/03/15?") = true).
Proof.
  apply (accepted_social_events protest_record (btc_at 90000) ["USA"; "GBR"] protest_record);
    vm_compute; reflexivity.
Defined.

(** X9.  An accepted [economic_indicator] record has a metric that is a
    string; with [gdp] in it (in any case) the target is between 20000 and
    50000, otherwise with [unemployment] in it the target is between 2 and
    15.  No other metric bounds the target. *)
Theorem accepted_economic_indicator (question : json) (crypto_data : crypto)
  (countries : list string) (question' : json) :
  validate_single_question question crypto_data countries = (true, question') ->
  get question' "category" = Some (JStr "economic_indicator") ->
  exists metric value,
    get question' "metric" = Some (JStr metric) /\
    get question' "target_value" = Some (JNum value) /\
    (str_in "gdp" (lower metric) = true -> (20000 <= value <= 50000)%Q) /\
    (str_in "gdp" (lower metric) = false -> str_in "unemployment" (lower metric) = true ->
     (2 <= value <= 15)%Q).
Proof.
  intros Hv Hc. apply validate_accept_fields in Hv.
  destruct Hv as (c & tf & m & v & text & Hc' & _ & Hm & Hval & _ & _ & _ & Hrange & _).
  rewrite Hc in Hc'. injection Hc' as <-.
  unfold target_value_ok in Hrange.
  change (String.eqb "economic_indicator" "cryptocurrency") with false in Hrange.
  change (String.eqb "economic_indicator" "social_events") with false in Hrange.
  change (String.eqb "economic_indicator" "economic_indicator") with true in Hrange.
  cbn [andb] in Hrange.
  destruct m as [| | |metric| |]; try discriminate.
  exists metric, v. split; [assumption|]. split; [assumption|]. split.
  - intros Hg. rewrite Hg in Hrange. now apply between_spec.
  - intros Hg Hu. rewrite Hg, Hu in Hrange. now apply between_spec.
Qed.

Lemma accepted_economic_indicator_witness :
  exists metric value,
    get gdp_normalized "metric" = Some (JStr metric) /\
    get gdp_normalized "target_value" = Some (JNum value) /\
    (str_in "gdp" (lower metric) = true -> (20000 <= value <= 50000)%Q) /\
    (str_in "gdp" (lower metric) = false -> str_in "unemployment" (lower metric) = true ->
     (2 <= value <= 15)%Q).
Proof.
  apply (accepted_economic_indicator gdp_record [] [] gdp_normalized);
    vm_compute; reflexivity.
Defined.

(** ** [validate_question_for_pool] *)

(** X10.  A record [validate_question_for_pool] accepts has a question that
    was not used before, a timeframe in the window and a metric that is a
    string; as a [social_events] record its target is between 50 and 500,
    and as a [cryptocurrency] record it names an asset of [crypto_data]
    whose price it is within half and twice of. *)
Theorem pool_profile_accepts (q : dict) (used : list json) (crypto_data : crypto) :
  validate_question_for_pool (JObj q) used crypto_data = true ->
  exists text timeframe category metric target value,
    dict_get q "question" = Some text /\
    existsb (json_eqb text) used = false /\
    dict_get q "timeframe" = Some timeframe /\ timeframe_ok timeframe = true /\
    dict_get q "category" = Some category /\
    dict_get q "metric" = Some (JStr metric) /\
    dict_get q "target_value" = Some target /\ pool_value target = Some value /\
    (category = JStr "social_events" -> (50 <= value <= 500)%Q) /\
    (category = JStr "cryptocurrency" ->
     exists s symbol data,
       text = JStr s /\ In (symbol, data) crypto_data /\
       (str_in symbol s = true \/ str_in (c_name data) s = true) /\
       (min_price data <= value <= max_price data)%Q).
Proof.
  unfold validate_question_for_pool.
  destruct (dict_get q "question") as [text|]; try discriminate.
  destruct (dict_get q "timeframe") as [tf|]; try discriminate.
  destruct (dict_get q "category") as [category|]; try discriminate.
  destruct (dict_get q "metric") as [m|]; try discriminate.
  destruct (dict_get q "target_value") as [target|]; try discriminate.
  destruct (hashable text) eqn:Hh; cbn [negb]; try discriminate.
  destruct (existsb (json_eqb text) used) eqn:Hu; try discriminate.
  destruct (timeframe_ok tf) eqn:Htf; cbn [negb]; try discriminate.
  destruct m as [| | |metric| |]; try discriminate.
  destruct (pool_value target) as [value|] eqn:Hv; try discriminate.
  intros H.
  exists text, tf, category, metric, target, value.
  do 8 (split; [first [reflexivity | assumption]|]). split.
  - intros ->.
    change (json_eqb (JStr "social_events") (JStr "economic_indicator")) with false in H.
    change (json_eqb (JStr "social_events") (JStr "cryptocurrency")) with false in H.
    change (json_eqb (JStr "social_events") (JStr "social_events")) with true in H.
    cbv iota in H. now apply between_spec.
  - intros ->.
    change (json_eqb (JStr "cryptocurrency") (JStr "economic_indicator")) with false in H.
    change (json_eqb (JStr "cryptocurrency") (JStr "cryptocurrency")) with true in H.
    cbv iota in H.
    destruct (crypto_ok crypto_data text value) as [[|]|] eqn:Hok; try discriminate.
    destruct text as [| | |s| |]; try discriminate.
    + destruct crypto_data as [|[sym d] rest]; simpl in Hok; discriminate.
    + destruct crypto_data as [|[sym d] rest]; simpl in Hok; discriminate.
    + destruct crypto_data as [|[sym d] rest]; simpl in Hok; discriminate.
    + apply crypto_ok_spec in Hok as (symbol & data & Hin & Hname & Hr).
      exists s, symbol, data. auto.
Qed.

Lemma pool_profile_accepts_witness :
  exists text timeframe category metric target value,
    dict_get protest_fields "question" = Some text /\
    existsb (json_eqb text) [] = false /\
    dict_get protest_fields "timeframe" = Some timeframe /\ timeframe_ok timeframe = true /\
    dict_get protest_fields "category" = Some category /\
    dict_get protest_fields "metric" = Some (JStr metric) /\
    dict_get protest_fields "target_value" = Some target /\ pool_value target = Some value /\
    (category = JStr "social_events" -> (50 <= value <= 500)%Q) /\
    (category = JStr "cryptocurrency" ->
     exists s symbol data,
       text = JStr s /\ In (symbol, data) [] /\
       (str_in symbol s = true \/ str_in (c_name data) s = true) /\
       (min_price data <= value <= max_price data)%Q).
Proof.
  apply (pool_profile_accepts protest_fields [] []). vm_compute; reflexivity.
Defined.

(** ** [process_ollama_response] *)

Lemma skey_eqb_sym (a b : skey) :
  skey_hashable a = true -> skey_hashable b = true -> skey_eqb a b = skey_eqb b a.
Proof.
  destruct a as [[[[c1 m1] t1] v1] x1], b as [[[[c2 m2] t2] v2] x2]. simpl.
  intros Ha Hb.
  apply andb_prop in Ha as [Ha Ht1]. apply andb_prop in Ha as [Hc1 Hm1].
  apply andb_prop in Hb as [Hb Ht2]. apply andb_prop in Hb as [Hc2 Hm2].
  now rewrite (json_eqb_sym c1 c2), (json_eqb_sym m1 m2), (json_eqb_sym t1 t2),
    (same_float_text_sym v1 v2), (String.eqb_sym x1 x2).
Qed.

Lemma skey_in_returns (k : skey) (used : list skey) (b : bool) :
  skey_in k used = Returns b ->
  skey_hashable k = true /\ existsb (skey_eqb k) used = b.
Proof.
  destruct k as [[[[c m] t] v] x]. unfold skey_in, skey_hashable.
  destruct (hashable c && hashable m && hashable t); [|discriminate].
  intros H. injection H as <-. auto.
Qed.

Lemma distinct_question_keys_snoc (l : list json) (r : json) (k : skey) :
  distinct_question_keys l ->
  create_question_key r = Returns k ->
  (forall r' k', In r' l -> create_question_key r' = Returns k' ->
     skey_eqb k k' = false /\ skey_eqb k' k = false) ->
  distinct_question_keys (l ++ [r]).
Proof.
  intros Hd Hk Hnew i j r1 r2 k1 k2 Hij H1 H2 K1 K2.
  destruct (Nat.lt_ge_cases i (List.length l)) as [Hi|Hi];
    destruct (Nat.lt_ge_cases j (List.length l)) as [Hj|Hj].
  - rewrite nth_error_app1 in H1, H2 by assumption. eauto.
  - rewrite nth_error_app1 in H1 by assumption.
    rewrite nth_error_app2 in H2 by assumption.
    destruct (j - List.length l) as [|n]; simpl in H2;
      [|destruct n; discriminate].
    injection H2 as <-. rewrite Hk in K2. injection K2 as <-.
    apply nth_error_In in H1. now apply (Hnew r1 k1).
  - rewrite nth_error_app2 in H1 by assumption.
    rewrite nth_error_app1 in H2 by assumption.
    destruct (i - List.length l) as [|n]; simpl in H1;
      [|destruct n; discriminate].
    injection H1 as <-. rewrite Hk in K1. injection K1 as <-.
    apply nth_error_In in H2. now apply (Hnew r2 k2).
  - rewrite nth_error_app2 in H1, H2 by assumption.
    destruct (i - List.length l) as [|n] eqn:Ei; simpl in H1;
      [|destruct n; discriminate].
    destruct (j - List.length l) as [|n] eqn:Ej; simpl in H2;
      [|destruct n; discriminate].
    lia.
Qed.

Lemma validate_response_inv (crypto_data : crypto) (countries : list string)
  (questions validated_questions : list json) (used_keys : list skey) (result : list json) :
  response_inv validated_questions used_keys ->
  validate_response crypto_data countries questions validated_questions used_keys
    = Returns result ->
  exists used_keys', response_inv result used_keys'.
Proof.
  revert validated_questions used_keys.
  induction questions as [|q rest IH]; intros validated used Hinv H; simpl in H.
  - injection H as <-. eauto.
  - destruct (validate_single_question q crypto_data countries) as [ok q'] eqn:Hv.
    destruct ok; [|eauto].
    destruct (create_question_key q') as [key| |] eqn:Hk; cbn [bind] in H; try discriminate.
    destruct (skey_in key used) as [seen| |] eqn:Hs; cbn [bind] in H; try discriminate.
    destruct seen; [eauto|].
    apply skey_in_returns in Hs as [Hh Hs].
    apply (IH _ _ ) in H; [assumption|].
    destruct Hinv as (Hok & Hkeys & Hd).
    split; [|split].
    + apply Forall_app. split; [assumption|].
      constructor; [|constructor]. eapply accepted_record_ok; eassumption.
    + intros r Hin. apply in_app_or in Hin as [Hin|[<-|[]]].
      * destruct (Hkeys r Hin) as (k & K1 & K2 & K3). exists k. simpl. auto.
      * exists key. simpl. auto.
    + apply (distinct_question_keys_snoc _ _ key); [assumption|assumption|].
      intros r' k' Hin K'.
      destruct (Hkeys r' Hin) as (k & K1 & K2 & K3).
      rewrite K1 in K'. injection K' as <-.
      pose proof (existsb_false_In _ _ _ Hs K3) as Hne.
      split; [assumption|]. now rewrite skey_eqb_sym.
Qed.

Lemma response_inv_nil : response_inv [] [].
Proof.
  split; [constructor|]. split; [intros r []|].
  intros i j r1 r2 k1 k2 _ H. destruct i; discriminate.
Qed.

Lemma process_ollama_response_inv (response : json) (crypto_data : crypto)
  (countries : list string) :
  exists used_keys,
    response_inv (process_ollama_response response crypto_data countries) used_keys.
Proof.
  unfold process_ollama_response.
  destruct (get response "message") as [message|]; [|exists []; apply response_inv_nil].
  destruct (get message "content") as [[| | |content| |]|];
    try (exists []; apply response_inv_nil).
  destruct (json_loads (clean_json_content content)) as [parsed|];
    [|exists []; apply response_inv_nil].
  destruct (validate_response _ _ _ [] []) as [l| |] eqn:H;
    try (exists []; apply response_inv_nil).
  eapply validate_response_inv; [apply response_inv_nil|eassumption].
Qed.

(** X11.  Whatever the answer of the model, every record
    [process_ollama_response] returns has a category of the fixed set and a
    timeframe in the window, every one has a key, and no two of them have
    the same key. *)
Theorem response_records_valid_and_distinct (response : json) (crypto_data : crypto)
  (countries : list string) :
  let result := process_ollama_response response crypto_data countries in
  Forall record_ok result /\
  (forall r, In r result -> exists k, create_question_key r = Returns k) /\
  distinct_question_keys result.
Proof.
  destruct (process_ollama_response_inv response crypto_data countries)
    as (used & Hok & Hkeys & Hd).
  split; [assumption|]. split; [|assumption].
  intros r Hin. destruct (Hkeys r Hin) as (k & Hk & _). eauto.
Qed.

Lemma validate_response_unhashable (crypto_data : crypto) (countries : list string)
  (questions : list json) (q q' m : json) (validated_questions : list json)
  (used_keys : list skey) (result : list json) :
  In q questions ->
  validate_single_question q crypto_data countries = (true, q') ->
  get q' "metric" = Some m -> hashable m = false ->
  validate_response crypto_data countries questions validated_questions used_keys
    <> Returns result.
Proof.
  intros Hin Hv Hm Hh. revert validated_questions used_keys.
  induction questions as [|q0 rest IH]; intros validated used; [contradiction|].
  simpl.
  destruct Hin as [->|Hin].
  - rewrite Hv. unfold create_question_key.
    destruct q' as [| | | | |d]; try discriminate. simpl in Hm.
    unfold item. rewrite Hm.
    destruct (dict_get d "category") as [c|]; cbn [try_ bind]; [|discriminate].
    destruct (dict_get d "timeframe") as [t|]; cbn [try_ bind]; [|discriminate].
    destruct (dict_get d "target_value") as [tv|]; cbn [try_ bind]; [|discriminate].
    destruct (float_of tv) as [v|]; cbn [try_ bind]; [|discriminate].
    destruct (dict_get d "question") as [[| | |text| |]|]; cbn [try_ as_str bind];
      try discriminate.
    unfold skey_in. rewrite Hh, andb_false_r. cbn [andb bind]. discriminate.
  - destruct (validate_single_question q0 crypto_data countries) as [ok q0'].
    destruct ok; [|now apply IH].
    destruct (create_question_key q0') as [key| |]; cbn [bind]; try discriminate.
    destruct (skey_in key used) as [seen| |]; cbn [bind]; try discriminate.
    destruct seen; now apply IH.
Qed.

(** X12.  One accepted record whose metric is a list or an object makes
    [process_ollama_response] return the empty list, whatever the other
    records of the answer are: hashing its key raises, and the handler
    answers with no record at all. *)
Theorem unhashable_metric_voids_response (response message : json) (content : string)
  (crypto_data : crypto) (countries : list string)
  (questions : list json) (q q' m : json) :
  get response "message" = Some message ->
  get message "content" = Some (JStr content) ->
  json_loads (clean_json_content content) = Some (JArr questions) ->
  In q questions ->
  validate_single_question q crypto_data countries = (true, q') ->
  get q' "metric" = Some m -> hashable m = false ->
  process_ollama_response response crypto_data countries = [].
Proof.
  intros Hr Hc Hl Hin Hv Hm Hh. unfold process_ollama_response.
  rewrite Hr, Hc, Hl.
  destruct (validate_response crypto_data countries questions [] []) as [l| |] eqn:E;
    try reflexivity.
  exfalso. revert E. now apply (validate_response_unhashable _ _ _ q q' m).
Qed.

Lemma unhashable_metric_voids_response_witness :
  process_ollama_response (chat_response listed_metric_text) (btc_at 90000) [] = [] /\
  process_ollama_response (chat_response ("[" +++ bitcoin_text "100000" "2025/03/31" +++ "]"))
    (btc_at 90000) [] = [sample_first].
Proof.
  split; [|vm_compute; reflexivity].
  apply (unhashable_metric_voids_response (chat_response listed_metric_text)
           (JObj [("role", JStr "assistant"); ("content", JStr listed_metric_text)])
           listed_metric_text (btc_at 90000) []
           [JObj [("question", JStr "Will Bitcoin price exceed 100000 by 2025/03/31?");
                  ("timeframe", JStr "2025/03/31");
                  ("category", JStr "cryptocurrency");
                  ("metric", JStr "price_target");
                  ("target_value", JStr "100000")];
            listed_metric_parsed]
           listed_metric_parsed
           (JObj [("question", JStr "Will Bitcoin (BTC) exceed 120000 by 2025/03/31?");
                  ("timeframe", JStr "2025/03/31");
                  ("category", JStr "cryptocurrency");
                  ("metric", JArr [JStr "price"]);
                  ("target_value", JNum 120000);
                  ("measurement_source", JStr "CoinMarketCap")])
           (JArr [JStr "price"]));
    try (vm_compute; reflexivity).
  right. left. reflexivity.
Defined.

(** ** [validate_questions] *)

Lemma validate_questions_loop_app (questions valid_questions used_questions : list json) :
  validate_questions_loop questions valid_questions used_questions =
  valid_questions ++ validate_questions_loop questions [] used_questions.
Proof.
  revert valid_questions used_questions.
  induction questions as [|q rest IH]; intros valid used; simpl.
  - now rewrite app_nil_r.
  - destruct (keeps_question q used); [|apply IH].
    destruct (get q "question") as [text|]; [|apply IH].
    rewrite IH, (IH [q]). now rewrite <- app_assoc.
Qed.

Lemma question_checks_ok (r : json) :
  question_checks r = true -> gpt_record_ok r.
Proof.
  unfold question_checks, gpt_record_ok.
  destruct (all_in required_fields r) as [[|]|]; try discriminate.
  destruct (get r "question") as [text|]; try discriminate.
  destruct (get r "timeframe") as [tf|]; try discriminate.
  destruct (get r "target_value") as [target|]; try discriminate.
  destruct (get r "category") as [category|]; try discriminate.
  destruct (get r "metric") as [metric|]; try discriminate.
  destruct (hashable text) eqn:Hh; cbn [negb]; try discriminate.
  destruct (timeframe_ok tf) eqn:Htf; cbn [negb]; try discriminate.
  destruct (float_of target) as [value|] eqn:Hv; try discriminate.
  intros H.
  apply timeframe_ok_inv in Htf as (s & d & -> & Hd & Hrange).
  exists text, s, d, target, value, category.
  do 8 (split; [first [reflexivity | assumption]|]).
  intros ->.
  change (json_eqb (JStr "social_events") (JStr "social_events")) with true in H.
  destruct (between 50 value 500) eqn:Hb; [now apply between_spec|discriminate].
Qed.

(** The records of the loop, for a list [used_questions] that holds the
    questions of the records before. *)
Lemma validate_questions_loop_inv (questions used_questions : list json) :
  let result := validate_questions_loop questions [] used_questions in
  Forall (fun r => In r questions /\ gpt_record_ok r) result /\
  (forall r t, In r result -> get r "question" = Some t ->
     existsb (json_eqb t) used_questions = false /\ hashable t = true) /\
  distinct_questions result.
Proof.
  revert used_questions.
  induction questions as [|q rest IH]; intros used; simpl.
  - split; [constructor|]. split; [intros r t []|].
    intros i j r1 r2 t1 t2 _ H. destruct i; discriminate.
  - assert (Hskip :
      Forall (fun r => In r (q :: rest) /\ gpt_record_ok r)
        (validate_questions_loop rest [] used) /\
      (forall r t, In r (validate_questions_loop rest [] used) ->
         get r "question" = Some t ->
         existsb (json_eqb t) used = false /\ hashable t = true) /\
      distinct_questions (validate_questions_loop rest [] used)).
    { destruct (IH used) as (H1 & H2 & H3). split; [|auto].
      eapply Forall_impl; [|exact H1]. simpl. intros a [Ha Hb]. auto. }
    destruct (keeps_question q used) eqn:Hk; [|exact Hskip].
    unfold keeps_question in Hk.
    destruct (get q "question") as [text|] eqn:Ht; [|exact Hskip].
    apply andb_prop in Hk as [Hc Hu]. apply negb_true_iff in Hu.
    rewrite validate_questions_loop_app. simpl.
    destruct (IH (text :: used)) as (H1 & H2 & H3).
    pose proof (question_checks_ok _ Hc) as Hok.
    assert (Hht : hashable text = true).
    { destruct Hok as (t & _ & _ & _ & _ & _ & Ht' & Hh & _).
      rewrite Ht in Ht'. injection Ht' as <-. exact Hh. }
    split; [|split].
    + constructor; [auto|].
      eapply Forall_impl; [|exact H1]. simpl. intros a [Ha Hb]. auto.
    + intros r t [<-|Hin] Hr.
      * rewrite Ht in Hr. injection Hr as <-. auto.
      * destruct (H2 r t Hin Hr) as [Hx Hy]. simpl in Hx.
        apply orb_false_elim in Hx as [_ Hx]. auto.
    + intros i j r1 r2 t1 t2 Hij N1 N2 T1 T2.
      destruct i as [|i], j as [|j]; simpl in N1, N2.
      * congruence.
      * injection N1 as <-. rewrite Ht in T1. injection T1 as <-.
        apply nth_error_In in N2. destruct (H2 r2 t2 N2 T2) as [Hx Hy].
        simpl in Hx. apply orb_false_elim in Hx as [Hx _].
        now rewrite json_eqb_sym.
      * injection N2 as <-. rewrite Ht in T2. injection T2 as <-.
        apply nth_error_In in N1. destruct (H2 r1 t1 N1 T1) as [Hx Hy].
        simpl in Hx. now apply orb_false_elim in Hx as [Hx _].
      * apply (H3 i j r1 r2); auto.
Qed.

(** X13.  The records [validate_questions] returns are records of its
    argument; each has a question that can be hashed, a timeframe in the
    window and a target [float] reads, between 50 and 500 for
    [social_events]; and no two of them have the same question. *)
Theorem validate_questions_result (questions : json) (items valid_questions : list json) :
  py_iter questions = Returns items ->
  validate_questions questions = Returns valid_questions ->
  Forall (fun r => In r items /\ gpt_record_ok r) valid_questions /\
  distinct_questions valid_questions.
Proof.
  unfold validate_questions. intros -> H. cbn [bind] in H. injection H as <-.
  destruct (validate_questions_loop_inv items []) as (H1 & _ & H3). auto.
Qed.

Lemma validate_questions_result_witness :
  Forall (fun r => In r [protest_record; gdp_normalized; gdp_normalized] /\ gpt_record_ok r)
    [protest_record; gdp_normalized] /\
  distinct_questions [protest_record; gdp_normalized].
Proof.
  apply (validate_questions_result (JArr [protest_record; gdp_normalized; gdp_normalized]));
    vm_compute; reflexivity.
Defined.

Lemma validate_questions_loop_again (questions used used' : list json) :
  (forall t, hashable t = true ->
     existsb (json_eqb t) used' = true -> existsb (json_eqb t) used = true) ->
  validate_questions_loop (validate_questions_loop questions [] used) [] used' =
  validate_questions_loop questions [] used.
Proof.
  revert used used'.
  induction questions as [|q rest IH]; intros used used' Hsub; simpl; [reflexivity|].
  destruct (keeps_question q used) eqn:Hk; [|now apply IH].
  unfold keeps_question in Hk.
  destruct (get q "question") as [text|] eqn:Ht; [|now apply IH].
  apply andb_prop in Hk as [Hc Hu]. apply negb_true_iff in Hu.
  rewrite (validate_questions_loop_app rest [q]). cbn [app validate_questions_loop].
  assert (Hht : hashable text = true).
  { destruct (question_checks_ok _ Hc) as (t & _ & _ & _ & _ & _ & Ht' & Hh & _).
    rewrite Ht in Ht'. injection Ht' as <-. exact Hh. }
  assert (Hu' : existsb (json_eqb text) used' = false).
  { destruct (existsb (json_eqb text) used') eqn:E; [|reflexivity].
    rewrite (Hsub text Hht E) in Hu. discriminate. }
  unfold keeps_question. rewrite Ht, Hc, Hu'. cbn [andb negb].
  rewrite (validate_questions_loop_app _ [q] (text :: used')). cbn [app]. f_equal.
  apply IH. intros t Hh. simpl.
  intros H. apply orb_prop in H as [H|H].
  - now rewrite H.
  - rewrite (Hsub t Hh H). apply orb_true_r.
Qed.

(** X14.  [validate_questions] drops nothing from a list it has returned:
    validating its result again gives the same list. *)
Theorem validate_questions_idempotent (questions : json) (valid_questions : list json) :
  validate_questions questions = Returns valid_questions ->
  validate_questions (JArr valid_questions) = Returns valid_questions.
Proof.
  unfold validate_questions.
  destruct (py_iter questions) as [items| |]; cbn [bind]; try discriminate.
  intros H. injection H as <-. simpl. f_equal.
  apply validate_questions_loop_again. auto.
Qed.

Lemma validate_questions_idempotent_witness :
  validate_questions gpt_answer = Returns [protest_record; gdp_normalized] /\
  validate_questions (JArr [protest_record; gdp_normalized]) =
    Returns [protest_record; gdp_normalized].
Proof.
  split; [vm_compute; reflexivity|].
  apply (validate_questions_idempotent gpt_answer). vm_compute; reflexivity.
Defined.

(** ** The batches of [generate_questions_ollama_parallel] *)

Lemma range_go_batches (fuel : nat) (i n b : Z) :
  (0 < b)%Z -> (i <= n)%Z -> (n - i <= Z.of_nat fuel)%Z ->
  let sizes := map (fun i => Z.min b (n - i)%Z) (range_go fuel i n b) in
  zsum sizes = (n - i)%Z /\ Forall (fun s => 1 <= s <= b)%Z sizes.
Proof.
  revert i. induction fuel as [|fuel IH]; intros i Hb Hi Hf; simpl.
  - split; [lia|constructor].
  - destruct (Z.ltb_spec 0 b) as [_|]; [|lia].
    destruct (Z.ltb_spec i n) as [Hlt|Hge]; simpl.
    + destruct (Z.le_gt_cases (i + b) n) as [Hle|Hgt].
      * destruct (IH (i + b)%Z Hb Hle ltac:(lia)) as [Hs Ha].
        split; [rewrite Hs; lia|]. constructor; [lia|assumption].
      * destruct fuel as [|fuel']; simpl.
        -- split; [lia|]. constructor; [lia|constructor].
        -- destruct (Z.ltb_spec 0 b) as [_|]; [|lia].
           destruct (Z.ltb_spec (i + b) n) as [|_]; [lia|]. simpl.
           split; [lia|]. constructor; [lia|constructor].
    + split; [lia|constructor].
Qed.

(** X15.  With the server up, a batch size above zero and a number of
    questions that is not negative, the sizes of the batches
    [generate_questions_ollama_parallel] asks for add up to the number of
    questions; every batch has a question at least and the batch size at
    most, and three at most when more than ten questions are asked for. *)
Theorem parallel_batches_cover (crypto_data : crypto) (create_prompt : Z -> outcome string)
  (chat : string -> nat -> nat -> chat_event) (num_questions batch_size : Z) :
  (0 <= num_questions)%Z -> (0 < batch_size)%Z ->
  let tasks :=
    fst (generate_questions_ollama_parallel crypto_data create_prompt chat true
           num_questions batch_size) in
  zsum tasks = num_questions /\
  Forall (fun s => (1 <= s <= batch_size)%Z /\ ((10 < num_questions)%Z -> (s <= 3)%Z)) tasks.
Proof.
  intros Hn Hb. unfold generate_questions_ollama_parallel, py_range. cbn [negb].
  destruct (Z.ltb_spec 10 num_questions) as [Hbig|Hsmall].
  - destruct (Z.eqb_spec (Z.min 3 batch_size) 0) as [|_]; [lia|]. cbn [fst].
    destruct (range_go_batches (Z.to_nat (Z.abs (num_questions - 0))) 0 num_questions
                (Z.min 3 batch_size)) as [Hs Ha]; try lia.
    split; [rewrite Hs; lia|].
    eapply Forall_impl; [|exact Ha]. simpl. intros s Hsz. lia.
  - destruct (Z.eqb_spec batch_size 0) as [|_]; [lia|]. cbn [fst].
    destruct (range_go_batches (Z.to_nat (Z.abs (num_questions - 0))) 0 num_questions
                batch_size) as [Hs Ha]; try lia.
    split; [rewrite Hs; lia|].
    eapply Forall_impl; [|exact Ha]. simpl. intros s Hsz. lia.
Qed.

Lemma parallel_batches_cover_witness :
  let tasks :=
    fst (generate_questions_ollama_parallel [] (fun _ => Raises) (fun _ _ _ => ChatFailed)
           true 11 5) in
  zsum tasks = 11%Z /\
  Forall (fun s => (1 <= s <= 5)%Z /\ ((10 < 11)%Z -> (s <= 3)%Z)) tasks.
Proof.
  apply (parallel_batches_cover [] (fun _ => Raises) (fun _ _ _ => ChatFailed) 11 5); lia.
Defined.

Lemma process_ollama_response_ok (response : json) (crypto_data : crypto)
  (countries : list string) :
  Forall record_ok (process_ollama_response response crypto_data countries).
Proof.
  destruct (process_ollama_response_inv response crypto_data countries) as (used & H & _).
  exact H.
Qed.

Lemma ollama_attempts_ok (crypto_data : crypto) (chat : string -> nat -> nat -> chat_event)
  (prompt : string) (task retries attempt : nat) :
  Forall record_ok (ollama_attempts crypto_data chat prompt task retries attempt).
Proof.
  revert attempt. induction retries as [|retries IH]; intros attempt; simpl; [constructor|].
  destruct (chat prompt task attempt) as [|response]; [apply IH|].
  pose proof (process_ollama_response_ok response crypto_data []) as H.
  destruct (process_ollama_response response crypto_data []); [apply IH|exact H].
Qed.

Lemma gather_batches_ok (crypto_data : crypto) (create_prompt : Z -> outcome string)
  (chat : string -> nat -> nat -> chat_event) (task : nat) (tasks : list Z) :
  Forall record_ok (gather_batches crypto_data create_prompt chat task tasks).
Proof.
  revert task. induction tasks as [|size rest IH]; intros task; simpl; [constructor|].
  unfold generate_questions_batch_ollama_async.
  destruct (create_prompt size) as [prompt| |]; cbn [bind]; try apply IH.
  apply Forall_app. split; [apply ollama_attempts_ok|apply IH].
Qed.

(** X16.  Whatever the model answers, when
    [generate_questions_ollama_parallel] returns a list, every record of it
    has a category of the fixed set and a timeframe in the window: the
    records of all batches went through the validator. *)
Theorem parallel_records_valid (crypto_data : crypto) (create_prompt : Z -> outcome string)
  (chat : string -> nat -> nat -> chat_event) (server_ok : bool)
  (num_questions batch_size : Z) (questions : list json) :
  snd (generate_questions_ollama_parallel crypto_data create_prompt chat server_ok
         num_questions batch_size) = Returns questions ->
  Forall record_ok questions.
Proof.
  unfold generate_questions_ollama_parallel.
  destruct server_ok; cbn [negb].
  - destruct (py_range 0 num_questions _) as [starts| |]; cbn [snd]; try discriminate.
    intros H. injection H as <-. apply gather_batches_ok.
  - cbn [snd]. intros H. injection H as <-. constructor.
Qed.

Lemma parallel_records_valid_witness : Forall record_ok [sample_first; sample_first].
Proof.
  apply (parallel_records_valid (btc_at 90000) (fun _ => Returns "prompt")
           (fun _ _ _ =>
              ChatAnswer (chat_response ("[" +++ bitcoin_text "100000" "2025/03/31" +++ "]")))
           true 2 1).
  vm_compute; reflexivity.
Defined.

(** ** The result of [generate_questions_pool] *)

Lemma select_diverse_questions_within (fuel : nat) (pool : list json) (num_questions : nat)
  (required_categories : list string) (selected : list json) :
  select_diverse_questions fuel pool num_questions required_categories = Returns selected ->
  incl selected pool.
Proof.
  intros H. unfold select_diverse_questions in H.
  destruct (by_category pool []) as [g| |] eqn:Hg; simpl in H; try discriminate.
  destruct required_categories as [|c cs]; try discriminate.
  destruct (first_pass _ _ _ _ _ _) as [st| |] eqn:H1; simpl in H; try discriminate.
  destruct (fill_loop _ _ _ _ _) as [st'| |] eqn:H2; simpl in H; try discriminate.
  injection H as <-.
  assert (Hgroups : forall c qs, In (c, qs) g -> incl qs pool).
  { apply (by_category_within pool [] g pool Hg); [apply incl_refl|].
    intros c0 qs []. }
  intros q Hq.
  assert (Hq' : In q (fst st')).
  { rewrite <- (firstn_skipn num_questions (fst st')). apply in_or_app. now left. }
  clear Hq. revert Hq'. generalize q. change (incl (fst st') pool).
  eapply fill_loop_within in H2; eauto.
  eapply first_pass_within in H1; eauto.
  intros x [].
Qed.

Lemma generate_questions_pool_ok (fuel : nat) (events : list gen_event)
  (allowed_countries : list string) (crypto_data : crypto) (num_questions pool_size : nat)
  (required_categories : list string) (category_targets : option counts)
  (questions : list json) :
  snd (generate_questions_pool fuel events allowed_countries crypto_data num_questions
         pool_size required_categories category_targets) = Returns questions ->
  List.length questions <= num_questions /\ Forall record_ok questions.
Proof.
  unfold generate_questions_pool.
  destruct (checked_categories allowed_countries required_categories) as [|c cs] eqn:Hc.
  - cbn [snd]. intros H. injection H as <-. split; [simpl; lia|constructor].
  - destruct (pool_loop _ _ _ _ _ _ _) as [st ended] eqn:Hl.
    destruct ended; cbn [snd]; [|discriminate].
    intros H. split; [eapply select_diverse_questions_length; eassumption|].
    apply select_diverse_questions_within in H.
    pose proof (pool_loop_inv crypto_data allowed_countries
                  (pool_targets_of
                     match category_targets with
                     | Some targets => targets
                     | None => default_targets num_questions (c :: cs)
                     end)
                  (Nat.max pool_size (num_questions * 4)) (c :: cs) events
                  (initial_state (c :: cs)) (initial_inv (c :: cs))) as (Hok & _).
    rewrite Hl in Hok. cbn [fst] in Hok.
    rewrite Forall_forall in *. auto.
Qed.

(** X17.  When [generate_questions_pool] returns a list, it has no more
    records than were asked for, and each of them has a category of the
    fixed set and a timeframe in the window. *)
Theorem pool_result_valid (fuel : nat) (events : list gen_event)
  (allowed_countries : list string) (crypto_data : crypto) (num_questions pool_size : nat)
  (required_categories : list string) (category_targets : option counts)
  (questions : list json) :
  snd (generate_questions_pool fuel events allowed_countries crypto_data num_questions
         pool_size required_categories category_targets) = Returns questions ->
  List.length questions <= num_questions /\ Forall record_ok questions.
Proof. apply generate_questions_pool_ok. Qed.

Lemma pool_result_valid_witness :
  List.length [sample_first] <= 1 /\ Forall record_ok [sample_first].
Proof.
  apply (pool_result_valid 10 four_answers ["USA"] (btc_at 90000) 1 200 ["cryptocurrency"] None).
  vm_compute; reflexivity.
Defined.

(** ** [generate_questions_batch_gpt4] *)

Lemma validate_questions_ok (questions : json) (valid_questions : list json) :
  validate_questions questions = Returns valid_questions ->
  Forall gpt_record_ok valid_questions /\ distinct_questions valid_questions.
Proof.
  unfold validate_questions.
  destruct (py_iter questions) as [items| |]; cbn [bind]; try discriminate.
  intros H. injection H as <-.
  destruct (validate_questions_loop_inv items []) as (H1 & _ & H3).
  split; [|assumption].
  eapply Forall_impl; [|exact H1]. simpl. now intros a [_ Ha].
Qed.

Lemma distinct_questions_nil : distinct_questions [].
Proof. intros i j r1 r2 t1 t2 _ H. destruct i; discriminate. Qed.

Lemma gpt_attempts_ok (completion : string -> nat -> gpt_event) (prompt : string)
  (retries attempt : nat) :
  let result := gpt_attempts completion prompt retries attempt in
  Forall gpt_record_ok result /\ distinct_questions result.
Proof.
  revert attempt. induction retries as [|retries IH]; intros attempt; simpl.
  - split; [constructor|apply distinct_questions_nil].
  - destruct (completion prompt attempt) as [|content].
    + destruct (attempt <? 2); [apply IH|].
      split; [constructor|apply distinct_questions_nil].
    + destruct (json_loads (trim_answer content)) as [questions|]; [|apply IH].
      destruct (validate_questions questions) as [[|q l]| |] eqn:Hv.
      * apply IH.
      * now apply validate_questions_ok in Hv.
      * destruct (attempt <? 2); [apply IH|].
        split; [constructor|apply distinct_questions_nil].
      * destruct (attempt <? 2); [apply IH|].
        split; [constructor|apply distinct_questions_nil].
Qed.

Lemma gpt_batch_records_ok (gpt_prompt : nat -> outcome string)
  (completion : string -> nat -> gpt_event) (num_questions : nat) (questions : list json) :
  generate_questions_batch_gpt4 gpt_prompt completion num_questions = Returns questions ->
  Forall gpt_record_ok questions /\ distinct_questions questions.
Proof.
  unfold generate_questions_batch_gpt4.
  destruct (gpt_prompt num_questions) as [prompt| |]; cbn [bind]; try discriminate.
  intros H. injection H as <-. exact (gpt_attempts_ok completion prompt 3 0).
Qed.

(** X18.  The records [generate_questions_batch_gpt4] returns come from one
    answer of the model: each has a question that can be hashed, a
    timeframe in the window and a target [float] reads, and no two of them
    have the same question. *)
Theorem gpt_batch_records_valid (gpt_prompt : nat -> outcome string)
  (completion : string -> nat -> gpt_event) (num_questions : nat) (questions : list json) :
  generate_questions_batch_gpt4 gpt_prompt completion num_questions = Returns questions ->
  Forall gpt_record_ok questions /\ distinct_questions questions.
Proof. apply gpt_batch_records_ok. Qed.

Lemma gpt_batch_records_valid_witness :
  Forall gpt_record_ok [gpt_parsed] /\ distinct_questions [gpt_parsed].
Proof.
  apply (gpt_batch_records_valid (fun _ => Returns "prompt")
           (fun _ attempt => if attempt =? 0 then GptFailed else GptContent gpt_text) 1).
  vm_compute; reflexivity.
Defined.

(** ** [generate_questions] *)

Lemma data_categories_social (fred_data : json) (acled_countries : list string)
  (crypto_data : crypto) (market_data : json) :
  acled_countries = [] ->
  existsb (String.eqb "social_events")
    (data_categories fred_data acled_countries crypto_data market_data) = false.
Proof.
  intros ->. unfold data_categories. cbn [List.length Nat.eqb negb app].
  destruct (truthy fred_data), crypto_data, (truthy market_data); reflexivity.
Qed.

(** X19.  [generate_questions_pool] leaves the list of categories that
    [generate_questions] builds as it is: [social_events] is in the list
    only when there are countries, so the pool has nothing to remove. *)
Theorem generate_questions_keeps_categories (fuel : nat) (events : list gen_event)
  (fred_data : json) (acled_countries : list string) (crypto_data : crypto)
  (market_data : json) (num_questions pool_size : nat) :
  let required_categories :=
    data_categories fred_data acled_countries crypto_data market_data in
  fst (generate_questions_pool fuel events acled_countries crypto_data num_questions
         pool_size required_categories None) = required_categories.
Proof.
  cbv zeta. rewrite generate_questions_pool_categories. unfold checked_categories.
  destruct acled_countries as [|c cs]; [|reflexivity].
  now rewrite data_categories_social.
Qed.

Lemma record_ok_in_window (r : json) : record_ok r -> in_window r.
Proof.
  intros (c & tf & d & _ & _ & Ht & Hd & Hr). exists tf, d. auto.
Qed.

Lemma gpt_record_ok_in_window (r : json) : gpt_record_ok r -> in_window r.
Proof.
  intros (text & tf & d & target & value & category & _ & _ & Ht & Hd & Hr & _).
  exists tf, d. auto.
Qed.

Lemma parallel_records_ok (crypto_data : crypto) (create_prompt : Z -> outcome string)
  (chat : string -> nat -> nat -> chat_event) (server_ok : bool)
  (num_questions batch_size : Z) (questions : list json) :
  snd (generate_questions_ollama_parallel crypto_data create_prompt chat server_ok
         num_questions batch_size) = Returns questions ->
  Forall record_ok questions.
Proof.
  unfold generate_questions_ollama_parallel.
  destruct server_ok; cbn [negb].
  - destruct (py_range 0 num_questions _) as [starts| |]; cbn [snd]; try discriminate.
    intros H. injection H as <-. apply gather_batches_ok.
  - cbn [snd]. intros H. injection H as <-. constructor.
Qed.

(** X20.  Whatever the model and the way of generation, every record
    [generate_questions] returns has a timeframe that [strptime] reads as a
    date between 2024-12-01 and 2025-06-30. *)
Theorem generated_questions_in_window (fuel : nat) (events : list gen_event)
  (create_prompt : Z -> outcome string) (chat : string -> nat -> nat -> chat_event)
  (server_ok : bool) (gpt_prompt : nat -> outcome string)
  (completion : string -> nat -> gpt_event)
  (fred_data : json) (acled_countries : list string) (crypto_data : crypto)
  (market_data : json) (total_questions : nat) (model : string) (parallel : bool)
  (questions : list json) :
  generate_questions fuel events create_prompt chat server_ok gpt_prompt completion
    fred_data acled_countries crypto_data market_data total_questions model parallel
    = Returns questions ->
  Forall in_window questions.
Proof.
  unfold generate_questions.
  destruct (data_categories fred_data acled_countries crypto_data market_data) as [|c cs].
  - intros H. injection H as <-. constructor.
  - destruct (String.eqb model "llama2"); [destruct parallel|]; intros H.
    + apply parallel_records_ok in H.
      eapply Forall_impl; [|exact H]. apply record_ok_in_window.
    + apply generate_questions_pool_ok in H as [_ H].
      eapply Forall_impl; [|exact H]. apply record_ok_in_window.
    + apply gpt_batch_records_ok in H as [H _].
      eapply Forall_impl; [|exact H]. apply gpt_record_ok_in_window.
Qed.

Lemma generated_questions_in_window_witness : Forall in_window [gpt_parsed].
Proof.
  apply (generated_questions_in_window 0 [] (fun _ => Raises) (fun _ _ _ => ChatFailed) false
           (fun _ => Returns "prompt") (fun _ _ => GptContent gpt_text)
           (JObj [("GDP", JNum 29000)]) ["USA"] [] JNull 1 "gpt4" false).
  vm_compute; reflexivity.
Defined.

(** ** [get_timeframe_variations] *)

(** X21.  The 49 timeframes of [get_timeframe_variations] are all
    different, and each of them passes the date check of the validators:
    [strptime] reads it as a date of the window. *)
Theorem timeframe_variations_valid :
  List.length get_timeframe_variations = 49 /\
  NoDup get_timeframe_variations /\
  Forall (fun timeframe => timeframe_ok (JStr timeframe) = true) get_timeframe_variations.
Proof.
  split; [vm_compute; reflexivity|]. split.
  - apply (NoDup_count_occ' string_dec).
    assert (H : forallb (fun x => count_occ string_dec get_timeframe_variations x =? 1)
                  get_timeframe_variations = true) by (vm_compute; reflexivity).
    rewrite forallb_forall in H. intros x Hx. apply Nat.eqb_eq. auto.
  - apply Forall_forall. apply forallb_forall. vm_compute; reflexivity.
Qed.

(** ** [validate_target_value] *)

Lemma json_eqb_str (v : json) (s : string) : json_eqb v (JStr s) = true -> v = JStr s.
Proof.
  destruct v; simpl; try discriminate. intros H. apply String.eqb_eq in H. now subst.
Qed.

Lemma crypto_ok_named (crypto_data : crypto) (text : json) (value : Q) :
  crypto_ok crypto_data text value = Some true ->
  exists symbol data,
    In (symbol, data) crypto_data /\
    (contains text symbol = Some true \/ contains text (c_name data) = Some true) /\
    (min_price data <= value <= max_price data)%Q.
Proof.
  induction crypto_data as [|[symbol data] rest IH]; [discriminate|].
  cbn [crypto_ok].
  destruct (contains text symbol) as [[|]|] eqn:Hs; try discriminate.
  - intros H. injection H as H. exists symbol, data.
    split; [now left|]. auto using between_spec.
  - destruct (contains text (c_name data)) as [[|]|] eqn:Hn; try discriminate.
    + intros H. injection H as H. exists symbol, data.
      split; [now left|]. auto using between_spec.
    + intros H. destruct (IH H) as (s & d & Hin & Hname & Hr).
      exists s, d. split; [now right|]. auto.
Qed.

(** X22.  What [validate_target_value] accepts: a value [float] reads, in
    one of the four categories; between 50 and 500 for [social_events];
    for [cryptocurrency], within half and twice the price of an asset that
    the question names. *)
Theorem validate_target_value_accepts (category value : json) (crypto_data : crypto)
  (question : json) :
  validate_target_value category value crypto_data question = Returns true ->
  exists v c,
    float_of value = Some v /\ category = JStr c /\ In c valid_categories /\
    (c = "social_events" -> (50 <= v <= 500)%Q) /\
    (c = "cryptocurrency" ->
     exists text symbol data,
       get question "question" = Some text /\ In (symbol, data) crypto_data /\
       (contains text symbol = Some true \/ contains text (c_name data) = Some true) /\
       (min_price data <= v <= max_price data)%Q).
Proof.
  unfold validate_target_value.
  destruct (float_of value) as [v|]; [|discriminate].
  destruct (json_eqb category (JStr "cryptocurrency")) eqn:E1.
  { apply json_eqb_str in E1 as ->.
    destruct (Nat.eqb (List.length crypto_data) 0 || negb (truthy question)); [discriminate|].
    destruct question as [| | | | |d]; try discriminate.
    destruct (dict_get d "question") as [text|] eqn:Ht; cbn [try_ bind]; [|discriminate].
    destruct (crypto_ok crypto_data text v) as [[|]|] eqn:Hok; try discriminate.
    intros _. exists v, "cryptocurrency".
    split; [reflexivity|]. split; [reflexivity|]. split; [vm_compute; auto|].
    split; [discriminate|]. intros _.
    apply crypto_ok_named in Hok as (symbol & data & H1 & H2 & H3).
    exists text, symbol, data. auto. }
  destruct (json_eqb category (JStr "economic_indicator")) eqn:E2.
  { apply json_eqb_str in E2 as ->.
    destruct (get_metric question) as [metric| |]; cbn [bind]; try discriminate.
    intros _. exists v, "economic_indicator".
    split; [reflexivity|]. split; [reflexivity|]. split; [vm_compute; auto|].
    split; discriminate. }
  destruct (json_eqb category (JStr "social_events")) eqn:E3.
  { apply json_eqb_str in E3 as ->.
    intros H. injection H as H. exists v, "social_events".
    split; [reflexivity|]. split; [reflexivity|]. split; [vm_compute; auto|].
    split; [intros _; now apply between_spec|discriminate]. }
  destruct (json_eqb category (JStr "financial_market")) eqn:E4; [|discriminate].
  apply json_eqb_str in E4 as ->.
  destruct (get_metric question) as [metric| |]; cbn [bind]; try discriminate.
  intros _. exists v, "financial_market".
  split; [reflexivity|]. split; [reflexivity|]. split; [vm_compute; auto 6|].
  split; discriminate.
Qed.

Lemma validate_target_value_accepts_witness :
  exists v c,
    float_of (JStr "100000") = Some v /\ JStr "cryptocurrency" = JStr c /\
    In c valid_categories /\
    (c = "social_events" -> (50 <= v <= 500)%Q) /\
    (c = "cryptocurrency" ->
     exists text symbol data,
       get sample_first "question" = Some text /\ In (symbol, data) (btc_at 90000) /\
       (contains text symbol = Some true \/ contains text (c_name data) = Some true) /\
       (min_price data <= v <= max_price data)%Q).
Proof.
  apply (validate_target_value_accepts (JStr "cryptocurrency") (JStr "100000") (btc_at 90000)
           sample_first).
  vm_compute; reflexivity.
Defined.

(** X23.  Called without a question, as its default allows,
    [validate_target_value] does not answer for an [economic_indicator] or
    a [financial_market] value that [float] reads: reading the metric
    raises [AttributeError], which the function does not catch. *)
Theorem validate_target_value_without_question (category value : json)
  (crypto_data : crypto) (v : Q) :
  float_of value = Some v ->
  category = JStr "economic_indicator" \/ category = JStr "financial_market" ->
  validate_target_value category value crypto_data JNull = Raises.
Proof.
  intros Hv [-> | ->]; unfold validate_target_value; rewrite Hv; reflexivity.
Qed.

Lemma validate_target_value_without_question_witness :
  validate_target_value (JStr "economic_indicator") (JStr "4.5") [] JNull = Raises.
Proof.
  apply (validate_target_value_without_question _ _ [] (9 # 2)).
  - vm_compute; reflexivity.
  - now left.
Defined.

(** ** [normalize_target_value] *)

Lemma value_within_spec (lo hi : Q) (value r : json) :
  value_within lo hi value = Some r ->
  r = value /\ exists v, as_number r = Some v /\ (lo <= v <= hi)%Q.
Proof.
  unfold value_within. destruct (as_number value) as [v|] eqn:Hv; [|discriminate].
  destruct (between lo v hi) eqn:Hb; [|discriminate].
  intros H. injection H as <-. split; [reflexivity|].
  exists v. auto using between_spec.
Qed.

(** X24.  What [normalize_target_value] returns is its argument, or the
    number [float] reads in it when it is a string, never another value;
    for [social_events] the number is between 50 and 500, and for
    [cryptocurrency] with market data it is within half and twice the price
    of one of the assets, whichever the question is about. *)
Theorem normalize_target_value_result (value category metric : json) (crypto_data : crypto)
  (r : json) :
  normalize_target_value value category metric crypto_data = Returns (Some r) ->
  (r = value \/ exists s v, value = JStr s /\ float_of_cleaned value = Some v /\ r = JNum v) /\
  (category = JStr "social_events" ->
   exists v, as_number r = Some v /\ (50 <= v <= 500)%Q) /\
  (category = JStr "cryptocurrency" -> crypto_data <> [] ->
   exists v symbol data,
     as_number r = Some v /\ In (symbol, data) crypto_data /\
     (min_price data <= v <= max_price data)%Q).
Proof.
  unfold normalize_target_value.
  set (converted := match value with
                    | JStr _ => option_map JNum (float_of_cleaned value)
                    | _ => Some value
                    end).
  assert (Hconv : forall x, converted = Some x ->
            x = value \/
            exists s v, value = JStr s /\ float_of_cleaned value = Some v /\ x = JNum v).
  { subst converted. intros x. destruct value; try (intros H; injection H as <-; now left).
    destruct (float_of_cleaned (JStr s)) as [v|] eqn:Hf; [|discriminate].
    intros H. injection H as <-. right. eauto. }
  destruct converted as [x|]; [|discriminate].
  specialize (Hconv x eq_refl).
  destruct (json_eqb category (JStr "cryptocurrency")) eqn:E1.
  - apply json_eqb_str in E1 as ->.
    destruct crypto_data as [|entry rest].
    + cbn [List.length Nat.eqb negb andb].
      change (json_eqb (JStr "cryptocurrency") (JStr "social_events")) with false.
      change (json_eqb (JStr "cryptocurrency") (JStr "economic_indicator")) with false.
      cbv iota. intros H. injection H as <-.
      split; [assumption|]. split; [discriminate|]. intros _ Hne. now contradiction Hne.
    + cbn [List.length Nat.eqb negb andb]. unfold value_in_some_range.
      destruct (as_number x) as [v|] eqn:Hv; [|discriminate].
      destruct (existsb _ (entry :: rest)) eqn:He; [|discriminate].
      intros H. injection H as <-.
      split; [assumption|]. split; [discriminate|]. intros _ _.
      apply existsb_exists in He as ([symbol data] & Hin & Hb).
      exists v, symbol, data. auto using between_spec.
  - cbn [andb].
    destruct (json_eqb category (JStr "social_events")) eqn:E2.
    + apply json_eqb_str in E2 as ->.
      intros H. injection H as H. apply value_within_spec in H as [-> H].
      split; [assumption|]. split; [auto|discriminate].
    + assert (Hcat : category <> JStr "social_events" /\ category <> JStr "cryptocurrency").
      { split; intros ->; discriminate. }
      destruct Hcat as [Hs Hc].
      destruct (json_eqb category (JStr "economic_indicator")).
      * destruct (as_str metric) as [m| |]; cbn [bind]; try discriminate.
        destruct (range_of normalize_ranges (lower m)) as [[lo hi]|].
        -- intros H. injection H as H. apply value_within_spec in H as [-> _].
           split; [assumption|]. split; intros; contradiction.
        -- intros H. injection H as <-.
           split; [assumption|]. split; intros; contradiction.
      * intros H. injection H as <-.
        split; [assumption|]. split; intros; contradiction.
Qed.

Lemma normalize_target_value_result_witness :
  (JNum 100000 = JStr "$100,000" \/
   exists s v, JStr "$100,000" = JStr s /\ float_of_cleaned (JStr "$100,000") = Some v /\
               JNum 100000 = JNum v) /\
  (JStr "cryptocurrency" = JStr "social_events" ->
   exists v, as_number (JNum 100000) = Some v /\ (50 <= v <= 500)%Q) /\
  (JStr "cryptocurrency" = JStr "cryptocurrency" -> btc_at 90000 <> [] ->
   exists v symbol data,
     as_number (JNum 100000) = Some v /\ In (symbol, data) (btc_at 90000) /\
     (min_price data <= v <= max_price data)%Q).
Proof.
  apply (normalize_target_value_result (JStr "$100,000") (JStr "cryptocurrency")
           (JStr "price_target") (btc_at 90000)).
  vm_compute; reflexivity.
Defined.

(** ** [is_unique_question] *)

Lemma field_similarity_bounds (a b : json) :
  field_similarity a b = 0%Q \/ field_similarity a b = (1 # 2)%Q \/
  field_similarity a b = 1%Q.
Proof.
  unfold field_similarity. destruct (json_eqb a b); [auto|].
  destruct a, b; auto.
  destruct (str_in (lower s) (lower s0) || str_in (lower s0) (lower s)); auto.
Qed.

Lemma field_similarity_same (a b : json) :
  json_eqb a b = true -> field_similarity a b = 1%Q.
Proof. unfold field_similarity. now intros ->. Qed.

Lemma no_similar_key_In (unique_key used_key : list json) (used_questions : list (list json))
  (similarity_threshold : Q) :
  In used_key used_questions ->
  Qle_b similarity_threshold
    (similarity_count unique_key used_key 0 /
     inject_Z (Z.of_nat (List.length unique_key)))%Q = true ->
  no_similar_key unique_key used_questions similarity_threshold = false.
Proof.
  intros Hin Hs. induction used_questions as [|k rest IH]; [contradiction|].
  cbn [no_similar_key]. destruct Hin as [->|Hin].
  - now rewrite Hs.
  - destruct (Qle_b similarity_threshold (similarity_count unique_key k 0 / _));
      [reflexivity|now apply IH].
Qed.

(** X25.  A question is never unique beside a used key of the same
    category, metric and timeframe when neither names a country, a stock
    or a cryptocurrency: with the default threshold of 0.8 the target
    value makes no difference. *)
Theorem same_target_field_not_unique (py_str : json -> string) (d : dict)
  (used_questions : list (list json))
  (category metric timeframe target category' metric' timeframe' target' : json) :
  dict_get d "category" = Some category ->
  dict_get d "metric" = Some metric ->
  dict_get d "timeframe" = Some timeframe ->
  dict_get d "target_value" = Some target ->
  dict_get d "country" = None ->
  dict_get d "stock" = None ->
  dict_get d "cryptocurrency" = None ->
  hashable category = true -> hashable metric = true -> hashable timeframe = true ->
  json_eqb category category' = true ->
  json_eqb metric metric' = true ->
  json_eqb timeframe timeframe' = true ->
  In [category'; metric'; timeframe'; target';
      JStr EmptyString; JStr EmptyString; JStr EmptyString] used_questions ->
  is_unique_question py_str (JObj d) used_questions (8 # 10)%Q = Returns false.
Proof.
  intros Hc Hm Ht Hv Hco Hst Hcr Hhc Hhm Hht Ec Em Et Hin.
  unfold is_unique_question, unique_key_of, item, get_or_empty.
  rewrite Hc, Hm, Ht, Hv, Hco, Hst, Hcr. cbn [try_ bind forallb].
  rewrite Hhc, Hhm, Hht. cbn [hashable andb negb].
  destruct (existsb _ used_questions); [reflexivity|].
  f_equal. eapply no_similar_key_In; [exact Hin|].
  cbn [similarity_count List.length].
  rewrite (field_similarity_same _ _ Ec), (field_similarity_same _ _ Em),
    (field_similarity_same _ _ Et).
  change (field_similarity (JStr EmptyString) (JStr EmptyString)) with 1%Q.
  destruct (field_similarity_bounds (JStr (py_str target)) target') as [-> | [-> | ->]];
    vm_compute; reflexivity.
Qed.

Lemma same_target_field_not_unique_witness :
  is_unique_question (fun _ => "120000.0") sample_second
    [[JStr "cryptocurrency"; JStr "price_target"; JStr "2025/04/30"; JStr "100000.0";
      JStr EmptyString; JStr EmptyString; JStr EmptyString]] (8 # 10)%Q = Returns false.
Proof.
  apply (same_target_field_not_unique (fun _ => "120000.0")
           [("question", JStr "Will Bitcoin (BTC) exceed 120000 by 2025/04/30?");
            ("timeframe", JStr "2025/04/30");
            ("category", JStr "cryptocurrency");
            ("metric", JStr "price_target");
            ("target_value", JNum 120000);
            ("measurement_source", JStr "CoinMarketCap")]
           _ (JStr "cryptocurrency") (JStr "price_target") (JStr "2025/04/30") (JNum 120000)
           (JStr "cryptocurrency") (JStr "price_target") (JStr "2025/04/30")
           (JStr "100000.0"));
    try reflexivity.
  now left.
Defined.

(** ** [repair_json] on a text without an object *)

Lemma str_in_char_count (c : ascii) (s : string) :
  str_in (String c EmptyString) s = false -> count_char c s = 0.
Proof.
  induction s as [|d s IH]; [reflexivity|].
  cbn [str_in String.prefix count_char]. intros H.
  apply orb_false_elim in H as [Hp Hs].
  destruct (ascii_dec c d) as [->|Hne].
  - destruct s; discriminate.
  - apply Ascii.eqb_neq in Hne. rewrite Hne. simpl. auto.
Qed.

Lemma count_char_app (c : ascii) (s t : string) :
  count_char c (s +++ t) = count_char c s + count_char c t.
Proof.
  induction s as [|d s IH]; [reflexivity|].
  cbn [String.append count_char]. rewrite IH. lia.
Qed.

Lemma count_char_rev_onto (c : ascii) (s acc : string) :
  count_char c (str_rev_onto s acc) = count_char c s + count_char c acc.
Proof.
  revert acc. induction s as [|d s IH]; intros acc; [reflexivity|].
  cbn [str_rev_onto]. rewrite IH. cbn [count_char]. lia.
Qed.

Lemma count_char_rev (c : ascii) (s : string) : count_char c (str_rev s) = count_char c s.
Proof. unfold str_rev. rewrite count_char_rev_onto. simpl. lia. Qed.

Lemma count_char_lstrip (c : ascii) (p : ascii -> bool) (s : string) :
  count_char c (lstrip_by p s) <= count_char c s.
Proof.
  induction s as [|d s IH]; [reflexivity|].
  cbn [lstrip_by]. destruct (p d); [|reflexivity].
  cbn [count_char]. lia.
Qed.

Lemma count_char_strip (c : ascii) (s : string) :
  count_char c s = 0 -> count_char c (strip s) = 0.
Proof.
  intros H. unfold strip, rstrip_by. rewrite count_char_rev.
  pose proof (count_char_lstrip c is_space (str_rev (lstrip_by is_space s))) as H1.
  rewrite count_char_rev in H1.
  pose proof (count_char_lstrip c is_space s) as H2. lia.
Qed.

Lemma str_rev_onto_app (s t acc : string) :
  str_rev_onto (s +++ t) acc = str_rev_onto t (str_rev_onto s acc).
Proof.
  revert acc. induction s as [|d s IH]; intros acc; [reflexivity|].
  cbn [String.append str_rev_onto]. apply IH.
Qed.

Lemma endswith_last (s : string) (c d : ascii) :
  endswith (s +++ String c EmptyString) (String d EmptyString) = true -> d = c.
Proof.
  unfold endswith, str_rev. rewrite str_rev_onto_app.
  cbn [str_rev_onto String.prefix].
  destruct (ascii_dec d c); [auto|discriminate].
Qed.

Lemma startswith_first (s : string) (c : ascii) :
  startswith s (String c EmptyString) = true -> 0 < count_char c s.
Proof.
  unfold startswith. destruct s as [|d s]; [discriminate|].
  cbn [String.prefix count_char].
  destruct (ascii_dec c d) as [->|]; [|discriminate].
  rewrite Ascii.eqb_refl. lia.
Qed.

(** The scan of a text without a closing brace, or without an opening
    one, finds no object. *)
Lemma scan_no_close (s : string) (st : scan_state) :
  count_char "}" s = 0 -> objects (str_fold scan_char s st) = objects st.
Proof.
  revert st. induction s as [|c s IH]; intros st H; [reflexivity|].
  cbn [count_char] in H. cbn [str_fold]. rewrite IH by lia.
  unfold scan_char.
  destruct (_ && negb _); [|reflexivity].
  destruct (startswith _ "{"); [|reflexivity].
  destruct (endswith _ "}") eqn:He; [|reflexivity].
  apply endswith_last in He. subst c. rewrite Ascii.eqb_refl in H. discriminate.
Qed.

Lemma scan_no_open (s : string) (st : scan_state) :
  count_char "{" s = 0 -> count_char "{" (current st) = 0 ->
  objects (str_fold scan_char s st) = objects st.
Proof.
  revert st. induction s as [|c s IH]; intros st H Hc; [reflexivity|].
  cbn [count_char] in H. cbn [str_fold].
  assert (Hcur : count_char "{" (current st +++ String c EmptyString) = 0).
  { rewrite count_char_app. cbn [count_char]. lia. }
  assert (Hstep : objects (scan_char st c) = objects st /\
                  count_char "{" (current (scan_char st c)) = 0).
  { unfold scan_char.
    destruct (_ && negb _); [|auto].
    destruct (startswith _ "{") eqn:Hs; [|auto].
    apply startswith_first in Hs. lia. }
  destruct Hstep as [Ho Hc']. rewrite IH by (assumption || lia). exact Ho.
Qed.

(** X26.  On a text without an opening brace, or without a closing one,
    [repair_json] answers [None]. *)
Theorem repair_json_no_object (content : string) :
  str_in "{" content = false \/ str_in "}" content = false ->
  repair_json content = None.
Proof.
  intros H. unfold repair_json.
  destruct (String.eqb (strip content) EmptyString); [reflexivity|].
  assert (Ho : objects (str_fold scan_char (strip content) (Scan [] EmptyString 0%Z)) = []).
  { destruct H as [H|H]; apply str_in_char_count in H.
    - apply scan_no_open; [now apply count_char_strip|reflexivity].
    - apply scan_no_close. now apply count_char_strip. }
  now rewrite Ho.
Qed.

Lemma repair_json_no_object_witness : repair_json "{question: Will GDP grow?" = None.
Proof.
  apply (repair_json_no_object "{question: Will GDP grow?"). right. vm_compute; reflexivity.
Defined.

(** ** The diversity score does not depend on the order of the pair *)

Lemma Qmax_sym (a b : Q) : (Qmax_ a b == Qmax_ b a)%Q.
Proof.
  unfold Qmax_.
  destruct (Qle_bool a b) eqn:Hab, (Qle_bool b a) eqn:Hba; try reflexivity.
  - apply Qle_bool_iff in Hab, Hba. now apply Qle_antisym.
  - assert (Ha : ~ (a <= b)%Q) by (rewrite <- Qle_bool_iff; congruence).
    assert (Hb : ~ (b <= a)%Q) by (rewrite <- Qle_bool_iff; congruence).
    apply Qnot_le_lt in Ha. apply Qlt_le_weak in Ha. contradiction.
Qed.

Lemma Qabs_sub_sym (a b : Q) : (Qabs_ (a - b) == Qabs_ (b - a))%Q.
Proof.
  unfold Qabs_.
  destruct (Qle_bool 0 (a - b)) eqn:Hab, (Qle_bool 0 (b - a)) eqn:Hba.
  - apply Qle_bool_iff in Hab, Hba.
    apply Qle_antisym.
    + apply (Qle_trans _ 0); [|assumption].
      setoid_replace (a - b)%Q with (- (b - a))%Q by ring.
      now apply (Qopp_le_compat 0 (b - a)).
    + apply (Qle_trans _ 0); [|assumption].
      setoid_replace (b - a)%Q with (- (a - b))%Q by ring.
      now apply (Qopp_le_compat 0 (a - b)).
  - ring.
  - ring.
  - assert (Ha : ~ (0 <= a - b)%Q) by (rewrite <- Qle_bool_iff; congruence).
    assert (Hb : ~ (0 <= b - a)%Q) by (rewrite <- Qle_bool_iff; congruence).
    apply Qnot_le_lt in Ha. exfalso. apply Hb.
    setoid_replace (b - a)%Q with (- (a - b))%Q by ring.
    apply (Qopp_le_compat (a - b) 0). now apply Qlt_le_weak.
Qed.

Lemma value_term_sym (a b : Q) :
  (if Qeq_bool (Qmax_ a b) 0 then 0
   else if Qlt_b 0.2 (Qabs_ (a - b) / Qmax_ a b) then 1 else 0) =
  (if Qeq_bool (Qmax_ b a) 0 then 0
   else if Qlt_b 0.2 (Qabs_ (b - a) / Qmax_ b a) then 1 else 0).
Proof.
  unfold Qlt_b.
  rewrite (Qeqb_comp _ _ (Qmax_sym a b) 0%Q 0%Q (Qeq_refl 0)).
  assert (H : (Qabs_ (a - b) / Qmax_ a b == Qabs_ (b - a) / Qmax_ b a)%Q).
  { now rewrite (Qmax_sym a b), (Qabs_sub_sym a b). }
  now rewrite (Qleb_comp _ _ H _ _ (Qeq_refl _)).
Qed.

Lemma value_score_sym (q1 q2 : json) (a b : nat) :
  value_score q1 q2 = Returns a -> value_score q2 q1 = Returns b -> a = b.
Proof.
  unfold value_score.
  destruct (item q1 "target_value") as [v1| |]; cbn [bind]; try discriminate.
  destruct (item q2 "target_value") as [v2| |]; cbn [bind];
    [|destruct (float_of v1); discriminate..].
  destruct (float_of v1) as [val1|], (float_of v2) as [val2|]; try congruence.
  pose proof (value_term_sym val1 val2) as H.
  destruct (Qeq_bool (Qmax_ val1 val2) 0), (Qeq_bool (Qmax_ val2 val1) 0); congruence.
Qed.

Lemma timeframe_score_sym (q1 q2 : json) (a b : nat) :
  timeframe_score q1 q2 = Returns a -> timeframe_score q2 q1 = Returns b -> a = b.
Proof.
  unfold timeframe_score.
  destruct (item q1 "timeframe") as [t1| |]; cbn [bind]; try discriminate.
  destruct (as_str t1) as [s1| |]; cbn [bind]; try discriminate.
  destruct (item q2 "timeframe") as [t2| |]; cbn [bind];
    [|destruct (strptime s1); discriminate..].
  destruct (as_str t2) as [s2| |]; cbn [bind];
    [|destruct (strptime s1); discriminate..].
  destruct (strptime s1) as [d1|], (strptime s2) as [d2|]; try congruence.
  replace (Z.abs (toordinal d2 - toordinal d1)) with (Z.abs (toordinal d1 - toordinal d2))
    by lia.
  congruence.
Qed.

Lemma disjoint_spec (a b : list string) :
  disjoint a b = true <-> (forall x, In x a -> ~ In x b).
Proof.
  unfold disjoint. rewrite forallb_forall. split.
  - intros H x Ha Hb. specialize (H x Ha). apply negb_true_iff in H.
    pose proof (existsb_false_In _ _ x H Hb) as E. rewrite String.eqb_refl in E. discriminate.
  - intros H x Ha. apply negb_true_iff.
    destruct (existsb (String.eqb x) b) eqn:E; [|reflexivity].
    apply existsb_exists in E as (y & Hy & Exy). apply String.eqb_eq in Exy. subst y.
    now destruct (H x Ha).
Qed.

Lemma disjoint_sym (a b : list string) : disjoint a b = disjoint b a.
Proof.
  destruct (disjoint a b) eqn:Hab, (disjoint b a) eqn:Hba; try reflexivity.
  - rewrite disjoint_spec in Hab.
    assert (H : disjoint b a = true) by (apply disjoint_spec; intros x Hb Ha; now apply (Hab x)).
    congruence.
  - rewrite disjoint_spec in Hba.
    assert (H : disjoint a b = true) by (apply disjoint_spec; intros x Ha Hb; now apply (Hba x)).
    congruence.
Qed.

Lemma country_score_sym (q1 q2 : json) (e1 e2 : list string) (a b : nat) :
  country_score q1 q2 e1 e2 = Returns a -> country_score q2 q1 e2 e1 = Returns b -> a = b.
Proof.
  unfold country_score.
  destruct (item q1 "category") as [c1| |]; cbn [bind]; try discriminate.
  destruct (item q2 "category") as [c2| |]; cbn [bind];
    [|destruct (is_social c1); discriminate..].
  rewrite (String.eqb_sym (first_country e2) (first_country e1)).
  destruct (is_social c1), (is_social c2); congruence.
Qed.

Lemma diversity_score_same (q1 q2 metric1 metric2 : json) (s12 s21 : nat) :
  get q1 "metric" = Some metric1 -> get q2 "metric" = Some metric2 ->
  hashable metric1 = true -> hashable metric2 = true ->
  calculate_question_diversity q1 q2 = Returns s12 ->
  calculate_question_diversity q2 q1 = Returns s21 ->
  s12 = s21.
Proof.
  intros Hm1 Hm2 Hh1 Hh2. unfold calculate_question_diversity.
  assert (I1 : item q1 "metric" = Returns metric1).
  { destruct q1; try discriminate. simpl in *. now rewrite Hm1. }
  assert (I2 : item q2 "metric" = Returns metric2).
  { destruct q2; try discriminate. simpl in *. now rewrite Hm2. }
  rewrite I1, I2. cbn [bind].
  rewrite (json_eqb_sym metric2 metric1 Hh2 Hh1).
  destruct (timeframe_score q1 q2) as [d12| |] eqn:D12; cbn [bind]; try discriminate.
  destruct (timeframe_score q2 q1) as [d21| |] eqn:D21; cbn [bind];
    [|intros _; discriminate..].
  destruct (value_score q1 q2) as [v12| |] eqn:V12; cbn [bind]; try discriminate.
  destruct (value_score q2 q1) as [v21| |] eqn:V21; cbn [bind];
    [|intros _; discriminate..].
  destruct (item q1 "question") as [t1| |]; cbn [bind]; try discriminate.
  destruct (as_str t1) as [text1| |]; cbn [bind]; try discriminate.
  destruct (item q2 "question") as [t2| |]; cbn [bind]; try discriminate.
  destruct (as_str t2) as [text2| |]; cbn [bind]; try discriminate.
  rewrite (disjoint_sym (entities text2) (entities text1)).
  destruct (country_score q1 q2 _ _) as [c12| |] eqn:C12; cbn [bind]; try discriminate.
  destruct (country_score q2 q1 _ _) as [c21| |] eqn:C21; cbn [bind];
    [|intros _; discriminate..].
  intros H1 H2. injection H1 as <-. injection H2 as <-.
  rewrite (timeframe_score_sym _ _ _ _ D12 D21), (value_score_sym _ _ _ _ V12 V21),
    (country_score_sym _ _ _ _ _ _ C12 C21).
  reflexivity.
Qed.

(** X27.  The diversity score of two questions does not depend on their
    order: for metrics that are no lists or dicts, when the call returns a
    score, the call with the questions exchanged returns the same score or
    raises, so the diversity matrix is symmetric. *)
Theorem diversity_score_symmetric (q1 q2 metric1 metric2 : json) (score : nat) :
  get q1 "metric" = Some metric1 -> get q2 "metric" = Some metric2 ->
  hashable metric1 = true -> hashable metric2 = true ->
  calculate_question_diversity q1 q2 = Returns score ->
  calculate_question_diversity q2 q1 = Returns score \/
  calculate_question_diversity q2 q1 = Raises.
Proof.
  intros Hm1 Hm2 Hh1 Hh2 H.
  destruct (calculate_question_diversity q2 q1) as [s| |] eqn:E.
  - left. f_equal. symmetry.
    apply (diversity_score_same q1 q2 metric1 metric2 score s); assumption.
  - now right.
  - now destruct (calculate_question_diversity_finishes q2 q1).
Qed.

Lemma diversity_score_symmetric_witness :
  calculate_question_diversity protest_record sample_first = Returns 3 \/
  calculate_question_diversity protest_record sample_first = Raises.
Proof.
  apply (diversity_score_symmetric sample_first protest_record
           (JStr "price_target") (JStr "protest_count")); vm_compute; reflexivity.
Defined.

(** ** What the validator leaves alone *)

(** X28.  [validate_single_question] writes to the question and to the
    target value only: every other entry of the record is, after the call,
    what was passed in, whether the record is accepted or not. *)
Theorem validator_keeps_other_fields (question : json) (crypto_data : crypto)
  (countries : list string) (k : string) :
  k <> "question" -> k <> "target_value" ->
  get (snd (validate_single_question question crypto_data countries)) k = get question k.
Proof.
  intros Hq Ht. unfold validate_single_question.
  destruct question as [| | | | |q]; try reflexivity.
  destruct (negb (forallb (dict_has q) required_fields)); [reflexivity|].
  destruct (dict_get q "question") as [[| | |text0| |]|]; try reflexivity.
  set (q1 := dict_set q "question" (JStr (normalize_names crypto_data text0))).
  assert (H1 : get (JObj q1) k = get (JObj q) k).
  { subst q1. cbn [get]. apply dict_get_set_other. congruence. }
  destruct (dict_get q1 "category") as [category|]; [|exact H1].
  destruct (dict_get q1 "timeframe") as [timeframe|]; [|exact H1].
  destruct (dict_get q1 "target_value") as [target|]; [|exact H1].
  destruct (dict_get q1 "metric") as [metric|]; [|exact H1].
  destruct (negb (is_valid_category category)); [exact H1|].
  destruct (negb (timeframe_ok timeframe)); [exact H1|].
  destruct (float_of_cleaned target) as [value|]; [|exact H1].
  assert (H2 : get (JObj (dict_set q1 "target_value" (JNum value))) k = get (JObj q) k).
  { rewrite <- H1. cbn [get]. apply dict_get_set_other. congruence. }
  destruct (negb (target_value_ok _ _ _ _ _)); [exact H2|].
  destruct (negb (country_ok _ _ _)); exact H2.
Qed.

Lemma validator_keeps_other_fields_witness :
  get (snd (validate_single_question scenario_record (btc_at 90000) [])) "measurement_source"
  = get scenario_record "measurement_source".
Proof.
  apply (validator_keeps_other_fields scenario_record (btc_at 90000) [] "measurement_source");
    discriminate.
Defined.

(** ** The strict validator of [question_generator.py] *)




